(** * Pico:ed LED matrix driver (lib/Pico_ed.py): model and properties

    A shallow embedding of the [Matrix] and [Display] classes of
    [lib/Pico_ed.py].  Python integers are [Z] ([//] is [Z.div], [%] is
    [Z.modulo], [&], [|], [<<] are [Z.land], [Z.lor], [Z.shiftl]).  A method
    that talks to the I2C bus is a computation in a state-and-exception monad:
    the state carries the driver object ([self._frame]), the device's register
    file and the log of bus transactions; a Python [raise] leaves the state as
    it was at the point of the raise. *)

From Stdlib Require Import ZArith List String Ascii Bool Lia.
From stdpp Require Import gmap strings list fin_maps.

Local Open Scope string_scope.
Local Open Scope list_scope.
Local Open Scope Z_scope.

(** ** Register map (module constants) *)

Definition _MODE_REGISTER : Z := 0x00.
Definition _FRAME_REGISTER : Z := 0x01.
Definition _AUTOPLAY1_REGISTER : Z := 0x02.
Definition _AUTOPLAY2_REGISTER : Z := 0x03.
Definition _BLINK_REGISTER : Z := 0x05.
Definition _AUDIOSYNC_REGISTER : Z := 0x06.
Definition _BREATH1_REGISTER : Z := 0x08.
Definition _BREATH2_REGISTER : Z := 0x09.
Definition _SHUTDOWN_REGISTER : Z := 0x0a.
Definition _GAIN_REGISTER : Z := 0x0b.
Definition _ADC_REGISTER : Z := 0x0c.

Definition _CONFIG_BANK : Z := 0x0b.
Definition _BANK_ADDRESS : Z := 0xfd.

Definition _PICTURE_MODE : Z := 0x00.
Definition _AUTOPLAY_MODE : Z := 0x08.
Definition _AUDIOPLAY_MODE : Z := 0x18.

Definition _ENABLE_OFFSET : Z := 0x00.
Definition _BLINK_OFFSET : Z := 0x12.
Definition _COLOR_OFFSET : Z := 0x24.

(** [Matrix.width] and [Matrix.height]. *)
Definition width : Z := 17.
Definition height : Z := 7.

(** ** Pixel address translator *)

(** [Matrix._pixel_addr]: a pure function of the two coordinates. *)
Definition _pixel_addr (x y : Z) : Z :=
  if x >? 8 then
    let x := 17 - x in
    let y := y + 8 in
    x * 16 + y
  else
    let y := 7 - y in
    x * 16 + y.

(** The logical coordinates of the 17 x 7 matrix. *)
Definition valid_coord (x y : Z) : Prop := 0 <= x < 17 /\ 0 <= y < 7.

(** ** Bus, device and driver state *)

(** What the driver does to the outside world, in program order:
    [i2c.writeto_mem(self.address, memaddr, data)],
    [i2c.readfrom_mem(self.address, memaddr, nbytes)], and the blocking
    sleeps ([time.sleep(0.05)] is [Sleep 50000], [utime.sleep_us(10)] is
    [Sleep 10]). *)
Inductive event : Type :=
  | BusWrite (memaddr : Z) (data : list Z)
  | BusRead (memaddr : Z) (nbytes : Z)
  | Sleep (micros : Z).

(** The chip behind the bus, as far as the driver relies on it: a bank-select
    register at [_BANK_ADDRESS] and, per bank, byte registers that read back
    what was last written (0 when never written).  A multi-byte write
    auto-increments the register address. *)
Record device : Type := Device {
  dev_bank : Z;
  dev_regs : gmap (Z * Z) Z
}.

Fixpoint dev_write (memaddr : Z) (data : list Z) (d : device) : device :=
  match data with
  | [] => d
  | b :: data' =>
      dev_write (memaddr + 1) data'
        (if memaddr =? _BANK_ADDRESS
         then Device b (dev_regs d)
         else Device (dev_bank d) (<[(dev_bank d, memaddr) := b]> (dev_regs d)))
  end.

Definition dev_read (memaddr : Z) (d : device) : Z :=
  if memaddr =? _BANK_ADDRESS then dev_bank d
  else default 0 (dev_regs d !! (dev_bank d, memaddr)).

(** The driver object ([self._frame]) together with the device and the log. *)
Record state : Type := State {
  _frame : Z;
  dev : device;
  trace : list event
}.

Inductive exn : Type :=
  | ValueError (msg : string)
  | KeyError (key : string)
  | IndexError
  | TypeError.

Inductive result (A : Type) : Type :=
  | Ok (a : A)
  | Raise (e : exn).
Arguments Ok {A} a.
Arguments Raise {A} e.

Definition M (A : Type) : Type := state -> result A * state.

Definition ret {A} (a : A) : M A := fun s => (Ok a, s).

Definition raise {A} (e : exn) : M A := fun s => (Raise e, s).

Definition bind {A B} (m : M A) (k : A -> M B) : M B :=
  fun s =>
    match m s with
    | (Ok a, s') => k a s'
    | (Raise e, s') => (Raise e, s')
    end.

Declare Scope py_scope.
Delimit Scope py_scope with py.
Notation "'let*' x ':=' m 'in' k" := (bind m (fun x => k))
  (at level 10, x name, m at level 100, k at level 200) : py_scope.
Notation "m ';;' k" := (bind m (fun _ => k))
  (at level 100, k at level 200, right associativity) : py_scope.
Local Open Scope py_scope.

(** A [for] loop over a list: the first [raise] ends it. *)
Fixpoint for_ {A} (xs : list A) (body : A -> M unit) : M unit :=
  match xs with
  | [] => ret tt
  | x :: xs' => body x ;; for_ xs' body
  end.

(** Python's [range(start, stop, step)] ([step] not 0) and [range(stop)]. *)
Definition range_len (start stop step : Z) : Z :=
  if 0 <? step then Z.max 0 ((stop - start + step - 1) / step)
  else Z.max 0 ((start - stop - step - 1) / (- step)).

Definition range3 (start stop step : Z) : list Z :=
  map (fun i => start + Z.of_nat i * step)
      (seq 0 (Z.to_nat (range_len start stop step))).

Definition range (stop : Z) : list Z := range3 0 stop 1.

Definition log (e : event) : M unit :=
  fun s => (Ok tt, State (_frame s) (dev s) (trace s ++ [e])).

Definition writeto_mem (memaddr : Z) (data : list Z) : M unit :=
  fun s => (Ok tt, State (_frame s) (dev_write memaddr data (dev s))
                         (trace s ++ [BusWrite memaddr data])).

(** [i2c.readfrom_mem(self.address, memaddr, 1)[0]]. *)
Definition readfrom_mem (memaddr : Z) : M Z :=
  fun s => (Ok (dev_read memaddr (dev s)),
            State (_frame s) (dev s) (trace s ++ [BusRead memaddr 1])).

Definition sleep_us (micros : Z) : M unit := log (Sleep micros).

(** [bytearray([...])]: every element must be a byte. *)
Definition bytearray (l : list Z) : M (list Z) :=
  if forallb (fun v => (0 <=? v) && (v <=? 255)) l then ret l
  else raise (ValueError "byte must be in range(0, 256)").

Definition get_frame : M Z := fun s => (Ok (_frame s), s).

Definition set_frame (f : Z) : M unit :=
  fun s => (Ok tt, State f (dev s) (trace s)).

(** ** class Matrix *)

Definition _bank (bank : option Z) : M (option Z) :=
  match bank with
  | None => let* b := readfrom_mem _BANK_ADDRESS in ret (Some b)
  | Some bank =>
      let* data := bytearray [bank] in
      writeto_mem _BANK_ADDRESS data ;; ret None
  end.

Definition _register (bank register : Z) (value : option Z) : M (option Z) :=
  _bank (Some bank) ;;
  match value with
  | None => let* b := readfrom_mem register in ret (Some b)
  | Some value =>
      let* data := bytearray [value] in
      writeto_mem register data ;; ret None
  end.

Definition _mode (mode : option Z) : M (option Z) :=
  _register _CONFIG_BANK _MODE_REGISTER mode.

Definition in_range (lo v hi : Z) : bool := (lo <=? v) && (v <=? hi).

Definition frame (frame : option Z) (show : bool) : M (option Z) :=
  match frame with
  | None => let* f := get_frame in ret (Some f)
  | Some frame =>
      if negb (in_range 0 frame 8) then raise (ValueError "Frame out of range")
      else
        set_frame frame ;;
        if show then _register _CONFIG_BANK _FRAME_REGISTER (Some frame) ;; ret None
        else ret None
  end.

Definition audio_sync (value : option bool) : M (option Z) :=
  _register _CONFIG_BANK _AUDIOSYNC_REGISTER (option_map Z.b2z value).

Definition sleep (value : bool) : M (option Z) :=
  _register _CONFIG_BANK _SHUTDOWN_REGISTER (Some (Z.b2z (negb value))).

Definition reset : M unit :=
  sleep true ;; sleep_us 10 ;; sleep false ;; ret tt.

Definition autoplay (delay loops frames : Z) : M unit :=
  if delay =? 0 then _mode (Some _PICTURE_MODE) ;; ret tt
  else
    let delay := delay / 11 in
    if negb (in_range 0 loops 7) then raise (ValueError "Loops out of range")
    else if negb (in_range 0 frames 7) then raise (ValueError "Frames out of range")
    else if negb (in_range 1 delay 64) then raise (ValueError "Delay out of range")
    else
      _register _CONFIG_BANK _AUTOPLAY1_REGISTER
                (Some (Z.lor (Z.shiftl loops 4) frames)) ;;
      _register _CONFIG_BANK _AUTOPLAY2_REGISTER (Some (delay mod 64)) ;;
      let* f := get_frame in
      _mode (Some (Z.lor _AUTOPLAY_MODE f)) ;; ret tt.

Definition audio_play (sample_rate audio_gain : Z) (agc_enable agc_fast : bool)
  : M unit :=
  if sample_rate =? 0 then _mode (Some _PICTURE_MODE) ;; ret tt
  else
    let sample_rate := sample_rate / 46 in
    if negb (in_range 1 sample_rate 256)
    then raise (ValueError "Sample rate out of range")
    else
      _register _CONFIG_BANK _ADC_REGISTER (Some (sample_rate mod 256)) ;;
      let audio_gain := audio_gain / 3 in
      if negb (in_range 0 audio_gain 7)
      then raise (ValueError "Audio gain out of range")
      else
        _register _CONFIG_BANK _GAIN_REGISTER
          (Some (Z.lor (Z.lor (Z.shiftl (Z.b2z agc_enable) 3)
                              (Z.shiftl (Z.b2z agc_fast) 4))
                       audio_gain)) ;;
        _mode (Some _AUDIOPLAY_MODE) ;; ret tt.

Definition blink (rate : option Z) : M (option Z) :=
  match rate with
  | None =>
      let* r := _register _CONFIG_BANK _BLINK_REGISTER None in
      match r with
      | Some v => ret (Some (Z.land v 0x07 * 270))
      | None => raise TypeError
      end
  | Some rate =>
      if rate =? 0 then
        _register _CONFIG_BANK _BLINK_REGISTER (Some 0x00) ;; ret None
      else
        let rate := rate / 270 in
        _register _CONFIG_BANK _BLINK_REGISTER
                  (Some (Z.lor (Z.land rate 0x07) 0x08)) ;; ret None
  end.

Definition fill (color : option Z) (blink : option bool) (frame : option Z)
  : M unit :=
  let* frame := match frame with None => get_frame | Some f => ret f end in
  _bank (Some frame) ;;
  match color with
  | Some color =>
      if negb (in_range 0 color 255) then raise (ValueError "Color out of range")
      else
        let* data := bytearray (repeat color 24) in
        for_ (range 6) (fun row => writeto_mem (_COLOR_OFFSET + row * 24) data)
  | None => ret tt
  end ;;
  match blink with
  | Some blink =>
      let data := Z.b2z blink * 0xff in
      for_ (range 18) (fun col =>
        _register frame (_BLINK_OFFSET + col) (Some data) ;; ret tt)
  | None => ret tt
  end.

Definition write_frame (data : list Z) (frame : option Z) : M unit :=
  if Z.of_nat (length data) >? 144
  then raise (ValueError "Bytearray too large for frame")
  else
    let* frame := match frame with None => get_frame | Some f => ret f end in
    _bank (Some frame) ;;
    writeto_mem _COLOR_OFFSET data.

(** [Matrix.pixel]; the [blink] argument is accepted and ignored (the
    per-pixel blink path is commented out in the source). *)
Definition pixel (x y : Z) (color : option Z) (blink : option bool)
                 (frame : option Z) : M unit :=
  if negb (in_range 0 x width) then ret tt
  else if negb (in_range 0 y height) then ret tt
  else
    let pixel := _pixel_addr x y in
    let* frame := match frame with None => get_frame | Some f => ret f end in
    match color with
    | Some color =>
        if negb (in_range 0 color 255) then raise (ValueError "Color out of range")
        else _register frame (_COLOR_OFFSET + pixel) (Some color) ;; ret tt
    | None => ret tt
    end.

Definition init : M unit :=
  _mode (Some _PICTURE_MODE) ;;
  frame (Some 0) true ;;
  for_ (range 8) (fun frame =>
    fill (Some 0) (Some false) (Some frame) ;;
    for_ (range 18) (fun col =>
      _register frame (_ENABLE_OFFSET + col) (Some 0xff) ;; ret tt)) ;;
  audio_sync (Some false) ;; ret tt.

(** ** class Display *)

(** [self.wordStock]: for each supported character, the lit cells [(dx, dy)]
    of its glyph, in the order of the source. *)
Definition wordStock : gmap string (list (Z * Z)) :=
  list_to_map [
    ("A", [(1,0); (2,0); (3,0); (0,1); (4,1); (0,2); (4,2); (0,3); (4,3); (0,4); (1,4); (2,4); (3,4); (4,4); (0,5); (4,5); (0,6); (4,6)]);
    ("B", [(0,0); (1,0); (2,0); (3,0); (0,1); (4,1); (0,2); (4,2); (0,3); (1,3); (2,3); (3,3); (0,4); (4,4); (0,5); (4,5); (0,6); (1,6); (2,6); (3,6)]);
    ("C", [(1,0); (2,0); (3,0); (0,1); (4,1); (0,2); (0,3); (0,4); (0,5); (4,5); (1,6); (2,6); (3,6)]);
    ("D", [(0,0); (1,0); (2,0); (0,1); (3,1); (0,2); (4,2); (0,3); (4,3); (0,4); (4,4); (0,5); (3,5); (0,6); (1,6); (2,6)]);
    ("E", [(0,0); (1,0); (2,0); (3,0); (4,0); (0,1); (0,2); (0,3); (1,3); (2,3); (3,3); (0,4); (0,5); (0,6); (1,6); (2,6); (3,6); (4,6)]);
    ("F", [(0,0); (1,0); (2,0); (3,0); (4,0); (0,1); (0,2); (0,3); (1,3); (2,3); (0,4); (0,5); (0,6)]);
    ("G", [(1,0); (2,0); (3,0); (0,1); (4,1); (0,2); (0,3); (0,4); (3,4); (4,4); (0,5); (4,5); (1,6); (2,6); (3,6)]);
    ("H", [(0,0); (4,0); (0,1); (4,1); (0,2); (4,2); (0,3); (1,3); (2,3); (3,3); (4,3); (0,4); (4,4); (0,5); (4,5); (0,6); (4,6)]);
    ("I", [(1,0); (2,0); (3,0); (2,1); (2,2); (2,3); (2,4); (2,5); (2,6); (1,6); (2,6); (3,6)]);
    ("J", [(2,0); (3,0); (4,0); (3,1); (3,2); (3,3); (3,4); (0,5); (3,5); (1,6); (2,6)]);
    ("K", [(0,0); (4,0); (0,1); (3,1); (0,2); (2,2); (0,3); (1,3); (0,4); (2,4); (0,5); (3,5); (0,6); (4,6)]);
    ("L", [(0,0); (0,1); (0,2); (0,3); (0,4); (0,5); (0,6); (1,6); (2,6); (3,6); (4,6)]);
    ("M", [(0,0); (4,0); (0,1); (1,1); (3,1); (4,1); (0,2); (2,2); (4,2); (0,3); (4,3); (0,4); (4,4); (0,5); (4,5); (0,6); (4,6)]);
    ("N", [(0,0); (4,0); (0,1); (4,1); (0,2); (1,2); (4,2); (0,3); (2,3); (4,3); (0,4); (3,4); (4,4); (0,5); (4,5); (0,6); (4,6)]);
    ("O", [(1,0); (2,0); (3,0); (0,1); (4,1); (0,2); (4,2); (0,3); (4,3); (0,4); (4,4); (0,5); (4,5); (1,6); (2,6); (3,6)]);
    ("P", [(0,0); (1,0); (2,0); (3,0); (0,1); (4,1); (0,2); (4,2); (0,3); (1,3); (2,3); (3,3); (0,4); (0,5); (0,6)]);
    ("Q", [(1,0); (2,0); (3,0); (0,1); (4,1); (0,2); (4,2); (0,3); (4,3); (0,4); (2,4); (4,4); (0,5); (3,5); (1,6); (2,6); (4,6)]);
    ("R", [(0,0); (1,0); (2,0); (3,0); (0,1); (4,1); (0,2); (4,2); (0,3); (1,3); (2,3); (3,3); (0,4); (2,4); (0,5); (3,5); (0,6); (4,6)]);
    ("S", [(1,0); (2,0); (3,0); (4,0); (0,1); (0,2); (1,3); (2,3); (3,3); (4,4); (4,5); (0,6); (1,6); (2,6); (3,6)]);
    ("T", [(0,0); (1,0); (2,0); (3,0); (4,0); (2,1); (2,2); (2,3); (2,4); (2,5); (2,6)]);
    ("U", [(0,0); (4,0); (0,1); (4,1); (0,2); (4,2); (0,3); (4,3); (0,4); (4,4); (0,5); (4,5); (1,6); (2,6); (3,6)]);
    ("V", [(0,0); (4,0); (0,1); (4,1); (0,2); (4,2); (0,3); (4,3); (0,4); (4,4); (1,5); (3,5); (2,6)]);
    ("W", [(0,0); (4,0); (0,1); (4,1); (0,2); (4,2); (0,3); (2,3); (4,3); (0,4); (2,4); (4,4); (0,5); (1,5); (3,5); (4,5); (0,6); (4,6)]);
    ("X", [(0,0); (4,0); (0,1); (4,1); (1,2); (3,2); (2,3); (1,4); (3,4); (0,5); (4,5); (0,6); (4,6)]);
    ("Y", [(0,0); (4,0); (0,1); (4,1); (1,2); (3,2); (2,3); (2,4); (2,5); (2,6)]);
    ("Z", [(0,0); (1,0); (2,0); (3,0); (4,0); (4,1); (3,2); (2,3); (1,4); (0,5); (0,6); (1,6); (2,6); (3,6); (4,6)]);
    ("a", [(1,2); (2,2); (3,2); (4,3); (1,4); (2,4); (3,4); (4,4); (0,5); (4,5); (1,6); (2,6); (3,6); (4,6)]);
    ("b", [(0,0); (0,1); (0,2); (2,2); (3,2); (0,3); (1,3); (4,3); (0,4); (4,4); (0,5); (4,5); (0,6); (1,6); (2,6); (3,6)]);
    ("c", [(1,2); (2,2); (3,2); (0,3); (0,4); (0,5); (4,5); (1,6); (2,6); (3,6)]);
    ("d", [(4,0); (4,1); (1,2); (2,2); (4,2); (0,3); (3,3); (4,3); (0,4); (4,4); (0,5); (4,5); (1,6); (2,6); (3,6); (4,6)]);
    ("e", [(1,2); (2,2); (3,2); (0,3); (4,3); (0,4); (1,4); (2,4); (3,4); (4,4); (0,5); (1,6); (2,6); (3,6)]);
    ("f", [(2,0); (3,0); (1,1); (4,1); (1,2); (0,3); (1,3); (2,3); (1,4); (1,5); (1,6)]);
    ("g", [(1,2); (2,2); (3,2); (4,2); (0,3); (4,3); (1,4); (2,4); (3,4); (4,4); (4,5); (2,6); (3,6)]);
    ("h", [(0,0); (0,1); (0,2); (2,2); (3,2); (0,3); (1,3); (4,3); (0,4); (4,4); (0,5); (4,5); (0,6); (4,6)]);
    ("i", [(2,0); (1,2); (2,2); (2,3); (2,4); (2,5); (1,6); (2,6); (3,6)]);
    ("j", [(3,0); (2,2); (3,2); (3,3); (3,4); (0,5); (3,5); (1,6); (2,6)]);
    ("k", [(1,0); (1,1); (1,2); (4,2); (1,3); (3,3); (1,4); (2,4); (1,5); (3,5); (1,6); (4,6)]);
    ("l", [(1,0); (2,0); (2,1); (2,2); (2,3); (2,4); (2,5); (1,6); (2,6); (3,6)]);
    ("m", [(0,2); (1,2); (3,2); (0,3); (2,3); (4,3); (0,4); (2,4); (4,4); (0,5); (4,5); (0,6); (4,6)]);
    ("n", [(0,2); (2,2); (3,2); (0,3); (1,3); (4,3); (0,4); (4,4); (0,5); (4,5); (0,6); (4,6)]);
    ("o", [(1,2); (2,2); (3,2); (0,3); (4,3); (0,4); (4,4); (0,5); (4,5); (1,6); (2,6); (3,6)]);
    ("p", [(0,2); (1,2); (2,2); (3,2); (0,3); (4,3); (0,4); (1,4); (2,4); (3,4); (0,5); (0,6)]);
    ("q", [(1,2); (2,2); (4,2); (0,3); (3,3); (4,3); (1,4); (2,4); (3,4); (4,4); (4,5); (4,6)]);
    ("r", [(0,2); (2,2); (3,2); (0,3); (1,3); (4,3); (0,4); (0,5); (0,6)]);
    ("s", [(1,2); (2,2); (3,2); (0,3); (1,4); (2,4); (3,4); (4,5); (0,6); (1,6); (2,6); (3,6)]);
    ("t", [(1,0); (1,1); (0,2); (1,2); (2,2); (1,3); (1,4); (1,5); (4,5); (2,6); (3,6)]);
    ("u", [(0,2); (4,2); (0,3); (4,3); (0,4); (4,4); (0,5); (3,5); (4,5); (1,6); (2,6); (4,6)]);
    ("v", [(0,2); (4,2); (0,3); (4,3); (0,4); (4,4); (1,5); (3,5); (2,6)]);
    ("w", [(0,2); (4,2); (0,3); (4,3); (0,4); (2,4); (4,4); (0,5); (2,5); (4,5); (1,6); (3,6)]);
    ("x", [(0,2); (4,2); (1,3); (3,3); (2,4); (1,5); (3,5); (0,6); (4,6)]);
    ("y", [(0,2); (4,2); (0,3); (4,3); (1,4); (2,4); (3,4); (4,4); (4,5); (1,6); (2,6); (3,6)]);
    ("z", [(0,2); (1,2); (2,2); (3,2); (4,2); (3,3); (2,4); (1,5); (0,6); (1,6); (2,6); (3,6); (4,6)]);
    (" ", []);
    ("0", [(1,0); (2,0); (3,0); (0,1); (4,1); (0,2); (3,2); (4,2); (0,3); (2,3); (4,3); (0,4); (1,4); (4,4); (0,5); (4,5); (1,6); (2,6); (3,6)]);
    ("1", [(2,0); (1,1); (2,1); (2,2); (2,3); (2,4); (2,5); (1,6); (2,6); (3,6)]);
    ("2", [(1,0); (2,0); (3,0); (0,1); (4,1); (4,2); (3,3); (2,4); (1,5); (0,6); (1,6); (2,6); (3,6); (4,6)]);
    ("3", [(0,0); (1,0); (2,0); (3,0); (4,0); (3,1); (2,2); (3,3); (4,4); (0,5); (4,5); (1,6); (2,6); (3,6)]);
    ("4", [(3,0); (2,1); (3,1); (1,2); (3,2); (0,3); (3,3); (0,4); (1,4); (2,4); (3,4); (4,4); (3,5); (3,6)]);
    ("5", [(0,0); (1,0); (2,0); (3,0); (4,0); (0,1); (0,2); (1,2); (2,2); (3,2); (4,3); (4,4); (0,5); (4,5); (1,6); (2,6); (3,6)]);
    ("6", [(2,0); (3,0); (1,1); (0,2); (0,3); (1,3); (2,3); (3,3); (0,4); (4,4); (0,5); (4,5); (1,6); (2,6); (3,6)]);
    ("7", [(0,0); (1,0); (2,0); (3,0); (4,0); (4,1); (3,2); (2,3); (1,4); (1,5); (1,6)]);
    ("8", [(1,0); (2,0); (3,0); (0,1); (4,1); (0,2); (4,2); (1,3); (2,3); (3,3); (0,4); (4,4); (0,5); (4,5); (1,6); (2,6); (3,6)]);
    ("9", [(1,0); (2,0); (3,0); (0,1); (4,1); (0,2); (4,2); (1,3); (2,3); (3,3); (4,3); (4,4); (3,5); (1,6); (2,6)])
  ].

(** Subscripting: [d[key]] on a dict, [s[i]] on a str, [l[i]] on a list. *)
Arguments wordStock : simpl never.

Definition dict_getitem {V} (d : gmap string V) (key : string) : M V :=
  match d !! key with
  | Some v => ret v
  | None => raise (KeyError key)
  end.

Definition str_getitem (s : string) (i : Z) : M string :=
  let i := if i <? 0 then i + Z.of_nat (String.length s) else i in
  if i <? 0 then raise IndexError
  else
    match String.get (Z.to_nat i) s with
    | Some c => ret (String c EmptyString)
    | None => raise IndexError
    end.

Definition list_getitem {A} (l : list A) (i : Z) : M A :=
  let i := if i <? 0 then i + Z.of_nat (length l) else i in
  if i <? 0 then raise IndexError
  else
    match l !! Z.to_nat i with
    | Some a => ret a
    | None => raise IndexError
    end.

(** [len(self.wordStock[strlist[strcount]])]. *)
Definition glyph_len (strlist : string) (strcount : Z) : M Z :=
  let* key := str_getitem strlist strcount in
  let* cells := dict_getitem wordStock key in
  ret (Z.of_nat (length cells)).

(** [self.wordStock[strlist[strcount]][a]], a two-element list [[dx, dy]]. *)
Definition glyph_cell (strlist : string) (strcount a : Z) : M (Z * Z) :=
  let* key := str_getitem strlist strcount in
  let* cells := dict_getitem wordStock key in
  list_getitem cells a.

(** [time.sleep(0.05)]. *)
Definition time_sleep_50ms : M unit := sleep_us 50000.

(** Body of [if (len(strlist)<4):] in [Display.show]. *)
Definition show_static (strlist : string) : M unit :=
  for_ (range (Z.of_nat (String.length strlist))) (fun strcount =>
    let* n := glyph_len strlist strcount in
    for_ (range n) (fun a =>
      let* cell := glyph_cell strlist strcount a in
      pixel (fst cell + strcount * 6) (snd cell) (Some 10) None None)).

(** One pass of the inner loops of the scroll: every character, every cell,
    shifted by [offset]. *)
Definition show_paint (strlist : string) (offset : Z) : M unit :=
  for_ (range (Z.of_nat (String.length strlist))) (fun strcount =>
    let skewing := strcount * 6 + offset in
    let* n := glyph_len strlist strcount in
    for_ (range n) (fun strNum =>
      let* cell := glyph_cell strlist strcount strNum in
      if fst cell + skewing >=? 0
      then pixel (fst cell + skewing) (snd cell) (Some 20) None None
      else ret tt)).

(** The offsets of [for offset in range(0, -6*len(strlist), -1):]. *)
Definition scroll_offsets (strlist : string) : list Z :=
  range3 0 (-6 * Z.of_nat (String.length strlist)) (-1).

(** Body of [if (len(strlist) >3):] in [Display.show]. *)
Definition show_scroll (strlist : string) : M unit :=
  for_ (scroll_offsets strlist) (fun offset =>
    show_paint strlist offset ;;
    time_sleep_50ms ;;
    fill (Some 0) None None).

(** [Display.show]; the argument is [str(string_list)]. *)
Definition show (strlist : string) : M unit :=
  fill (Some 0) None None ;;
  (if Z.of_nat (String.length strlist) <? 4 then show_static strlist
   else ret tt) ;;
  (if Z.of_nat (String.length strlist) >? 3 then show_scroll strlist
   else ret tt).

(** A driver whose constructor has run leaves [self._frame] at 0; the
    device is taken with every register at 0. *)
Definition st0 : state := State 0 (Device 0 ∅) [].

Definition is_sleep (e : event) : bool :=
  match e with Sleep _ => true | _ => false end.

Definition is_write (e : event) : bool :=
  match e with BusWrite _ _ => true | _ => false end.

(** Number of blocking sleeps, and of bus writes, in a log. *)
Definition sleeps (t : list event) : nat := length (List.filter is_sleep t).
Definition writes (t : list event) : nat := length (List.filter is_write t).

(** * Vocabulary of the properties *)

(** ** A small program logic for the log *)

(** [self._frame] is a byte, so that [bytearray([frame])] succeeds.  The
    constructor sets it to 0 and [frame] keeps it within 0..8. *)
Definition frame_ok (s : state) : Prop := 0 <= _frame s <= 255.

(** [yields m s r t]: run from [s], [m] ends with [r] after adding the events
    [t] to the log, and leaves [self._frame] as it was. *)
Definition yields {A} (m : M A) (s : state) (r : result A) (t : list event) : Prop :=
  exists s', m s = (r, s') /\ _frame s' = _frame s /\ trace s' = trace s ++ t.

(** [steps k m]: from every state with a byte in [self._frame], [m] returns
    normally and sleeps exactly [k] times. *)
Definition steps {A} (k : nat) (m : M A) : Prop :=
  forall s, frame_ok s -> exists a t, yields m s (Ok a) t /\ sleeps t = k.

(** The bus traffic of [fill(color)] on frame [f]: the bank select, then the
    six 24-byte rows of the intensity plane. *)
Definition fill_events (f color : Z) : list event :=
  BusWrite _BANK_ADDRESS [f]
  :: map (fun row => BusWrite (_COLOR_OFFSET + row * 24) (repeat color 24))
         (range 6).

(** ** Strings and the glyph table *)

(** Every character of the string is a key of [wordStock]. *)
Fixpoint known (s : string) : bool :=
  match s with
  | EmptyString => true
  | String c s' =>
      match wordStock !! String c EmptyString with
      | Some _ => known s'
      | None => false
      end
  end.

(** Both paint loops of [show] have this shape: for every character, look up
    its glyph, then run [cells_loop] over the glyph's cells. *)
Definition for_chars (strlist : string) (cells_loop : Z -> Z -> M unit) : M unit :=
  for_ (range (Z.of_nat (String.length strlist))) (fun strcount =>
    let* n := glyph_len strlist strcount in cells_loop strcount n).

(** A cells loop that only paints: whatever it does with a cell of the glyph
    returns normally and never sleeps. *)
Definition cells_paint (strlist : string) (cells_loop : Z -> Z -> M unit) : Prop :=
  forall (i : nat) (c : ascii) cells,
    String.get i strlist = Some c ->
    wordStock !! String c EmptyString = Some cells ->
    steps 0 (cells_loop (Z.of_nat i) (Z.of_nat (length cells))).

(** [silent m]: no run of [m], normal or not, adds a sleep to the log. *)
Definition silent {A} (m : M A) : Prop :=
  forall s, sleeps (trace (snd (m s))) = sleeps (trace s).

(** 'A'-'Z', 'a'-'z', '0'-'9' and the space. *)
Definition glyph_char (c : ascii) : bool :=
  let n := Z.of_N (N_of_ascii c) in
  in_range 65 n 90 || in_range 97 n 122 || in_range 48 n 57 || (n =? 32).

Definition has_glyph (c : ascii) : bool :=
  match wordStock !! String c EmptyString with
  | Some _ => true
  | None => false
  end.

(** ** The constructor *)

(** [Matrix.__init__]: [self.i2c] and [self.address] are stored (the bus and
    the device address are fixed in this model), then [reset] and [init]
    run. *)
Definition Matrix__init__ : M unit := reset ;; init.

(** ** Vocabulary for the register file *)

(** Registers [off], [off + 1], ... of bank [b] set to the bytes [vals]. *)
Fixpoint regs_set (b off : Z) (vals : list Z) (m : gmap (Z * Z) Z)
  : gmap (Z * Z) Z :=
  match vals with
  | [] => m
  | v :: vals' => regs_set b (off + 1) vals' (<[(b, off) := v]> m)
  end.

(** [performs m s a d]: run from [s], [m] returns [a] normally, leaves
    [self._frame] as it was and the device in state [d]. *)
Definition performs {A} (m : M A) (s : state) (a : A) (d : device) : Prop :=
  exists s', m s = (Ok a, s') /\ _frame s' = _frame s /\ dev s' = d.

(** The registers of a frame bank after [fill(color, blink)]. *)
Definition fill_regs (f : Z) (color : option Z) (blink : option bool)
           (m : gmap (Z * Z) Z) : gmap (Z * Z) Z :=
  let m1 := match color with
            | Some c => regs_set f _COLOR_OFFSET (repeat c 144) m
            | None => m
            end in
  match blink with
  | Some b => regs_set f _BLINK_OFFSET (repeat (Z.b2z b * 0xff) 18) m1
  | None => m1
  end.

(** The registers of frame bank [f] as [init] leaves them. *)
Definition init_frame_regs (m : gmap (Z * Z) Z) (f : Z) : gmap (Z * Z) Z :=
  regs_set f _ENABLE_OFFSET (repeat 0xff 18)
    (fill_regs f (Some 0) (Some false) m).

(** The cells ([x], [y]) that the static path of [show] paints, in paint
    order: glyph cell [(dx, dy)] of character number [i] goes to
    [(dx + 6 * i, dy)]. *)
Fixpoint lit_cells_from (i : Z) (s : string) : list (Z * Z) :=
  match s with
  | EmptyString => []
  | String c s' =>
      map (fun cell => (fst cell + i * 6, snd cell))
          (default [] (wordStock !! String c EmptyString))
      ++ lit_cells_from (i + 1) s'
  end.

Definition lit_cells (s : string) : list (Z * Z) := lit_cells_from 0 s.

(** The state [init] establishes: active frame 0, picture mode, frame
    register 0, audio sync off and, in each of the eight frame banks, the 18
    enable registers at 0xff and the 18 blink and 144 intensity registers
    at 0. *)
Definition initialised (s : state) : Prop :=
  _frame s = 0 /\
  dev_regs (dev s) !! (_CONFIG_BANK, _MODE_REGISTER) = Some _PICTURE_MODE /\
  dev_regs (dev s) !! (_CONFIG_BANK, _FRAME_REGISTER) = Some 0 /\
  dev_regs (dev s) !! (_CONFIG_BANK, _AUDIOSYNC_REGISTER) = Some 0 /\
  forall f r, 0 <= f < 8 -> 0 <= r < _COLOR_OFFSET + 144 ->
    dev_regs (dev s) !! (f, r) = Some (if r <? _BLINK_OFFSET then 0xff else 0).

(** A glyph fits the nominal 5 x 7 cell. *)
Definition glyph_ok (cells : list (Z * Z)) : bool :=
  forallb (fun cell => in_range 0 (fst cell) 4 && in_range 0 (snd cell) 6) cells.

(** What the static path of [show] does with one glyph cell. *)
Definition paint_10 (cell : Z * Z) : M unit :=
  pixel (fst cell) (snd cell) (Some 10) None None.

(** The registers of frame bank [f] after [pixel] has been called with
    [color] on each of [cells] in turn. *)
Definition paint_regs (f color : Z) (cells : list (Z * Z)) (m : gmap (Z * Z) Z)
  : gmap (Z * Z) Z :=
  fold_left (fun m cell =>
               <[(f, _COLOR_OFFSET + _pixel_addr (fst cell) (snd cell)) := color]> m)
            cells m.

(** ** class Music *)

(** What [phonate] does to the buzzer's PWM channel and to the clock:
    [self.buzzer.duty_u16(d)], [self.buzzer.freq(f)], [utime.sleep_ms(ms)]
    and [self.buzzer.deinit()]. *)
Inductive pwm_event : Type :=
  | DutyU16 (d : Z)
  | Freq (f : Z)
  | SleepMs (ms : Z)
  | Deinit.

(** [self.tones]. *)
Definition tones : gmap string Z :=
  list_to_map [("1", 262); ("2", 294); ("3", 330); ("4", 349); ("5", 392);
               ("6", 440); ("7", 494); ("-", 0)].

Arguments tones : simpl never.

(** The body of the [for tone in melody:] loop, once [freq] is known. *)
Definition note_events (freq : Z) : list pwm_event :=
  (if freq =? 0 then [DutyU16 0] else [DutyU16 1000; Freq freq])
  ++ [SleepMs 400; DutyU16 0; SleepMs 100].

(** The loop of [Music.phonate] over the characters of [melody]: the result
    and the events so far; a missing tone raises [KeyError] and ends it. *)
Fixpoint phonate_loop (melody : string) : result unit * list pwm_event :=
  match melody with
  | EmptyString => (Ok tt, [])
  | String tone rest =>
      match tones !! String tone EmptyString with
      | None => (Raise (KeyError (String tone EmptyString)), [])
      | Some freq =>
          let (r, t) := phonate_loop rest in (r, note_events freq ++ t)
      end
  end.

(** [Music.phonate]: the loop, then [self.buzzer.deinit()]. *)
Definition phonate (melody : string) : result unit * list pwm_event :=
  match phonate_loop melody with
  | (Ok _, t) => (Ok tt, t ++ [Deinit])
  | (Raise e, t) => (Raise e, t)
  end.

(** Every character of the melody is a key of [tones]. *)
Fixpoint tones_known (melody : string) : bool :=
  match melody with
  | EmptyString => true
  | String tone rest =>
      match tones !! String tone EmptyString with
      | Some _ => tones_known rest
      | None => false
      end
  end.

(** Milliseconds slept, and notes sounded (calls of [freq]), in a log. *)
Fixpoint slept_ms (t : list pwm_event) : Z :=
  match t with
  | [] => 0
  | SleepMs ms :: t' => ms + slept_ms t'
  | _ :: t' => slept_ms t'
  end.

Definition is_freq (e : pwm_event) : bool :=
  match e with Freq _ => true | _ => false end.

Definition is_deinit (e : pwm_event) : bool :=
  match e with Deinit => true | _ => false end.

(** The notes of a melody that are not rests. *)
Fixpoint sounded (melody : string) : nat :=
  match melody with
  | EmptyString => 0%nat
  | String tone rest =>
      match tones !! String tone EmptyString with
      | Some freq => ((if (freq =? 0)%Z then 0 else 1) + sounded rest)%nat
      | None => 0%nat
      end
  end.

(** [frame_stable m]: no run of [m], normal or not, changes
    [self._frame]. *)
Definition frame_stable {A} (m : M A) : Prop :=
  forall s, _frame (snd (m s)) = _frame s.

(** ** What [show] puts on the bus *)

(** The bus traffic of one [pixel(x, y, color)] call on frame [f]: the two
    writes of [_register] when the guard of [pixel] lets the coordinate
    through, nothing otherwise. *)
Definition pixel_events (f x y color : Z) : list event :=
  if in_range 0 x width && in_range 0 y height
  then [BusWrite _BANK_ADDRESS [f];
        BusWrite (_COLOR_OFFSET + _pixel_addr x y) [color]]
  else [].

(** What one pass of the scroll does with a lit cell of the text. *)
Definition paint_20 (offset : Z) (cell : Z * Z) : M unit :=
  if fst cell + offset >=? 0
  then pixel (fst cell + offset) (snd cell) (Some 20) None None
  else ret tt.

(** The single paint of the static path: every lit cell of the text, in
    order, at intensity 10. *)
Definition static_events (f : Z) (strlist : string) : list event :=
  flat_map (fun cell => pixel_events f (fst cell) (snd cell) 10)
           (lit_cells strlist).

(** One frame-paint step of the scroll at shift [shift]: every lit cell of
    the text moved by [shift] columns, at intensity 20, then the 50 ms sleep,
    then the clearing [fill(0)]. *)
Definition pass_events (f : Z) (strlist : string) (shift : Z) : list event :=
  flat_map (fun cell => pixel_events f (fst cell + shift) (snd cell) 20)
           (lit_cells strlist)
  ++ [Sleep 50000] ++ fill_events f 0.

(** * Properties *)

(** ** Pixel address translator *)

Example _pixel_addr_0_0 : _pixel_addr 0 0 = 7.
Proof. reflexivity. Qed.

Example _pixel_addr_8_0 : _pixel_addr 8 0 = 135.
Proof. reflexivity. Qed.

Example _pixel_addr_9_0 : _pixel_addr 9 0 = 136.
Proof. reflexivity. Qed.

Example _pixel_addr_16_6 : _pixel_addr 16 6 = 30.
Proof. reflexivity. Qed.

Lemma _pixel_addr_right (x y : Z) : x <= 8 -> _pixel_addr x y = x * 16 + (7 - y).
Proof.
  intros Hx. unfold _pixel_addr.
  destruct (Z.gtb_spec x 8) as [Hgt | _]; [lia | reflexivity].
Qed.

Lemma _pixel_addr_left (x y : Z) : 8 < x -> _pixel_addr x y = (17 - x) * 16 + (y + 8).
Proof.
  intros Hx. unfold _pixel_addr.
  destruct (Z.gtb_spec x 8) as [_ | Hle]; [reflexivity | lia].
Qed.

(** C1: for every logical coordinate (x, y) with 0 <= x < 17 and 0 <= y < 7,
    the translator returns x*16 + (7 - y) when x <= 8 and
    (17 - x)*16 + (y + 8) when x > 8; the boundary column x = 8 is served by
    the first branch. *)
Theorem _pixel_addr_spec (x y : Z) :
  valid_coord x y ->
  (x <= 8 -> _pixel_addr x y = x * 16 + (7 - y)) /\
  (x > 8 -> _pixel_addr x y = (17 - x) * 16 + (y + 8)) /\
  _pixel_addr 8 y = 8 * 16 + (7 - y).
Proof.
  intros _. split; [| split].
  - apply _pixel_addr_right.
  - intros Hx. apply _pixel_addr_left. lia.
  - apply _pixel_addr_right. lia.
Qed.

Lemma _pixel_addr_spec_witness :
  valid_coord 8 3 /\
  (8 <= 8 -> _pixel_addr 8 3 = 8 * 16 + (7 - 3)) /\
  (8 > 8 -> _pixel_addr 8 3 = (17 - 8) * 16 + (3 + 8)) /\
  _pixel_addr 8 3 = 8 * 16 + (7 - 3).
Proof.
  assert (H : valid_coord 8 3) by (unfold valid_coord; lia).
  split; [exact H | exact (_pixel_addr_spec 8 3 H)].
Defined.

(** The quadrant and the row can be read back from the index: the low four
    bits hold the row (1..7 on the right, 8..14 on the left), the rest the
    column of the quadrant. *)
Lemma _pixel_addr_divmod (x y : Z) :
  valid_coord x y ->
  (x <= 8 /\ _pixel_addr x y / 16 = x /\ _pixel_addr x y mod 16 = 7 - y) \/
  (8 < x /\ _pixel_addr x y / 16 = 17 - x /\ _pixel_addr x y mod 16 = y + 8).
Proof.
  intros [Hx Hy].
  destruct (Z_le_gt_dec x 8) as [Hle | Hgt].
  - left. rewrite _pixel_addr_right by exact Hle.
    split; [exact Hle |].
    rewrite Z.add_comm, Z.div_add, Z.mod_add by lia.
    rewrite Z.div_small, Z.mod_small by lia. lia.
  - right. rewrite _pixel_addr_left by lia.
    split; [lia |].
    rewrite Z.add_comm, Z.div_add, Z.mod_add by lia.
    rewrite Z.div_small, Z.mod_small by lia. lia.
Qed.

(** C2: over the 119 valid logical coordinates the translator stays inside
    [0, 144) and never sends two distinct coordinates to the same cell. *)
Theorem _pixel_addr_injective (x1 y1 x2 y2 : Z) :
  valid_coord x1 y1 -> valid_coord x2 y2 ->
  0 <= _pixel_addr x1 y1 < 144 /\
  (_pixel_addr x1 y1 = _pixel_addr x2 y2 -> x1 = x2 /\ y1 = y2).
Proof.
  intros H1 H2. split.
  - destruct H1 as [Hx Hy].
    destruct (Z_le_gt_dec x1 8) as [Hle | Hgt].
    + rewrite _pixel_addr_right by exact Hle. lia.
    + rewrite _pixel_addr_left by lia. lia.
  - intros Heq.
    pose proof (_pixel_addr_divmod x1 y1 H1) as D1.
    pose proof (_pixel_addr_divmod x2 y2 H2) as D2.
    rewrite Heq in D1.
    destruct H1 as [Hx1 Hy1], H2 as [Hx2 Hy2].
    destruct D1 as [(? & ? & ?) | (? & ? & ?)], D2 as [(? & ? & ?) | (? & ? & ?)]; lia.
Qed.

Lemma _pixel_addr_injective_witness :
  valid_coord 8 0 /\ valid_coord 9 0 /\
  0 <= _pixel_addr 8 0 < 144 /\
  (_pixel_addr 8 0 = _pixel_addr 9 0 -> 8 = 9 /\ 0 = 0).
Proof.
  assert (H1 : valid_coord 8 0) by (unfold valid_coord; lia).
  assert (H2 : valid_coord 9 0) by (unfold valid_coord; lia).
  split; [exact H1 | split; [exact H2 | exact (_pixel_addr_injective 8 0 9 0 H1 H2)]].
Defined.

(** The same fact by enumeration: the 119 coordinates land on 119 distinct
    cells. *)
Example _pixel_addr_119_cells :
  length (x ← range width; y ← range height; [_pixel_addr x y]) = 119%nat /\
  NoDup (x ← range width; y ← range height; [_pixel_addr x y]).
Proof.
  split; [reflexivity |].
  apply (bool_decide_unpack _). vm_compute. exact I.
Qed.

(** ** Running computations: basic equations *)

Lemma bind_ok {A B} (m : M A) (k : A -> M B) s a s' :
  m s = (Ok a, s') -> bind m k s = k a s'.
Proof. intros H. unfold bind. rewrite H. reflexivity. Qed.

Lemma bind_raise {A B} (m : M A) (k : A -> M B) s e s' :
  m s = (Raise e, s') -> bind m k s = (Raise e, s').
Proof. intros H. unfold bind. rewrite H. reflexivity. Qed.

Lemma bind_ret_l {A B} (a : A) (k : A -> M B) s : bind (ret a) k s = k a s.
Proof. reflexivity. Qed.

Lemma bind_ret_tt (m : M unit) s : bind m (fun _ => ret tt) s = m s.
Proof. unfold bind, ret. destruct (m s) as [[[] | e] s']; reflexivity. Qed.

Lemma for_app {A} (xs ys : list A) (body : A -> M unit) s :
  for_ (xs ++ ys) body s = (for_ xs body ;; for_ ys body) s.
Proof.
  revert s. induction xs as [| x xs IH]; intros s; simpl.
  - reflexivity.
  - unfold bind. destruct (body x s) as [[[] | e] s1].
    + rewrite IH. reflexivity.
    + reflexivity.
Qed.

(** ** Python ranges *)

Lemma range_len_up (n : Z) : 0 <= n -> range_len 0 n 1 = n.
Proof.
  intros Hn. unfold range_len. simpl.
  replace (n - 0 + 1 - 1) with n by lia. rewrite Z.div_1_r. lia.
Qed.

Lemma range_len_down (n : Z) : 0 <= n -> range_len 0 (- n) (-1) = n.
Proof.
  intros Hn. unfold range_len. simpl.
  replace (0 - - n - -1 - 1) with n by lia. rewrite Z.div_1_r. lia.
Qed.

Lemma range_nat (n : nat) : range (Z.of_nat n) = map Z.of_nat (seq 0 n).
Proof.
  unfold range, range3. rewrite range_len_up by lia. rewrite Nat2Z.id.
  apply map_ext. intros i. lia.
Qed.

Lemma range_down_nat (n : nat) :
  range3 0 (- Z.of_nat n) (-1) = map (fun i => - Z.of_nat i) (seq 0 n).
Proof.
  unfold range3. rewrite range_len_down by lia. rewrite Nat2Z.id.
  apply map_ext. intros i. lia.
Qed.

Lemma range_S (n : nat) :
  range (Z.of_nat (S n)) = range (Z.of_nat n) ++ [Z.of_nat n].
Proof.
  rewrite !range_nat. rewrite seq_S, map_app. reflexivity.
Qed.

Lemma range_split (i n : nat) :
  (i < n)%nat ->
  exists rest, range (Z.of_nat n) = range (Z.of_nat i) ++ Z.of_nat i :: rest.
Proof.
  intros Hi. rewrite !range_nat.
  replace n with (i + S (n - S i))%nat by lia.
  rewrite seq_app, map_app. simpl.
  eexists. reflexivity.
Qed.

Lemma elem_of_range (n : nat) (i : Z) :
  In i (range (Z.of_nat n)) -> 0 <= i < Z.of_nat n.
Proof.
  rewrite range_nat, in_map_iff. intros (k & <- & Hk).
  apply in_seq in Hk. lia.
Qed.

(** The scroll visits the shifts 0, -1, ..., -(6n - 1): [6 * n] of them, the
    stop value [-6 * n] excluded. *)
Lemma scroll_offsets_eq (strlist : string) :
  scroll_offsets strlist
  = map (fun i => - Z.of_nat i) (seq 0 (6 * String.length strlist)).
Proof.
  unfold scroll_offsets.
  replace (-6 * Z.of_nat (String.length strlist))
    with (- Z.of_nat (6 * String.length strlist)) by lia.
  apply range_down_nat.
Qed.

Lemma scroll_offsets_length (strlist : string) :
  length (scroll_offsets strlist) = (6 * String.length strlist)%nat.
Proof. rewrite scroll_offsets_eq, length_map, length_seq. reflexivity. Qed.

Lemma scroll_offsets_bounds (strlist : string) (offset : Z) :
  In offset (scroll_offsets strlist) <->
  - (6 * Z.of_nat (String.length strlist) - 1) <= offset <= 0.
Proof.
  rewrite scroll_offsets_eq, in_map_iff. split.
  - intros (k & <- & Hk). apply in_seq in Hk. lia.
  - intros H. exists (Z.to_nat (- offset)). split; [lia |].
    apply in_seq. lia.
Qed.

(** ** Rules of the program logic *)

Lemma sleeps_app (t1 t2 : list event) : sleeps (t1 ++ t2) = (sleeps t1 + sleeps t2)%nat.
Proof. unfold sleeps. rewrite List.filter_app, length_app. reflexivity. Qed.

Lemma writes_app (t1 t2 : list event) : writes (t1 ++ t2) = (writes t1 + writes t2)%nat.
Proof. unfold writes. rewrite List.filter_app, length_app. reflexivity. Qed.

Lemma yields_ret {A} (a : A) s : yields (ret a) s (Ok a) [].
Proof. exists s. rewrite app_nil_r. auto. Qed.

Lemma yields_raise {A} (e : exn) s : yields (@raise A e) s (Raise e) [].
Proof. exists s. rewrite app_nil_r. auto. Qed.

Lemma yields_bind {A B} (m : M A) (k : A -> M B) s a t1 r t2 :
  yields m s (Ok a) t1 ->
  (forall s', _frame s' = _frame s -> trace s' = trace s ++ t1 ->
              yields (k a) s' r t2) ->
  yields (bind m k) s r (t1 ++ t2).
Proof.
  intros (s1 & Hm & Hf1 & Ht1) Hk.
  destruct (Hk s1 Hf1 Ht1) as (s2 & Hk2 & Hf2 & Ht2).
  exists s2. rewrite (bind_ok _ _ _ _ _ Hm). split; [exact Hk2 |].
  split; [congruence |]. rewrite Ht2, Ht1, app_assoc. reflexivity.
Qed.

Lemma yields_bind_raise {A B} (m : M A) (k : A -> M B) s e t :
  yields m s (Raise e) t -> yields (bind m k) s (Raise e) t.
Proof.
  intros (s1 & Hm & Hf1 & Ht1). exists s1.
  rewrite (bind_raise _ _ _ _ _ Hm). auto.
Qed.

Lemma yields_writeto_mem memaddr data s :
  yields (writeto_mem memaddr data) s (Ok tt) [BusWrite memaddr data].
Proof. eexists. split; [reflexivity |]. simpl. auto. Qed.

Lemma yields_time_sleep s : yields time_sleep_50ms s (Ok tt) [Sleep 50000].
Proof. eexists. split; [reflexivity |]. simpl. auto. Qed.

Lemma yields_get_frame s : yields get_frame s (Ok (_frame s)) [].
Proof. exists s. rewrite app_nil_r. auto. Qed.

Lemma yields_sleeps {A} (m : M A) s r t :
  yields m s r t -> sleeps (trace (snd (m s))) = (sleeps (trace s) + sleeps t)%nat.
Proof.
  intros (s' & Hm & _ & Ht). rewrite Hm. simpl. rewrite Ht. apply sleeps_app.
Qed.

Lemma steps_ret {A} (a : A) : steps 0 (ret a).
Proof. intros s _. exists a, []. split; [apply yields_ret | reflexivity]. Qed.

Lemma steps_bind {A B} (m : M A) (k : A -> M B) k1 k2 :
  steps k1 m -> (forall a, steps k2 (k a)) -> steps (k1 + k2) (bind m k).
Proof.
  intros Hm Hk s Hs.
  destruct (Hm s Hs) as (a & t1 & (s1 & Hm1 & Hf1 & Ht1) & Hc1).
  assert (Hs1 : frame_ok s1) by (unfold frame_ok in *; rewrite Hf1; exact Hs).
  destruct (Hk a s1 Hs1) as (b & t2 & (s2 & Hk2 & Hf2 & Ht2) & Hc2).
  exists b, (t1 ++ t2). split.
  - exists s2. rewrite (bind_ok _ _ _ _ _ Hm1). split; [exact Hk2 |].
    split; [congruence |]. rewrite Ht2, Ht1, app_assoc. reflexivity.
  - rewrite sleeps_app. lia.
Qed.

Lemma steps_for {A} (xs : list A) (body : A -> M unit) k :
  (forall x, In x xs -> steps k (body x)) ->
  steps (length xs * k) (for_ xs body).
Proof.
  induction xs as [| x xs IH]; intros Hbody; simpl.
  - apply steps_ret.
  - apply steps_bind.
    + apply Hbody. left. reflexivity.
    + intros _. apply IH. intros y Hy. apply Hbody. right. exact Hy.
Qed.

Lemma steps_time_sleep : steps 1 time_sleep_50ms.
Proof.
  intros s _. exists tt, [Sleep 50000].
  split; [apply yields_time_sleep | reflexivity].
Qed.

(** ** What [fill] and [pixel] put on the bus *)

Lemma in_range_true lo v hi : lo <= v <= hi -> in_range lo v hi = true.
Proof. intros H. unfold in_range. apply andb_true_intro. split; lia. Qed.

Lemma in_range_false lo v hi : v < lo \/ hi < v -> in_range lo v hi = false.
Proof.
  intros H. unfold in_range. apply andb_false_iff.
  destruct H; [left | right]; lia.
Qed.

Lemma bytearray1_ok (v : Z) s : 0 <= v <= 255 -> bytearray [v] s = (Ok [v], s).
Proof.
  intros H. unfold bytearray. simpl.
  fold (in_range 0 v 255). rewrite in_range_true by exact H. reflexivity.
Qed.

Lemma yields_bank (f : Z) s :
  0 <= f <= 255 -> yields (_bank (Some f)) s (Ok None) [BusWrite _BANK_ADDRESS [f]].
Proof.
  intros Hf. unfold _bank.
  rewrite <- (app_nil_l [BusWrite _ _]).
  eapply yields_bind.
  - exists s. rewrite bytearray1_ok by exact Hf. rewrite app_nil_r. auto.
  - intros s1 _ _. rewrite <- (app_nil_r [BusWrite _ _]).
    eapply yields_bind; [apply yields_writeto_mem |].
    intros s2 _ _. apply yields_ret.
Qed.

Lemma yields_register_write (b register v : Z) s :
  0 <= b <= 255 -> 0 <= v <= 255 ->
  yields (_register b register (Some v)) s (Ok None)
         [BusWrite _BANK_ADDRESS [b]; BusWrite register [v]].
Proof.
  intros Hb Hv. unfold _register.
  change [BusWrite _BANK_ADDRESS [b]; BusWrite register [v]]
    with ([BusWrite _BANK_ADDRESS [b]] ++ [] ++ [BusWrite register [v]] ++ []).
  eapply yields_bind; [apply yields_bank; exact Hb |].
  intros s1 _ _.
  eapply yields_bind.
  - exists s1. rewrite bytearray1_ok by exact Hv. rewrite app_nil_r. auto.
  - intros s2 _ _.
    eapply yields_bind; [apply yields_writeto_mem |].
    intros s3 _ _. apply yields_ret.
Qed.

Lemma bytearray_repeat_ok (v : Z) (n : nat) s :
  0 <= v <= 255 -> bytearray (repeat v n) s = (Ok (repeat v n), s).
Proof.
  intros H. unfold bytearray.
  replace (forallb _ (repeat v n)) with true; [reflexivity |].
  symmetry. apply forallb_forall. intros x Hx.
  apply repeat_spec in Hx. subst x. apply (in_range_true 0 v 255 H).
Qed.

Lemma yields_for_writes (xs : list Z) (f : Z -> Z) (data : list Z) s :
  yields (for_ xs (fun row => writeto_mem (f row) data)) s (Ok tt)
         (map (fun row => BusWrite (f row) data) xs).
Proof.
  revert s. induction xs as [| x xs IH]; intros s; simpl.
  - apply yields_ret.
  - change (BusWrite (f x) data :: ?l) with ([BusWrite (f x) data] ++ l).
    eapply yields_bind; [apply yields_writeto_mem |].
    intros s1 _ _. apply IH.
Qed.

Lemma yields_fill (color : Z) s :
  frame_ok s -> 0 <= color <= 255 ->
  yields (fill (Some color) None None) s (Ok tt) (fill_events (_frame s) color).
Proof.
  intros Hs Hc. unfold fill, fill_events.
  change (BusWrite _BANK_ADDRESS [_frame s] :: ?l)
    with ([] ++ [BusWrite _BANK_ADDRESS [_frame s]] ++ l ++ []).
  eapply yields_bind; [apply yields_get_frame |].
  intros s1 Hf1 _.
  eapply yields_bind; [apply yields_bank; exact Hs |].
  intros s2 _ _.
  eapply yields_bind; [| intros s3 _ _; apply yields_ret].
  rewrite in_range_true by exact Hc. cbn [negb].
  rewrite <- (app_nil_l (map _ _)).
  eapply yields_bind.
  - exists s2. rewrite bytearray_repeat_ok by exact Hc. rewrite app_nil_r. auto.
  - intros s3 _ _.
    apply (yields_for_writes (range 6) (fun row => _COLOR_OFFSET + row * 24)).
Qed.

Lemma sleeps_fill_events (f color : Z) : sleeps (fill_events f color) = 0%nat.
Proof. reflexivity. Qed.

Lemma steps_fill_0 : steps 0 (fill (Some 0) None None).
Proof.
  intros s Hs. exists tt, (fill_events (_frame s) 0).
  split; [apply yields_fill; [exact Hs | lia] | reflexivity].
Qed.

(** [pixel] with a colour: either the guard sends it back at once, or it
    performs the two writes of [_register]. *)
Lemma pixel_guarded (x y : Z) color blink frame s :
  x < 0 \/ width < x \/ y < 0 \/ height < y ->
  pixel x y color blink frame s = (Ok tt, s).
Proof.
  intros H. unfold pixel.
  destruct (in_range 0 x width) eqn:Ex; simpl; [| reflexivity].
  destruct (in_range 0 y height) eqn:Ey; simpl; [| reflexivity].
  unfold in_range in Ex, Ey.
  apply andb_true_iff in Ex, Ey. lia.
Qed.

Lemma yields_pixel (x y color : Z) s :
  frame_ok s -> 0 <= color <= 255 ->
  0 <= x <= width -> 0 <= y <= height ->
  yields (pixel x y (Some color) None None) s (Ok tt)
         [BusWrite _BANK_ADDRESS [_frame s];
          BusWrite (_COLOR_OFFSET + _pixel_addr x y) [color]].
Proof.
  intros Hs Hc Hx Hy. unfold pixel.
  rewrite (in_range_true 0 x width Hx), (in_range_true 0 y height Hy).
  cbn [negb].
  rewrite <- (app_nil_l [_; _]).
  eapply yields_bind; [apply yields_get_frame |].
  intros s1 _ _.
  rewrite (in_range_true 0 color 255 Hc). cbn [negb].
  rewrite <- (app_nil_r [_; _]).
  eapply yields_bind; [apply yields_register_write; [exact Hs | exact Hc] |].
  intros s2 _ _. apply yields_ret.
Qed.

Lemma steps_pixel (x y color : Z) :
  0 <= color <= 255 -> steps 0 (pixel x y (Some color) None None).
Proof.
  intros Hc s Hs.
  destruct (Z_lt_le_dec x 0) as [Hx0 | Hx0];
    [| destruct (Z_lt_le_dec width x) as [Hx1 | Hx1];
       [| destruct (Z_lt_le_dec y 0) as [Hy0 | Hy0];
          [| destruct (Z_lt_le_dec height y) as [Hy1 | Hy1]]]].
  1-4: exists tt, []; split; [| reflexivity];
       exists s; rewrite pixel_guarded by lia; rewrite app_nil_r; auto.
  eexists tt, _. split.
  - apply yields_pixel; [exact Hs | exact Hc | lia | lia].
  - reflexivity.
Qed.

(** ** Strings and glyph lookups *)

Lemma known_get (s : string) (i : nat) (c : ascii) :
  known s = true -> String.get i s = Some c ->
  exists cells, wordStock !! String c EmptyString = Some cells.
Proof.
  revert i. induction s as [| a s IH]; intros i Hk Hg;
    cbn [known String.get] in Hk, Hg.
  - discriminate.
  - destruct (wordStock !! String a EmptyString) as [cells |] eqn:Ea; [| discriminate].
    destruct i as [| i].
    + injection Hg as <-. exists cells. exact Ea.
    + apply (IH i Hk Hg).
Qed.

Lemma known_false_first (s : string) :
  known s = false ->
  exists (i : nat) (c : ascii),
    String.get i s = Some c /\
    wordStock !! String c EmptyString = None /\
    forall (j : nat) (c' : ascii), (j < i)%nat -> String.get j s = Some c' ->
      exists cells, wordStock !! String c' EmptyString = Some cells.
Proof.
  induction s as [| a s IH]; cbn [known]; intros Hk.
  - discriminate.
  - destruct (wordStock !! String a EmptyString) as [cells |] eqn:Ea.
    + destruct (IH Hk) as (i & c & Hg & Hn & Hpre).
      exists (S i), c. split; [exact Hg | split; [exact Hn |]].
      intros [| j] c' Hj Hg'.
      * injection Hg' as <-. exists cells. exact Ea.
      * apply (Hpre j c'); [lia | exact Hg'].
    + exists 0%nat, a. split; [reflexivity | split; [exact Ea |]].
      intros j c' Hj. lia.
Qed.

Lemma unknown_char_not_known (s : string) (i : nat) (c : ascii) :
  String.get i s = Some c -> wordStock !! String c EmptyString = None ->
  known s = false.
Proof.
  intros Hg Hn. destruct (known s) eqn:Hk; [| reflexivity].
  destruct (known_get s i c Hk Hg) as (cells & Hc). congruence.
Qed.

Lemma get_lt (s : string) (i : nat) :
  (i < String.length s)%nat -> exists c, String.get i s = Some c.
Proof.
  revert i. induction s as [| a s IH]; intros i Hi; simpl in *.
  - lia.
  - destruct i as [| i]; [exists a; reflexivity | apply IH; lia].
Qed.

Lemma get_Some_lt (s : string) (i : nat) (c : ascii) :
  String.get i s = Some c -> (i < String.length s)%nat.
Proof.
  revert i. induction s as [| a s IH]; intros i Hg; simpl in *.
  - discriminate.
  - destruct i as [| i]; [lia |]. apply IH in Hg. lia.
Qed.

Lemma str_getitem_ok (s : string) (i : nat) (c : ascii) st :
  String.get i s = Some c ->
  str_getitem s (Z.of_nat i) st = (Ok (String c EmptyString), st).
Proof.
  intros Hg. unfold str_getitem.
  assert (E : (Z.of_nat i <? 0) = false) by (apply Z.ltb_ge; lia).
  rewrite E. cbv beta zeta iota. rewrite E, Nat2Z.id, Hg. reflexivity.
Qed.

Lemma list_getitem_ok {A} (l : list A) (i : nat) st :
  (i < length l)%nat ->
  exists a, list_getitem l (Z.of_nat i) st = (Ok a, st).
Proof.
  intros Hi. unfold list_getitem.
  assert (E : (Z.of_nat i <? 0) = false) by (apply Z.ltb_ge; lia).
  rewrite E. cbv beta zeta iota. rewrite E, Nat2Z.id.
  destruct (lookup_lt_is_Some_2 l i Hi) as [a Ha].
  exists a. rewrite Ha. reflexivity.
Qed.

Lemma glyph_len_ok (strlist : string) (i : nat) (c : ascii) cells st :
  String.get i strlist = Some c ->
  wordStock !! String c EmptyString = Some cells ->
  glyph_len strlist (Z.of_nat i) st = (Ok (Z.of_nat (length cells)), st).
Proof.
  intros Hg Hc. unfold glyph_len.
  rewrite (bind_ok _ _ _ _ _ (str_getitem_ok strlist i c st Hg)).
  unfold dict_getitem. rewrite Hc. reflexivity.
Qed.

Lemma glyph_len_unknown (strlist : string) (i : nat) (c : ascii) st :
  String.get i strlist = Some c ->
  wordStock !! String c EmptyString = None ->
  glyph_len strlist (Z.of_nat i) st = (Raise (KeyError (String c EmptyString)), st).
Proof.
  intros Hg Hc. unfold glyph_len.
  rewrite (bind_ok _ _ _ _ _ (str_getitem_ok strlist i c st Hg)).
  unfold dict_getitem. rewrite Hc. reflexivity.
Qed.

Lemma glyph_cell_ok (strlist : string) (i a : nat) (c : ascii) cells st :
  String.get i strlist = Some c ->
  wordStock !! String c EmptyString = Some cells ->
  (a < length cells)%nat ->
  exists cell, glyph_cell strlist (Z.of_nat i) (Z.of_nat a) st = (Ok cell, st).
Proof.
  intros Hg Hc Ha. unfold glyph_cell.
  rewrite (bind_ok _ _ _ _ _ (str_getitem_ok strlist i c st Hg)).
  unfold dict_getitem at 1. rewrite Hc. rewrite bind_ret_l.
  apply list_getitem_ok. exact Ha.
Qed.

(** ** Painting the characters of a string *)

Lemma show_static_for_chars (strlist : string) :
  show_static strlist
  = for_chars strlist (fun strcount n =>
      for_ (range n) (fun a =>
        let* cell := glyph_cell strlist strcount a in
        pixel (fst cell + strcount * 6) (snd cell) (Some 10) None None)).
Proof. reflexivity. Qed.

Lemma show_paint_for_chars (strlist : string) (offset : Z) :
  show_paint strlist offset
  = for_chars strlist (fun strcount n =>
      for_ (range n) (fun strNum =>
        let* cell := glyph_cell strlist strcount strNum in
        if fst cell + (strcount * 6 + offset) >=? 0
        then pixel (fst cell + (strcount * 6 + offset)) (snd cell) (Some 20) None None
        else ret tt)).
Proof. reflexivity. Qed.

Lemma steps_cells (strlist : string) (draw : Z -> Z -> Z * Z -> M unit) :
  (forall strcount a cell, steps 0 (draw strcount a cell)) ->
  cells_paint strlist (fun strcount n =>
    for_ (range n) (fun a =>
      let* cell := glyph_cell strlist strcount a in draw strcount a cell)).
Proof.
  intros Hdraw i c cells Hg Hc.
  replace 0%nat with (length (range (Z.of_nat (length cells))) * 0)%nat by lia.
  apply steps_for. intros a Ha.
  apply elem_of_range in Ha.
  intros s Hs.
  destruct (glyph_cell_ok strlist i (Z.to_nat a) c cells s Hg Hc) as [cell Hcell]; [lia |].
  rewrite Z2Nat.id in Hcell by lia.
  destruct (Hdraw (Z.of_nat i) a cell s Hs) as (u & t & (s' & Hd & Hf & Ht) & Hq).
  exists u, t. split; [| exact Hq].
  exists s'. rewrite (bind_ok _ _ _ _ _ Hcell). auto.
Qed.

Lemma steps_for_chars_prefix (strlist : string) cells_loop (n : nat) :
  cells_paint strlist cells_loop ->
  (forall (j : nat) (c : ascii), (j < n)%nat -> String.get j strlist = Some c ->
     exists cells, wordStock !! String c EmptyString = Some cells) ->
  (n <= String.length strlist)%nat ->
  steps 0 (for_ (range (Z.of_nat n)) (fun strcount =>
    let* k := glyph_len strlist strcount in cells_loop strcount k)).
Proof.
  intros Hloop Hknown Hn.
  replace 0%nat with (length (range (Z.of_nat n)) * 0)%nat by lia.
  apply steps_for. intros x Hx.
  apply elem_of_range in Hx.
  destruct (get_lt strlist (Z.to_nat x)) as [c Hg]; [lia |].
  destruct (Hknown (Z.to_nat x) c) as [cells Hc]; [lia | exact Hg |].
  intros s Hs.
  pose proof (glyph_len_ok strlist (Z.to_nat x) c cells s Hg Hc) as Hlen.
  pose proof (Hloop (Z.to_nat x) c cells Hg Hc s Hs) as Hpaint.
  rewrite Z2Nat.id in Hlen, Hpaint by lia.
  destruct Hpaint as (u & t & (s' & Hd & Hf & Ht) & Hq).
  exists u, t. split; [| exact Hq].
  exists s'. rewrite (bind_ok _ _ _ _ _ Hlen). auto.
Qed.

Lemma steps_for_chars (strlist : string) cells_loop :
  cells_paint strlist cells_loop -> known strlist = true ->
  steps 0 (for_chars strlist cells_loop).
Proof.
  intros Hloop Hk. unfold for_chars.
  apply steps_for_chars_prefix; [exact Hloop | | lia].
  intros j c _ Hg. apply (known_get strlist j c Hk Hg).
Qed.

(** Reaching a character without a glyph: the characters before it have been
    painted, then the lookup raises [KeyError]. *)
Lemma for_chars_unknown (strlist : string) cells_loop (i : nat) (c : ascii) s :
  cells_paint strlist cells_loop ->
  String.get i strlist = Some c ->
  wordStock !! String c EmptyString = None ->
  (forall (j : nat) (c' : ascii), (j < i)%nat -> String.get j strlist = Some c' ->
     exists cells, wordStock !! String c' EmptyString = Some cells) ->
  frame_ok s ->
  exists t, yields (for_chars strlist cells_loop) s
                   (Raise (KeyError (String c EmptyString))) t
            /\ sleeps t = 0%nat.
Proof.
  intros Hloop Hg Hn Hpre Hs.
  pose proof (get_Some_lt strlist i c Hg) as Hi.
  destruct (range_split i (String.length strlist) Hi) as [rest Hsplit].
  pose proof (steps_for_chars_prefix strlist cells_loop i Hloop Hpre) as Hprefix.
  destruct (Hprefix ltac:(lia) s Hs) as (u & t & (s1 & Hrun & Hf & Ht) & Hq).
  exists t. split; [| exact Hq].
  exists s1. split; [| auto].
  unfold for_chars. rewrite Hsplit, for_app.
  rewrite (bind_ok _ _ _ _ _ Hrun). simpl.
  apply bind_raise. apply bind_raise.
  apply (glyph_len_unknown strlist i c s1 Hg Hn).
Qed.

(** ** Computations that never sleep, whatever happens *)

Lemma silent_ret {A} (a : A) : silent (ret a).
Proof. intros s. reflexivity. Qed.

Lemma silent_raise {A} (e : exn) : silent (@raise A e).
Proof. intros s. reflexivity. Qed.

Lemma silent_bind {A B} (m : M A) (k : A -> M B) :
  silent m -> (forall a, silent (k a)) -> silent (bind m k).
Proof.
  intros Hm Hk s. specialize (Hm s). unfold bind.
  destruct (m s) as [[a | e] s1]; simpl in *.
  - rewrite Hk. exact Hm.
  - exact Hm.
Qed.

Lemma silent_for {A} (xs : list A) (body : A -> M unit) :
  (forall x, silent (body x)) -> silent (for_ xs body).
Proof.
  intros Hbody. induction xs as [| x xs IH]; simpl.
  - apply silent_ret.
  - apply silent_bind; [apply Hbody | intros _; exact IH].
Qed.

Lemma silent_if {A} (b : bool) (m1 m2 : M A) :
  silent m1 -> silent m2 -> silent (if b then m1 else m2).
Proof. destruct b; auto. Qed.

Lemma silent_writeto_mem memaddr data : silent (writeto_mem memaddr data).
Proof.
  intros s. unfold writeto_mem. cbn [snd trace].
  rewrite sleeps_app. apply Nat.add_0_r.
Qed.

Lemma silent_get_frame : silent get_frame.
Proof. intros s. reflexivity. Qed.

Lemma silent_bytearray l : silent (bytearray l).
Proof. unfold bytearray. apply silent_if; [apply silent_ret | apply silent_raise]. Qed.

Lemma silent_bank_write b : silent (_bank (Some b)).
Proof.
  unfold _bank. apply silent_bind; [apply silent_bytearray |].
  intros data. apply silent_bind; [apply silent_writeto_mem |].
  intros _. apply silent_ret.
Qed.

Lemma silent_register_write b register v : silent (_register b register (Some v)).
Proof.
  unfold _register. apply silent_bind; [apply silent_bank_write |].
  intros _. apply silent_bind; [apply silent_bytearray |].
  intros data. apply silent_bind; [apply silent_writeto_mem |].
  intros _. apply silent_ret.
Qed.

Lemma silent_frame_or_default (frame : option Z) :
  silent (match frame with None => get_frame | Some f => ret f end).
Proof. destruct frame; [apply silent_ret | apply silent_get_frame]. Qed.

Lemma silent_fill color blink frame : silent (fill color blink frame).
Proof.
  unfold fill. apply silent_bind; [apply silent_frame_or_default |].
  intros f. apply silent_bind; [apply silent_bank_write |].
  intros _. apply silent_bind.
  - destruct color as [c |]; [| apply silent_ret].
    apply silent_if; [apply silent_raise |].
    apply silent_bind; [apply silent_bytearray |].
    intros data. apply silent_for. intros row. apply silent_writeto_mem.
  - intros _. destruct blink as [b |]; [| apply silent_ret].
    apply silent_for. intros col.
    apply silent_bind; [apply silent_register_write | intros _; apply silent_ret].
Qed.

Lemma silent_pixel x y color blink frame : silent (pixel x y color blink frame).
Proof.
  unfold pixel. apply silent_if; [apply silent_ret |].
  apply silent_if; [apply silent_ret |].
  apply silent_bind; [apply silent_frame_or_default |].
  intros f. destruct color as [c |]; [| apply silent_ret].
  apply silent_if; [apply silent_raise |].
  apply silent_bind; [apply silent_register_write | intros _; apply silent_ret].
Qed.

Lemma silent_str_getitem s i : silent (str_getitem s i).
Proof.
  unfold str_getitem. cbv zeta.
  apply silent_if; [apply silent_raise |].
  destruct (String.get _ s); [apply silent_ret | apply silent_raise].
Qed.

Lemma silent_dict_getitem {V} (d : gmap string V) key : silent (dict_getitem d key).
Proof.
  unfold dict_getitem. destruct (d !! key); [apply silent_ret | apply silent_raise].
Qed.

Lemma silent_list_getitem {A} (l : list A) i : silent (list_getitem l i).
Proof.
  unfold list_getitem. cbv zeta.
  apply silent_if; [apply silent_raise |].
  destruct (l !! _); [apply silent_ret | apply silent_raise].
Qed.

Lemma silent_glyph_len strlist strcount : silent (glyph_len strlist strcount).
Proof.
  unfold glyph_len. apply silent_bind; [apply silent_str_getitem |].
  intros key. apply silent_bind; [apply silent_dict_getitem |].
  intros cells. apply silent_ret.
Qed.

Lemma silent_glyph_cell strlist strcount a : silent (glyph_cell strlist strcount a).
Proof.
  unfold glyph_cell. apply silent_bind; [apply silent_str_getitem |].
  intros key. apply silent_bind; [apply silent_dict_getitem |].
  intros cells. apply silent_list_getitem.
Qed.

Lemma silent_show_static strlist : silent (show_static strlist).
Proof.
  unfold show_static. apply silent_for. intros strcount.
  apply silent_bind; [apply silent_glyph_len |].
  intros n. apply silent_for. intros a.
  apply silent_bind; [apply silent_glyph_cell |].
  intros cell. apply silent_pixel.
Qed.

(** ** Display.show *)

Lemma steps_show_static (strlist : string) :
  known strlist = true -> steps 0 (show_static strlist).
Proof.
  intros Hk. rewrite show_static_for_chars.
  apply steps_for_chars; [| exact Hk].
  apply (steps_cells strlist
           (fun strcount a cell =>
              pixel (fst cell + strcount * 6) (snd cell) (Some 10) None None)).
  intros strcount a cell. apply steps_pixel. lia.
Qed.

Lemma cells_paint_scroll (strlist : string) (offset : Z) :
  cells_paint strlist (fun strcount n =>
    for_ (range n) (fun strNum =>
      let* cell := glyph_cell strlist strcount strNum in
      if fst cell + (strcount * 6 + offset) >=? 0
      then pixel (fst cell + (strcount * 6 + offset)) (snd cell) (Some 20) None None
      else ret tt)).
Proof.
  apply (steps_cells strlist
           (fun strcount a cell =>
              if fst cell + (strcount * 6 + offset) >=? 0
              then pixel (fst cell + (strcount * 6 + offset)) (snd cell)
                         (Some 20) None None
              else ret tt)).
  intros strcount a cell.
  destruct (fst cell + (strcount * 6 + offset) >=? 0).
  - apply steps_pixel. lia.
  - apply steps_ret.
Qed.

Lemma cells_paint_static (strlist : string) :
  cells_paint strlist (fun strcount n =>
    for_ (range n) (fun a =>
      let* cell := glyph_cell strlist strcount a in
      pixel (fst cell + strcount * 6) (snd cell) (Some 10) None None)).
Proof.
  apply (steps_cells strlist
           (fun strcount a cell =>
              pixel (fst cell + strcount * 6) (snd cell) (Some 10) None None)).
  intros strcount a cell. apply steps_pixel. lia.
Qed.

Lemma steps_show_paint (strlist : string) (offset : Z) :
  known strlist = true -> steps 0 (show_paint strlist offset).
Proof.
  intros Hk. rewrite show_paint_for_chars.
  apply steps_for_chars; [apply cells_paint_scroll | exact Hk].
Qed.

(** With every character in the table, the scroll loop runs to its end and
    sleeps once per offset. *)
Lemma steps_show_scroll (strlist : string) :
  known strlist = true ->
  steps (6 * String.length strlist) (show_scroll strlist).
Proof.
  intros Hk. unfold show_scroll.
  replace (6 * String.length strlist)%nat
    with (length (scroll_offsets strlist) * 1)%nat
    by (rewrite scroll_offsets_length; lia).
  apply steps_for. intros offset _.
  apply (steps_bind _ _ 0 1); [apply steps_show_paint; exact Hk |].
  intros _. apply (steps_bind _ _ 1 0); [apply steps_time_sleep |].
  intros _. apply steps_fill_0.
Qed.

(** The two [if]s of [show] are complementary. *)
Lemma show_short (strlist : string) s :
  Z.of_nat (String.length strlist) < 4 ->
  show strlist s = (fill (Some 0) None None ;; show_static strlist) s.
Proof.
  intros Hn. unfold show.
  destruct (Z.ltb_spec (Z.of_nat (String.length strlist)) 4) as [_ | Hge]; [| lia].
  destruct (Z.gtb_spec (Z.of_nat (String.length strlist)) 3) as [Hgt | _]; [lia |].
  unfold bind at 1 3.
  destruct (fill (Some 0) None None s) as [[[] | e] s1]; [| reflexivity].
  apply bind_ret_tt.
Qed.

Lemma show_long (strlist : string) s :
  4 <= Z.of_nat (String.length strlist) ->
  show strlist s = (fill (Some 0) None None ;; show_scroll strlist) s.
Proof.
  intros Hn. unfold show.
  destruct (Z.ltb_spec (Z.of_nat (String.length strlist)) 4) as [Hlt | _]; [lia |].
  destruct (Z.gtb_spec (Z.of_nat (String.length strlist)) 3) as [_ | Hle]; [| lia].
  reflexivity.
Qed.

Lemma show_long_steps (strlist : string) s :
  frame_ok s -> known strlist = true ->
  4 <= Z.of_nat (String.length strlist) ->
  exists s', show strlist s = (Ok tt, s') /\
             sleeps (trace s') = (sleeps (trace s) + 6 * String.length strlist)%nat.
Proof.
  intros Hs Hk Hn.
  pose proof (steps_bind (fill (Some 0) None None) (fun _ => show_scroll strlist)
                0 (6 * String.length strlist) steps_fill_0
                (fun _ => steps_show_scroll strlist Hk)) as Hsteps.
  destruct (Hsteps s Hs) as ([] & t & (s' & Hrun & _ & Ht) & Hq).
  exists s'. rewrite show_long by exact Hn. split; [exact Hrun |].
  rewrite Ht, sleeps_app, Hq. reflexivity.
Qed.

Lemma frame_ok_st0 : frame_ok st0.
Proof. unfold frame_ok, st0. simpl. lia. Qed.

(** C5 (as stated) fails: a 5-character string is painted 30 times, not 31,
    and the shift -30 is never painted. *)
Lemma show_HELLO_30_paint_steps :
  sleeps (trace (snd (show "HELLO" st0))) = 30%nat /\
  length (scroll_offsets "HELLO") <> 31%nat /\
  ~ In (-30) (scroll_offsets "HELLO") /\
  last (scroll_offsets "HELLO") = Some (-29).
Proof.
  split; [vm_compute; reflexivity |].
  split; [vm_compute; discriminate |].
  split; [| vm_compute; reflexivity].
  rewrite scroll_offsets_bounds. simpl. lia.
Qed.

Lemma scroll_offsets_head (strlist : string) :
  (0 < String.length strlist)%nat ->
  exists rest, scroll_offsets strlist = 0 :: rest.
Proof.
  intros Hn. rewrite scroll_offsets_eq.
  destruct (6 * String.length strlist)%nat as [| k] eqn:Ek; [lia |].
  simpl. eexists. reflexivity.
Qed.

(** C10: when the string contains a character that is not a key of the glyph
    table, [show] raises [KeyError] for the first such character instead of
    skipping it; by then it has cleared the frame ([fill(0)]) and painted
    whatever came before, without sleeping. *)
Theorem show_unknown_char_raises (strlist : string) (st : state) :
  frame_ok st ->
  (exists (i : nat) (c : ascii),
     String.get i strlist = Some c /\ wordStock !! String c EmptyString = None) ->
  exists (c : ascii) (t : list event) (st' : state),
    (exists i, String.get i strlist = Some c /\
       forall (j : nat) (c' : ascii), (j < i)%nat -> String.get j strlist = Some c' ->
         is_Some (wordStock !! String c' EmptyString)) /\
    wordStock !! String c EmptyString = None /\
    show strlist st = (Raise (KeyError (String c EmptyString)), st') /\
    trace st' = trace st ++ fill_events (_frame st) 0 ++ t /\
    sleeps t = 0%nat.
Proof.
  intros Hs (i0 & c0 & Hg0 & Hn0).
  pose proof (unknown_char_not_known strlist i0 c0 Hg0 Hn0) as Hk.
  destruct (known_false_first strlist Hk) as (i & c & Hg & Hn & Hpre).
  destruct (yields_fill 0 st Hs ltac:(lia)) as (s1 & Hfill & Hf1 & Ht1).
  assert (Hs1 : frame_ok s1) by (unfold frame_ok in *; rewrite Hf1; exact Hs).
  assert (Hdone : forall m : M unit,
            (exists t, yields m s1 (Raise (KeyError (String c EmptyString))) t
                       /\ sleeps t = 0%nat) ->
            exists t st',
              (fill (Some 0) None None ;; m) st
                = (Raise (KeyError (String c EmptyString)), st') /\
              trace st' = trace st ++ fill_events (_frame st) 0 ++ t /\
              sleeps t = 0%nat).
  { intros m (t & (s2 & Hrun & _ & Ht2) & Hq). exists t, s2.
    rewrite (bind_ok _ _ _ _ _ Hfill). split; [exact Hrun |].
    split; [| exact Hq]. rewrite Ht2, Ht1, app_assoc. reflexivity. }
  exists c.
  destruct (Z_lt_le_dec (Z.of_nat (String.length strlist)) 4) as [Hlt | Hge].
  - destruct (Hdone (show_static strlist)) as (t & st' & Hrun & Ht & Hq).
    { rewrite show_static_for_chars.
      apply (for_chars_unknown strlist _ i c s1 (cells_paint_static strlist)
               Hg Hn Hpre Hs1). }
    exists t, st'. rewrite show_short by exact Hlt.
    split; [exists i; split; [exact Hg | exact Hpre] |]. auto.
  - destruct (Hdone (show_scroll strlist)) as (t & st' & Hrun & Ht & Hq).
    { destruct (scroll_offsets_head strlist) as [rest Hoff]; [lia |].
      destruct (for_chars_unknown strlist _ i c s1 (cells_paint_scroll strlist 0)
                  Hg Hn Hpre Hs1) as (t & (s2 & Hrun & Hf2 & Ht2) & Hq).
      exists t. split; [| exact Hq]. exists s2. split; [| auto].
      unfold show_scroll. rewrite Hoff. simpl.
      apply bind_raise. apply bind_raise.
      rewrite show_paint_for_chars. exact Hrun. }
    exists t, st'. rewrite show_long by exact Hge.
    split; [exists i; split; [exact Hg | exact Hpre] |]. auto.
Qed.

Lemma show_unknown_char_raises_witness :
  frame_ok st0 /\
  (exists (i : nat) (c : ascii),
     String.get i "HE?LO" = Some c /\ wordStock !! String c EmptyString = None) /\
  exists (c : ascii) (t : list event) (st' : state),
    (exists i, String.get i "HE?LO" = Some c /\
       forall (j : nat) (c' : ascii), (j < i)%nat -> String.get j "HE?LO" = Some c' ->
         is_Some (wordStock !! String c' EmptyString)) /\
    wordStock !! String c EmptyString = None /\
    show "HE?LO" st0 = (Raise (KeyError (String c EmptyString)), st') /\
    trace st' = trace st0 ++ fill_events (_frame st0) 0 ++ t /\
    sleeps t = 0%nat.
Proof.
  assert (Hex : exists (i : nat) (c : ascii),
             String.get i "HE?LO" = Some c /\
             wordStock !! String c EmptyString = None).
  { exists 2%nat, "?"%char. split; reflexivity. }
  split; [exact frame_ok_st0 | split; [exact Hex |]].
  exact (show_unknown_char_raises "HE?LO" st0 frame_ok_st0 Hex).
Defined.

(** The earlier characters are on the display when the error surfaces: "H"
    and "E" of "HE?LO" account for 17 + 18 pixel writes (two bus writes
    each) after the 7 writes of [fill(0)]. *)
Example show_HE_LO :
  fst (show "HE?LO" st0) = Raise (KeyError "?") /\
  writes (trace (snd (show "HE?LO" st0))) = (7 + 2 * (17 + 18))%nat /\
  fst (show "?" st0) = Raise (KeyError "?") /\
  trace (snd (show "?" st0)) = fill_events 0 0.
Proof. vm_compute. auto. Qed.

(** ** The keys of the glyph table *)

Lemma has_glyph_glyph_char (c : ascii) : has_glyph c = glyph_char c.
Proof.
  destruct c as [[] [] [] [] [] [] [] []]; vm_compute; reflexivity.
Qed.

(** The table has 63 keys, and a character is one of them exactly when it is
    a letter, a digit or the space. *)
Lemma wordStock_keys (c : ascii) :
  is_Some (wordStock !! String c EmptyString) <-> glyph_char c = true.
Proof.
  rewrite <- has_glyph_glyph_char. unfold has_glyph.
  destruct (wordStock !! String c EmptyString) as [cells |]; split.
  - reflexivity.
  - intros _. exists cells. reflexivity.
  - intros [x Hx]. discriminate.
  - discriminate.
Qed.

Example wordStock_size : size wordStock = 63%nat.
Proof. vm_compute. reflexivity. Qed.

(** ** Register accesses on the device *)

Lemma register_write_run (b register v : Z) st :
  0 <= b <= 255 -> 0 <= v <= 255 -> register <> _BANK_ADDRESS ->
  _register b register (Some v) st
  = (Ok None,
     State (_frame st)
           (Device b (<[(b, register) := v]> (dev_regs (dev st))))
           (trace st ++ [BusWrite _BANK_ADDRESS [b]; BusWrite register [v]])).
Proof.
  intros Hb Hv Hr. unfold _register, _bank.
  unfold bind. rewrite (bytearray1_ok b st Hb).
  cbn [writeto_mem ret dev_write _frame dev trace].
  rewrite bytearray1_ok by exact Hv.
  cbn [writeto_mem ret dev_write _frame dev trace dev_bank dev_regs].
  rewrite Z.eqb_refl.
  destruct (Z.eqb_spec register _BANK_ADDRESS) as [E | _]; [contradiction |].
  cbn [dev_bank dev_regs]. rewrite <- app_assoc. reflexivity.
Qed.

Lemma register_read_run (b register : Z) st :
  0 <= b <= 255 -> register <> _BANK_ADDRESS ->
  _register b register None st
  = (Ok (Some (default 0 (dev_regs (dev st) !! (b, register)))),
     State (_frame st) (Device b (dev_regs (dev st)))
           (trace st ++ [BusWrite _BANK_ADDRESS [b]; BusRead register 1])).
Proof.
  intros Hb Hr. unfold _register, _bank.
  unfold bind. rewrite (bytearray1_ok b st Hb).
  cbn [writeto_mem readfrom_mem ret dev_write dev_read _frame dev trace].
  rewrite Z.eqb_refl. unfold dev_read.
  destruct (Z.eqb_spec register _BANK_ADDRESS) as [E | _]; [contradiction |].
  cbn [dev_bank dev_regs]. rewrite <- app_assoc. reflexivity.
Qed.

(** ** blink *)

Lemma land_7_cases (q : Z) :
  let y := Z.land q 0x07 in
  y = 0 \/ y = 1 \/ y = 2 \/ y = 3 \/ y = 4 \/ y = 5 \/ y = 6 \/ y = 7.
Proof.
  intros y. subst y.
  assert (E : Z.land q 0x07 = q mod 8).
  { change 0x07 with (Z.ones 3). rewrite Z.land_ones by lia. reflexivity. }
  rewrite E. pose proof (Z.mod_pos_bound q 8 ltac:(lia)). lia.
Qed.

Lemma blink_byte (q : Z) : 8 <= Z.lor (Z.land q 0x07) 0x08 <= 15.
Proof.
  destruct (land_7_cases q) as [E | [E | [E | [E | [E | [E | [E | E]]]]]]];
    rewrite E; vm_compute; split; discriminate.
Qed.

Lemma blink_decode (q : Z) :
  Z.land (Z.lor (Z.land q 0x07) 0x08) 0x07 = Z.land q 0x07.
Proof.
  destruct (land_7_cases q) as [E | [E | [E | [E | [E | [E | [E | E]]]]]]];
    rewrite E; reflexivity.
Qed.

(** C9 (as amended): for every nonzero rate, [blink] writes
    ((rate floor-divided by 270) & 0x07) | 0x08 to the blink register, and
    the query that follows returns ((rate // 270) & 0x07) * 270; the floor
    quotient is the truncated one for every positive rate.  [blink(0)]
    writes 0 to the blink register and leaves the mode register alone. *)
Theorem blink_set_then_query (rate : Z) (st : state) :
  (rate <> 0 ->
   exists st1 st2,
     blink (Some rate) st = (Ok None, st1) /\
     trace st1 = trace st ++
       [BusWrite _BANK_ADDRESS [_CONFIG_BANK];
        BusWrite _BLINK_REGISTER [Z.lor (Z.land (rate / 270) 0x07) 0x08]] /\
     blink None st1 = (Ok (Some (Z.land (rate / 270) 0x07 * 270)), st2)) /\
  (0 < rate -> rate / 270 = Z.quot rate 270) /\
  (exists st1,
     blink (Some 0) st = (Ok None, st1) /\
     trace st1 = trace st ++
       [BusWrite _BANK_ADDRESS [_CONFIG_BANK]; BusWrite _BLINK_REGISTER [0]] /\
     dev_regs (dev st1) !! (_CONFIG_BANK, _MODE_REGISTER)
     = dev_regs (dev st) !! (_CONFIG_BANK, _MODE_REGISTER)).
Proof.
  split; [| split].
  - intros Hr. unfold blink.
    destruct (Z.eqb_spec rate 0) as [E | _]; [contradiction |].
    pose proof (blink_byte (rate / 270)) as Hbyte.
    eexists; eexists. split; [| split].
    + unfold bind at 1.
      rewrite register_write_run;
        [reflexivity | unfold _CONFIG_BANK; lia | lia | discriminate].
    + reflexivity.
    + unfold bind at 1.
      rewrite register_read_run; [| unfold _CONFIG_BANK; lia | discriminate].
      cbn [dev dev_regs]. rewrite lookup_insert_eq. cbn [default].
      cbv beta iota. unfold ret, id. rewrite blink_decode. reflexivity.
  - intros Hpos. symmetry. apply Z.quot_div_nonneg; lia.
  - eexists. split; [| split].
    + unfold blink. rewrite Z.eqb_refl. unfold bind at 1.
      rewrite register_write_run;
        [reflexivity | unfold _CONFIG_BANK; lia | lia | discriminate].
    + reflexivity.
    + cbn [dev dev_regs]. apply lookup_insert_ne. discriminate.
Qed.

Lemma blink_set_then_query_witness :
  1000 <> 0 /\ 0 < 1000 /\
  (exists st1 st2,
     blink (Some 1000) st0 = (Ok None, st1) /\
     trace st1 = trace st0 ++
       [BusWrite _BANK_ADDRESS [_CONFIG_BANK];
        BusWrite _BLINK_REGISTER [Z.lor (Z.land (1000 / 270) 0x07) 0x08]] /\
     blink None st1 = (Ok (Some (Z.land (1000 / 270) 0x07 * 270)), st2)) /\
  1000 / 270 = Z.quot 1000 270.
Proof.
  assert (Hne : 1000 <> 0) by lia.
  assert (Hpos : 0 < 1000) by lia.
  pose proof (blink_set_then_query 1000 st0) as [Hset [Hquot _]].
  split; [exact Hne | split; [exact Hpos | split; [exact (Hset Hne) | exact (Hquot Hpos)]]].
Defined.

(** C9 (as stated) fails on a negative rate: Python's [//] rounds towards
    minus infinity, so [blink(-1)] writes 0x0f where the truncated quotient
    would give 0x08, and the query returns 1890 rather than 0. *)
Lemma blink_negative_rate_not_truncated :
  trace (snd (blink (Some (-1)) st0))
    = [BusWrite _BANK_ADDRESS [_CONFIG_BANK]; BusWrite _BLINK_REGISTER [0x0f]] /\
  Z.lor (Z.land (Z.quot (-1) 270) 0x07) 0x08 = 0x08 /\
  fst (blink None (snd (blink (Some (-1)) st0))) = Ok (Some 1890) /\
  Z.land (Z.quot (-1) 270) 0x07 * 270 = 0.
Proof. vm_compute. auto. Qed.

(** ** Parameter validation and bus writes *)

(** [autoplay] checks all three parameters before it touches the bus: a
    rejected call leaves the state, log included, as it was. *)
Lemma autoplay_rejected_no_write (delay loops frames : Z) st :
  delay <> 0 ->
  ~ (0 <= loops <= 7 /\ 0 <= frames <= 7 /\ 1 <= delay / 11 <= 64) ->
  exists msg, autoplay delay loops frames st = (Raise (ValueError msg), st).
Proof.
  intros Hd Hbad. unfold autoplay.
  destruct (Z.eqb_spec delay 0) as [E | _]; [contradiction |].
  unfold in_range.
  destruct (Z.leb_spec 0 loops), (Z.leb_spec loops 7); simpl;
    try (eexists; reflexivity).
  destruct (Z.leb_spec 0 frames), (Z.leb_spec frames 7); simpl;
    try (eexists; reflexivity).
  destruct (Z.leb_spec 1 (delay / 11)), (Z.leb_spec (delay / 11) 64); simpl;
    try (eexists; reflexivity).
  exfalso. apply Hbad. lia.
Qed.

(** [write_frame] checks the length before the bank select. *)
Lemma write_frame_rejected_no_write (data : list Z) frame st :
  144 < Z.of_nat (length data) ->
  write_frame data frame st
  = (Raise (ValueError "Bytearray too large for frame"), st).
Proof.
  intros Hlen. unfold write_frame.
  destruct (Z.gtb_spec (Z.of_nat (length data)) 144) as [_ | Hle]; [reflexivity | lia].
Qed.

(** [audio_play] with a sample rate out of range is rejected before any
    write. *)
Lemma audio_play_rate_rejected (sample_rate audio_gain : Z) agc_enable agc_fast st :
  sample_rate <> 0 ->
  sample_rate / 46 < 1 \/ 256 < sample_rate / 46 ->
  audio_play sample_rate audio_gain agc_enable agc_fast st
  = (Raise (ValueError "Sample rate out of range"), st).
Proof.
  intros Hr Hbad. unfold audio_play.
  destruct (Z.eqb_spec sample_rate 0) as [E | _]; [contradiction |].
  rewrite in_range_false by exact Hbad. reflexivity.
Qed.

(** With the sample rate in range and the gain out of range, the ADC register
    has been written by the time the gain is rejected. *)
Lemma audio_play_gain_rejected (sample_rate audio_gain : Z) agc_enable agc_fast st :
  1 <= sample_rate / 46 <= 256 ->
  audio_gain / 3 < 0 \/ 7 < audio_gain / 3 ->
  exists st',
    audio_play sample_rate audio_gain agc_enable agc_fast st
    = (Raise (ValueError "Audio gain out of range"), st') /\
    trace st' = trace st ++
      [BusWrite _BANK_ADDRESS [_CONFIG_BANK];
       BusWrite _ADC_REGISTER [(sample_rate / 46) mod 256]].
Proof.
  intros Hr Hg. unfold audio_play.
  destruct (Z.eqb_spec sample_rate 0) as [E | _].
  { subst sample_rate. change (0 / 46) with 0 in Hr. lia. }
  rewrite in_range_true by exact Hr. cbn [negb].
  pose proof (Z.mod_pos_bound (sample_rate / 46) 256 ltac:(lia)) as Hbyte.
  eexists. split.
  - unfold bind at 1.
    rewrite register_write_run;
      [| unfold _CONFIG_BANK; lia | lia | discriminate].
    rewrite in_range_false by exact Hg. reflexivity.
  - reflexivity.
Qed.

(** C3 (the code departs from the claim): [audio_play(46, 24)] has an
    in-range sample rate and an out-of-range gain (24 // 3 = 8); the call
    raises the gain error only after it has selected the configuration bank
    and written the ADC register. *)
Theorem audio_play_gain_error_after_adc_write :
  fst (audio_play 46 24 false false st0)
    = Raise (ValueError "Audio gain out of range") /\
  trace (snd (audio_play 46 24 false false st0))
    = [BusWrite _BANK_ADDRESS [_CONFIG_BANK]; BusWrite _ADC_REGISTER [1]] /\
  writes (trace (snd (audio_play 46 24 false false st0))) = 2%nat /\
  dev_regs (dev (snd (audio_play 46 24 false false st0)))
    !! (_CONFIG_BANK, _ADC_REGISTER) = Some 1.
Proof. vm_compute. auto. Qed.

(** ** pixel and fill *)

(** Coordinates the guard of [pixel] turns away: nothing happens. *)
Lemma pixel_off_matrix_no_op (x y : Z) color blink frame st :
  x < 0 \/ 17 < x \/ y < 0 \/ 7 < y ->
  pixel x y color blink frame st = (Ok tt, st).
Proof. intros H. apply pixel_guarded. unfold width, height. lia. Qed.

(** C4 (the code departs from the claim): the guards of [pixel] are
    [0 <= x <= 17] and [0 <= y <= 7], so column 17 and row 7, which are
    outside the 17 x 7 matrix, are let through: [pixel(17, 0, 10)],
    [pixel(0, 7, 10)] and [pixel(17, 7, 10)] each write a colour register,
    and [pixel(17, 0, 300)] raises. *)
Theorem pixel_column_17_row_7_written :
  pixel 17 0 (Some 10) None None st0
    = (Ok tt, snd (pixel 17 0 (Some 10) None None st0)) /\
  trace (snd (pixel 17 0 (Some 10) None None st0))
    = [BusWrite _BANK_ADDRESS [0]; BusWrite (_COLOR_OFFSET + 8) [10]] /\
  trace (snd (pixel 0 7 (Some 10) None None st0))
    = [BusWrite _BANK_ADDRESS [0]; BusWrite (_COLOR_OFFSET + 0) [10]] /\
  trace (snd (pixel 17 7 (Some 10) None None st0))
    = [BusWrite _BANK_ADDRESS [0]; BusWrite (_COLOR_OFFSET + 15) [10]] /\
  fst (pixel 17 0 (Some 300) None None st0)
    = Raise (ValueError "Color out of range") /\
  pixel 20 0 (Some 10) None None st0 = (Ok tt, st0).
Proof. vm_compute. auto 10. Qed.

(** A colour out of range reaches [pixel]'s check before any bus traffic. *)
Lemma pixel_color_rejected_no_write (x y color : Z) blink frame st :
  0 <= x <= 17 -> 0 <= y <= 7 ->
  color < 0 \/ 255 < color ->
  pixel x y (Some color) blink frame st
  = (Raise (ValueError "Color out of range"), st).
Proof.
  intros Hx Hy Hc. unfold pixel.
  rewrite (in_range_true 0 x width Hx), (in_range_true 0 y height Hy).
  cbn [negb].
  rewrite (in_range_false 0 color 255 Hc). cbn [negb].
  destruct frame; reflexivity.
Qed.

(** [fill] selects the bank first and checks the colour afterwards. *)
Lemma fill_color_rejected_after_bank (color : Z) blink st :
  frame_ok st ->
  color < 0 \/ 255 < color ->
  exists st',
    fill (Some color) blink None st
    = (Raise (ValueError "Color out of range"), st') /\
    trace st' = trace st ++ [BusWrite _BANK_ADDRESS [_frame st]].
Proof.
  intros Hs Hc. unfold fill.
  destruct (yields_bank (_frame st) st Hs) as (s1 & Hbank & Hf1 & Ht1).
  exists s1. split; [| exact Ht1].
  rewrite (bind_ok _ _ _ _ _ (eq_refl : get_frame st = (Ok (_frame st), st))).
  rewrite (bind_ok _ _ _ _ _ Hbank).
  rewrite (in_range_false 0 color 255 Hc). reflexivity.
Qed.

(** C6 (the code departs from the claim): [fill(256)] raises the colour
    error after one bus write, the bank select; [pixel] on the same colour
    raises with no bus traffic. *)
Theorem fill_bad_color_bank_select_written :
  fst (fill (Some 256) None None st0) = Raise (ValueError "Color out of range") /\
  trace (snd (fill (Some 256) None None st0)) = [BusWrite _BANK_ADDRESS [0]] /\
  writes (trace (snd (fill (Some 256) None None st0))) = 1%nat /\
  fst (fill (Some (-1)) None None st0) = Raise (ValueError "Color out of range") /\
  writes (trace (snd (fill (Some (-1)) None None st0))) = 1%nat /\
  pixel 0 0 (Some 256) None None st0
    = (Raise (ValueError "Color out of range"), st0).
Proof. vm_compute. auto 10. Qed.

(** ** frame *)

(** A frame index below 0 or above 8 is rejected with [ValueError]; the
    stored index, the device and the log are as before. *)
Lemma frame_rejected (f : Z) show st :
  f < 0 \/ 8 < f ->
  frame (Some f) show st = (Raise (ValueError "Frame out of range"), st).
Proof.
  intros Hf. unfold frame. rewrite in_range_false by exact Hf. reflexivity.
Qed.

(** Whatever [frame] is called with, [self._frame] stays within 0..8 (the
    upper end is the accepted 8, see below). *)
Lemma frame_keeps_byte (f : option Z) show st :
  0 <= _frame st <= 8 -> 0 <= _frame (snd (frame f show st)) <= 8.
Proof.
  intros Hs. unfold frame. destruct f as [f |]; [| exact Hs].
  unfold in_range.
  destruct (Z.leb_spec 0 f), (Z.leb_spec f 8); simpl; try exact Hs.
  rewrite (bind_ok _ _ _ _ _
             (eq_refl : set_frame f st = (Ok tt, State f (dev st) (trace st)))).
  destruct show.
  - rewrite (bind_ok _ _ _ _ _
               (register_write_run _CONFIG_BANK _FRAME_REGISTER f _
                  ltac:(unfold _CONFIG_BANK; lia) ltac:(lia) ltac:(discriminate))).
    cbn [ret snd _frame]. lia.
  - cbn [ret snd _frame]. lia.
Qed.

(** The frames the constructor initialises are 0..7. *)
Lemma init_frames : range 8 = [0; 1; 2; 3; 4; 5; 6; 7].
Proof. reflexivity. Qed.

(** C7 (the code departs from the claim): the bound of [frame] is
    [0 <= frame <= 8], so [frame(8)] is accepted: it stores 8 in
    [self._frame] and writes 8 to the frame register. *)
Theorem frame_8_accepted :
  fst (frame (Some 8) true st0) = Ok None /\
  _frame (snd (frame (Some 8) true st0)) = 8 /\
  trace (snd (frame (Some 8) true st0))
    = [BusWrite _BANK_ADDRESS [_CONFIG_BANK]; BusWrite _FRAME_REGISTER [8]] /\
  dev_regs (dev (snd (frame (Some 8) true st0)))
    !! (_CONFIG_BANK, _FRAME_REGISTER) = Some 8 /\
  frame (Some 9) true st0 = (Raise (ValueError "Frame out of range"), st0).
Proof. vm_compute. auto 10. Qed.

(** The constructor ([reset] then [init]) returns normally and leaves
    [self._frame] at 0. *)
Example constructor_frame_0 :
  fst ((reset ;; init) (State 5 (Device 3 ∅) [])) = Ok tt /\
  _frame (snd ((reset ;; init) (State 5 (Device 3 ∅) []))) = 0.
Proof. vm_compute. auto. Qed.


(** By the last offset of the scroll the text has left the matrix: the paint
    pass at -29 of a 5-character string draws nothing, while the one at -28
    still shows the last column of the last glyph. *)
Example show_paint_HELLO_last_offsets :
  show_paint "HELLO" (-29) st0 = (Ok tt, st0) /\
  writes (trace (snd (show_paint "HELLO" (-28) st0))) = (2 * 5)%nat.
Proof. vm_compute. auto. Qed.

(** * Further properties of the driver *)

(** ** The bank-register protocol *)

(** A byte written through [_register] is what [_register] reads back, even
    when another register (of the same or of another bank) has been written
    in between: every access selects its bank first. *)
Theorem register_write_read_back (b r v b' r' v' : Z) (st : state) :
  0 <= b <= 255 -> 0 <= v <= 255 -> r <> _BANK_ADDRESS ->
  0 <= b' <= 255 -> 0 <= v' <= 255 -> r' <> _BANK_ADDRESS ->
  (b', r') <> (b, r) ->
  exists st1 st2 st3,
    _register b r (Some v) st = (Ok None, st1) /\
    _register b' r' (Some v') st1 = (Ok None, st2) /\
    _register b r None st2 = (Ok (Some v), st3) /\
    _frame st3 = _frame st.
Proof.
  intros Hb Hv Hr Hb' Hv' Hr' Hne.
  eexists; eexists; eexists.
  split; [apply register_write_run; assumption |].
  split; [apply register_write_run; assumption |].
  split.
  - rewrite register_read_run by assumption.
    cbn [dev dev_regs].
    rewrite lookup_insert_ne by exact Hne.
    rewrite lookup_insert_eq. reflexivity.
  - reflexivity.
Qed.

Lemma register_write_read_back_witness :
  (0 <= 0 <= 255 /\ 0 <= 200 <= 255 /\ 0x24 <> _BANK_ADDRESS /\
   0 <= 1 <= 255 /\ 0 <= 7 <= 255 /\ (1, 0x24) <> (0, 0x24)) /\
  exists st1 st2 st3,
    _register 0 0x24 (Some 200) st0 = (Ok None, st1) /\
    _register 1 0x24 (Some 7) st1 = (Ok None, st2) /\
    _register 0 0x24 None st2 = (Ok (Some 200), st3) /\
    _frame st3 = _frame st0.
Proof.
  assert (Hb : 0 <= 0 <= 255) by lia.
  assert (Hv : 0 <= 200 <= 255) by lia.
  assert (Hr : 0x24 <> _BANK_ADDRESS) by discriminate.
  assert (Hb' : 0 <= 1 <= 255) by lia.
  assert (Hv' : 0 <= 7 <= 255) by lia.
  assert (Hne : (1, 0x24) <> (0, 0x24)) by discriminate.
  split; [tauto |].
  exact (register_write_read_back 0 0x24 200 1 0x24 7 st0 Hb Hv Hr Hb' Hv' Hr Hne).
Defined.

(** After [_bank(b)] the query [_bank()] returns [b]. *)
Theorem bank_select_read_back (b : Z) (st : state) :
  0 <= b <= 255 ->
  exists st1 st2,
    _bank (Some b) st = (Ok None, st1) /\
    _bank None st1 = (Ok (Some b), st2) /\
    trace st2 = trace st ++ [BusWrite _BANK_ADDRESS [b]; BusRead _BANK_ADDRESS 1].
Proof.
  intros Hb. unfold _bank.
  eexists; eexists. split; [| split].
  - rewrite (bind_ok _ _ _ _ _ (bytearray1_ok b st Hb)). reflexivity.
  - reflexivity.
  - cbn [trace]. rewrite <- app_assoc. reflexivity.
Qed.

Lemma bank_select_read_back_witness :
  0 <= 5 <= 255 /\
  exists st1 st2,
    _bank (Some 5) st0 = (Ok None, st1) /\
    _bank None st1 = (Ok (Some 5), st2) /\
    trace st2 = trace st0 ++ [BusWrite _BANK_ADDRESS [5]; BusRead _BANK_ADDRESS 1].
Proof.
  assert (Hb : 0 <= 5 <= 255) by lia.
  split; [exact Hb | exact (bank_select_read_back 5 st0 Hb)].
Defined.

(** ** Mode setters *)

Lemma small_cases (v : Z) :
  0 <= v <= 8 ->
  v = 0 \/ v = 1 \/ v = 2 \/ v = 3 \/ v = 4 \/ v = 5 \/ v = 6 \/ v = 7 \/ v = 8.
Proof. lia. Qed.

Lemma autoplay_pack (loops frames : Z) :
  0 <= loops <= 7 -> 0 <= frames <= 7 ->
  0 <= Z.lor (Z.shiftl loops 4) frames <= 255 /\
  Z.shiftr (Z.lor (Z.shiftl loops 4) frames) 4 = loops /\
  Z.land (Z.lor (Z.shiftl loops 4) frames) 0x0f = frames.
Proof.
  intros Hl Hf.
  destruct (small_cases loops ltac:(lia)) as [E | [E | [E | [E | [E | [E | [E | [E | E]]]]]]]];
    try lia; subst loops;
  destruct (small_cases frames ltac:(lia)) as [E | [E | [E | [E | [E | [E | [E | [E | E]]]]]]]];
    try lia; subst frames;
  vm_compute; repeat split; discriminate.
Qed.

Lemma autoplay_mode_byte (f : Z) :
  0 <= f <= 8 -> 0 <= Z.lor _AUTOPLAY_MODE f <= 255.
Proof.
  intros Hf.
  destruct (small_cases f Hf) as [E | [E | [E | [E | [E | [E | [E | [E | E]]]]]]]];
    subst f; vm_compute; split; discriminate.
Qed.

(** An accepted [autoplay] call writes the two parameter registers first and
    the mode register last; the first parameter byte holds [loops] in its
    high nibble and [frames] in its low one, the second the delay in 11 ms
    units modulo 64, the mode byte the autoplay bit or-ed with the active
    frame. *)
Theorem autoplay_accepted (delay loops frames : Z) (st : state) :
  0 <= loops <= 7 -> 0 <= frames <= 7 -> 1 <= delay / 11 <= 64 ->
  0 <= _frame st <= 8 ->
  let packed := Z.lor (Z.shiftl loops 4) frames in
  exists st',
    autoplay delay loops frames st = (Ok tt, st') /\
    trace st' = trace st ++
      [BusWrite _BANK_ADDRESS [_CONFIG_BANK]; BusWrite _AUTOPLAY1_REGISTER [packed];
       BusWrite _BANK_ADDRESS [_CONFIG_BANK];
       BusWrite _AUTOPLAY2_REGISTER [(delay / 11) mod 64];
       BusWrite _BANK_ADDRESS [_CONFIG_BANK];
       BusWrite _MODE_REGISTER [Z.lor _AUTOPLAY_MODE (_frame st)]] /\
    _frame st' = _frame st /\
    Z.shiftr packed 4 = loops /\ Z.land packed 0x0f = frames.
Proof.
  intros Hl Hf Hd Hs packed.
  destruct (autoplay_pack loops frames Hl Hf) as (Hbyte & Hhi & Hlo).
  pose proof (Z.mod_pos_bound (delay / 11) 64 ltac:(lia)) as Hdelay.
  pose proof (autoplay_mode_byte (_frame st) Hs) as Hmode.
  assert (Hcfg : 0 <= _CONFIG_BANK <= 255) by (unfold _CONFIG_BANK; lia).
  unfold autoplay.
  destruct (Z.eqb_spec delay 0) as [E | _].
  { subst delay. change (0 / 11) with 0 in Hd. lia. }
  rewrite (in_range_true 0 loops 7 Hl), (in_range_true 0 frames 7 Hf),
          (in_range_true 1 (delay / 11) 64 Hd).
  cbn [negb].
  rewrite (bind_ok _ _ _ _ _
             (register_write_run _CONFIG_BANK _AUTOPLAY1_REGISTER _ st
                Hcfg Hbyte ltac:(discriminate))).
  rewrite (bind_ok _ _ _ _ _
             (register_write_run _CONFIG_BANK _AUTOPLAY2_REGISTER
                ((delay / 11) mod 64) _ Hcfg ltac:(lia) ltac:(discriminate))).
  unfold get_frame at 1. unfold bind at 1. cbn [_frame].
  unfold _mode.
  rewrite (bind_ok _ _ _ _ _
             (register_write_run _CONFIG_BANK _MODE_REGISTER _ _
                Hcfg Hmode ltac:(discriminate))).
  eexists. split; [reflexivity |].
  cbn [trace _frame]. rewrite <- !app_assoc.
  split; [reflexivity |]. split; [reflexivity |]. split; assumption.
Qed.

Lemma autoplay_accepted_witness :
  (0 <= 3 <= 7 /\ 0 <= 5 <= 7 /\ 1 <= 704 / 11 <= 64 /\ 0 <= _frame st0 <= 8) /\
  exists st',
    autoplay 704 3 5 st0 = (Ok tt, st') /\
    trace st' = trace st0 ++
      [BusWrite _BANK_ADDRESS [_CONFIG_BANK];
       BusWrite _AUTOPLAY1_REGISTER [Z.lor (Z.shiftl 3 4) 5];
       BusWrite _BANK_ADDRESS [_CONFIG_BANK];
       BusWrite _AUTOPLAY2_REGISTER [(704 / 11) mod 64];
       BusWrite _BANK_ADDRESS [_CONFIG_BANK];
       BusWrite _MODE_REGISTER [Z.lor _AUTOPLAY_MODE (_frame st0)]] /\
    _frame st' = _frame st0 /\
    Z.shiftr (Z.lor (Z.shiftl 3 4) 5) 4 = 3 /\ Z.land (Z.lor (Z.shiftl 3 4) 5) 0x0f = 5.
Proof.
  assert (Hl : 0 <= 3 <= 7) by lia.
  assert (Hf : 0 <= 5 <= 7) by lia.
  assert (Hd : 1 <= 704 / 11 <= 64) by (vm_compute; split; discriminate).
  assert (Hs : 0 <= _frame st0 <= 8) by (simpl; lia).
  split; [tauto |].
  exact (autoplay_accepted 704 3 5 st0 Hl Hf Hd Hs).
Defined.

Lemma autoplay_rejected_no_write_witness :
  (704 <> 0 /\ ~ (0 <= 8 <= 7 /\ 0 <= 0 <= 7 /\ 1 <= 704 / 11 <= 64)) /\
  exists msg, autoplay 704 8 0 st0 = (Raise (ValueError msg), st0).
Proof.
  assert (Hd : 704 <> 0) by lia.
  assert (Hbad : ~ (0 <= 8 <= 7 /\ 0 <= 0 <= 7 /\ 1 <= 704 / 11 <= 64)) by lia.
  split; [split; assumption |].
  exact (autoplay_rejected_no_write 704 8 0 st0 Hd Hbad).
Defined.

Lemma audio_gain_pack (agc_enable agc_fast : bool) (g : Z) :
  0 <= g <= 7 ->
  let packed := Z.lor (Z.lor (Z.shiftl (Z.b2z agc_enable) 3)
                             (Z.shiftl (Z.b2z agc_fast) 4)) g in
  0 <= packed <= 255 /\
  Z.testbit packed 3 = agc_enable /\
  Z.testbit packed 4 = agc_fast /\
  Z.land packed 0x07 = g.
Proof.
  intros Hg.
  destruct (small_cases g ltac:(lia)) as [E | [E | [E | [E | [E | [E | [E | [E | E]]]]]]]];
    try lia; subst g;
  destruct agc_enable, agc_fast; vm_compute; repeat split; discriminate.
Qed.

(** An accepted [audio_play] call writes the ADC register (the sample rate
    in 46 Hz units modulo 256), then the gain register, then the mode
    register; the gain byte carries the gain (in units of 3) in bits 0-2, the
    AGC enable flag in bit 3 and the AGC fast flag in bit 4. *)
Theorem audio_play_accepted (sample_rate audio_gain : Z)
        (agc_enable agc_fast : bool) (st : state) :
  1 <= sample_rate / 46 <= 256 -> 0 <= audio_gain / 3 <= 7 ->
  let packed := Z.lor (Z.lor (Z.shiftl (Z.b2z agc_enable) 3)
                             (Z.shiftl (Z.b2z agc_fast) 4)) (audio_gain / 3) in
  exists st',
    audio_play sample_rate audio_gain agc_enable agc_fast st = (Ok tt, st') /\
    trace st' = trace st ++
      [BusWrite _BANK_ADDRESS [_CONFIG_BANK];
       BusWrite _ADC_REGISTER [(sample_rate / 46) mod 256];
       BusWrite _BANK_ADDRESS [_CONFIG_BANK]; BusWrite _GAIN_REGISTER [packed];
       BusWrite _BANK_ADDRESS [_CONFIG_BANK];
       BusWrite _MODE_REGISTER [_AUDIOPLAY_MODE]] /\
    _frame st' = _frame st /\
    Z.testbit packed 3 = agc_enable /\ Z.testbit packed 4 = agc_fast /\
    Z.land packed 0x07 = audio_gain / 3.
Proof.
  intros Hr Hg packed.
  destruct (audio_gain_pack agc_enable agc_fast (audio_gain / 3) Hg)
    as (Hbyte & H3 & H4 & Hlow).
  pose proof (Z.mod_pos_bound (sample_rate / 46) 256 ltac:(lia)) as Hadc.
  assert (Hcfg : 0 <= _CONFIG_BANK <= 255) by (unfold _CONFIG_BANK; lia).
  unfold audio_play.
  destruct (Z.eqb_spec sample_rate 0) as [E | _].
  { subst sample_rate. change (0 / 46) with 0 in Hr. lia. }
  rewrite (in_range_true 1 (sample_rate / 46) 256 Hr). cbn [negb].
  rewrite (bind_ok _ _ _ _ _
             (register_write_run _CONFIG_BANK _ADC_REGISTER
                ((sample_rate / 46) mod 256) st Hcfg ltac:(lia) ltac:(discriminate))).
  cbv zeta.
  rewrite (in_range_true 0 (audio_gain / 3) 7 Hg). cbn [negb].
  rewrite (bind_ok _ _ _ _ _
             (register_write_run _CONFIG_BANK _GAIN_REGISTER packed _
                Hcfg Hbyte ltac:(discriminate))).
  unfold _mode.
  rewrite (bind_ok _ _ _ _ _
             (register_write_run _CONFIG_BANK _MODE_REGISTER _AUDIOPLAY_MODE _
                Hcfg ltac:(unfold _AUDIOPLAY_MODE; lia) ltac:(discriminate))).
  eexists. split; [reflexivity |].
  cbn [trace _frame]. rewrite <- !app_assoc.
  split; [reflexivity |]. split; [reflexivity |]. auto.
Qed.

Lemma audio_play_accepted_witness :
  (1 <= 11776 / 46 <= 256 /\ 0 <= 21 / 3 <= 7) /\
  exists st',
    audio_play 11776 21 true false st0 = (Ok tt, st') /\
    trace st' = trace st0 ++
      [BusWrite _BANK_ADDRESS [_CONFIG_BANK];
       BusWrite _ADC_REGISTER [(11776 / 46) mod 256];
       BusWrite _BANK_ADDRESS [_CONFIG_BANK];
       BusWrite _GAIN_REGISTER
         [Z.lor (Z.lor (Z.shiftl (Z.b2z true) 3) (Z.shiftl (Z.b2z false) 4)) (21 / 3)];
       BusWrite _BANK_ADDRESS [_CONFIG_BANK];
       BusWrite _MODE_REGISTER [_AUDIOPLAY_MODE]] /\
    _frame st' = _frame st0 /\
    Z.testbit (Z.lor (Z.lor (Z.shiftl (Z.b2z true) 3) (Z.shiftl (Z.b2z false) 4))
                     (21 / 3)) 3 = true /\
    Z.testbit (Z.lor (Z.lor (Z.shiftl (Z.b2z true) 3) (Z.shiftl (Z.b2z false) 4))
                     (21 / 3)) 4 = false /\
    Z.land (Z.lor (Z.lor (Z.shiftl (Z.b2z true) 3) (Z.shiftl (Z.b2z false) 4))
                  (21 / 3)) 0x07 = 21 / 3.
Proof.
  assert (Hr : 1 <= 11776 / 46 <= 256) by (vm_compute; split; discriminate).
  assert (Hg : 0 <= 21 / 3 <= 7) by (vm_compute; split; discriminate).
  split; [split; assumption |].
  exact (audio_play_accepted 11776 21 true false st0 Hr Hg).
Defined.

(** The largest accepted sample rate and the largest accepted autoplay delay
    wrap to 0 in their registers ([% 256], [% 64]). *)
Example largest_rate_and_delay_wrap :
  (11776 / 46 = 256 /\ (11776 / 46) mod 256 = 0) /\
  (704 / 11 = 64 /\ (704 / 11) mod 64 = 0).
Proof. vm_compute. auto. Qed.

Lemma audio_play_rate_rejected_witness :
  (45 <> 0 /\ (45 / 46 < 1 \/ 256 < 45 / 46)) /\
  audio_play 45 0 false false st0
  = (Raise (ValueError "Sample rate out of range"), st0).
Proof.
  assert (Hr : 45 <> 0) by lia.
  assert (Hbad : 45 / 46 < 1 \/ 256 < 45 / 46) by (left; reflexivity).
  split; [split; assumption |].
  exact (audio_play_rate_rejected 45 0 false false st0 Hr Hbad).
Defined.

(** A zero delay or a zero sample rate switches to picture mode whatever the
    other arguments are: nothing is validated and only the mode register is
    written. *)
Theorem zero_parameter_selects_picture_mode (loops frames audio_gain : Z)
        (agc_enable agc_fast : bool) (st : state) :
  (exists st',
     autoplay 0 loops frames st = (Ok tt, st') /\
     trace st' = trace st ++
       [BusWrite _BANK_ADDRESS [_CONFIG_BANK]; BusWrite _MODE_REGISTER [_PICTURE_MODE]] /\
     dev_regs (dev st') !! (_CONFIG_BANK, _MODE_REGISTER) = Some _PICTURE_MODE) /\
  (exists st',
     audio_play 0 audio_gain agc_enable agc_fast st = (Ok tt, st') /\
     trace st' = trace st ++
       [BusWrite _BANK_ADDRESS [_CONFIG_BANK]; BusWrite _MODE_REGISTER [_PICTURE_MODE]] /\
     dev_regs (dev st') !! (_CONFIG_BANK, _MODE_REGISTER) = Some _PICTURE_MODE).
Proof.
  assert (Hrun := register_write_run _CONFIG_BANK _MODE_REGISTER _PICTURE_MODE st
                    ltac:(unfold _CONFIG_BANK; lia) ltac:(unfold _PICTURE_MODE; lia)
                    ltac:(discriminate)).
  split.
  - unfold autoplay. rewrite Z.eqb_refl. unfold _mode.
    rewrite (bind_ok _ _ _ _ _ Hrun).
    eexists. split; [reflexivity |]. split; [reflexivity |].
    cbn [dev dev_regs]. apply lookup_insert_eq.
  - unfold audio_play. rewrite Z.eqb_refl. unfold _mode.
    rewrite (bind_ok _ _ _ _ _ Hrun).
    eexists. split; [reflexivity |]. split; [reflexivity |].
    cbn [dev dev_regs]. apply lookup_insert_eq.
Qed.

(** ** The register file under bulk writes *)

Lemma regs_set_lookup_out (b off : Z) (vals : list Z) (m : gmap (Z * Z) Z)
      (b' r : Z) :
  b' <> b \/ r < off \/ off + Z.of_nat (length vals) <= r ->
  regs_set b off vals m !! (b', r) = m !! (b', r).
Proof.
  revert off m. induction vals as [| v vals IH]; intros off m H; simpl.
  - reflexivity.
  - rewrite IH by (simpl length in H; lia).
    apply lookup_insert_ne. intros E. injection E as E1 E2.
    simpl length in H. lia.
Qed.

Lemma regs_set_lookup_in (b off : Z) (vals : list Z) (m : gmap (Z * Z) Z)
      (i : nat) (v : Z) :
  vals !! i = Some v ->
  regs_set b off vals m !! (b, off + Z.of_nat i) = Some v.
Proof.
  revert off m i. induction vals as [| w vals IH]; intros off m i Hi; simpl.
  - discriminate.
  - destruct i as [| i].
    + injection Hi as ->. rewrite regs_set_lookup_out by lia.
      replace (off + Z.of_nat 0) with off by lia. apply lookup_insert_eq.
    + replace (off + Z.of_nat (S i)) with (off + 1 + Z.of_nat i) by lia.
      apply IH. exact Hi.
Qed.

Lemma repeat_lookup_lt {A} (v : A) (n i : nat) :
  (i < n)%nat -> repeat v n !! i = Some v.
Proof.
  revert i. induction n as [| n IH]; intros i Hi; [lia |].
  destruct i as [| i]; [reflexivity |]. simpl. apply IH. lia.
Qed.

Lemma regs_set_repeat_lookup (b off v : Z) (n : nat) (m : gmap (Z * Z) Z) (r : Z) :
  off <= r < off + Z.of_nat n ->
  regs_set b off (repeat v n) m !! (b, r) = Some v.
Proof.
  intros Hr. replace r with (off + Z.of_nat (Z.to_nat (r - off))) by lia.
  apply regs_set_lookup_in. apply repeat_lookup_lt. lia.
Qed.

Lemma regs_set_app (b off : Z) (l1 l2 : list Z) (m : gmap (Z * Z) Z) :
  regs_set b off (l1 ++ l2) m
  = regs_set b (off + Z.of_nat (length l1)) l2 (regs_set b off l1 m).
Proof.
  revert off m. induction l1 as [| v l1 IH]; intros off m; simpl.
  - f_equal. lia.
  - rewrite IH. f_equal. lia.
Qed.

(** A bulk write that stays clear of the bank-select address fills
    consecutive registers of the selected bank. *)
Lemma dev_write_regs (memaddr : Z) (data : list Z) (d : device) :
  memaddr + Z.of_nat (length data) <= _BANK_ADDRESS ->
  dev_write memaddr data d
  = Device (dev_bank d) (regs_set (dev_bank d) memaddr data (dev_regs d)).
Proof.
  revert memaddr d. induction data as [| v data IH]; intros memaddr d H.
  - destruct d. reflexivity.
  - simpl length in H. cbn [dev_write regs_set].
    destruct (Z.eqb_spec memaddr _BANK_ADDRESS) as [E | _]; [lia |].
    rewrite IH by (cbn [dev_bank]; lia). reflexivity.
Qed.

(** ** Rules for [performs] *)

Lemma performs_ret {A} (a : A) s : performs (ret a) s a (dev s).
Proof. exists s. auto. Qed.

Lemma performs_bind {A B} (m : M A) (k : A -> M B) s a d1 b d2 :
  performs m s a d1 ->
  (forall s1, _frame s1 = _frame s -> dev s1 = d1 -> performs (k a) s1 b d2) ->
  performs (bind m k) s b d2.
Proof.
  intros (s1 & Hm & Hf1 & Hd1) Hk.
  destruct (Hk s1 Hf1 Hd1) as (s2 & Hk2 & Hf2 & Hd2).
  exists s2. rewrite (bind_ok _ _ _ _ _ Hm). split; [exact Hk2 |].
  split; [congruence | exact Hd2].
Qed.

Lemma performs_writeto_mem memaddr data s :
  performs (writeto_mem memaddr data) s tt (dev_write memaddr data (dev s)).
Proof. eexists. split; [reflexivity |]. auto. Qed.

Lemma performs_bank (f : Z) s :
  0 <= f <= 255 ->
  performs (_bank (Some f)) s None (Device f (dev_regs (dev s))).
Proof.
  intros Hf. unfold _bank. eexists.
  rewrite (bind_ok _ _ _ _ _ (bytearray1_ok f s Hf)).
  split; [reflexivity |]. auto.
Qed.

Lemma performs_register_write (b register v : Z) s :
  0 <= b <= 255 -> 0 <= v <= 255 -> register <> _BANK_ADDRESS ->
  performs (_register b register (Some v)) s None
           (Device b (<[(b, register) := v]> (dev_regs (dev s)))).
Proof.
  intros Hb Hv Hr. eexists.
  split; [apply register_write_run; assumption |]. auto.
Qed.

(** A loop of single-register writes over consecutive registers. *)
Lemma performs_register_loop (f off v : Z) (n : nat) :
  0 <= f <= 255 -> 0 <= v <= 255 ->
  forall (k : nat) s,
    off + Z.of_nat k + Z.of_nat n <= _BANK_ADDRESS ->
    dev_bank (dev s) = f ->
    performs (for_ (map Z.of_nat (seq k n))
                (fun col => _register f (off + col) (Some v) ;; ret tt))
             s tt
             (Device f (regs_set f (off + Z.of_nat k) (repeat v n) (dev_regs (dev s)))).
Proof.
  intros Hf Hv. induction n as [| n IH]; intros k s Hk Hbank.
  - simpl. exists s. split; [reflexivity |]. split; [reflexivity |].
    destruct s as [fr [bk regs] tr]. simpl in *. subst bk. reflexivity.
  - cbn [seq map for_ repeat regs_set].
    eapply performs_bind.
    + eapply performs_bind.
      * apply performs_register_write; [exact Hf | exact Hv | lia].
      * intros s1 _ Hd1. exists s1. split; [reflexivity |]. split; [reflexivity | exact Hd1].
    + intros s1 Hf1 Hd1.
      specialize (IH (S k) s1 ltac:(lia) ltac:(rewrite Hd1; reflexivity)).
      rewrite Hd1 in IH. cbn [dev_regs] in IH.
      replace (off + Z.of_nat (S k)) with (off + Z.of_nat k + 1) in IH by lia.
      destruct IH as (s2 & Hrun & Hf2 & Hd2).
      exists s2. split; [exact Hrun |]. split; [congruence | exact Hd2].
Qed.

(** The six row transfers of [fill] cover the 144 intensity registers. *)
Lemma performs_fill_rows (f c : Z) s :
  dev_bank (dev s) = f ->
  performs (for_ (range 6)
              (fun row => writeto_mem (_COLOR_OFFSET + row * 24) (repeat c 24)))
           s tt
           (Device f (regs_set f _COLOR_OFFSET (repeat c 144) (dev_regs (dev s)))).
Proof.
  intros Hbank.
  change (range 6) with [0; 1; 2; 3; 4; 5].
  change (repeat c 144)
    with (repeat c 24 ++ repeat c 24 ++ repeat c 24 ++
          repeat c 24 ++ repeat c 24 ++ repeat c 24).
  rewrite !regs_set_app. rewrite !repeat_length.
  cbn [for_].
  repeat (eapply performs_bind;
          [apply performs_writeto_mem
          | intros ? _ ->;
            rewrite dev_write_regs by (rewrite repeat_length; vm_compute; discriminate);
            cbn [dev_bank dev_regs]]).
  eexists. split; [reflexivity |]. split; [reflexivity |].
  rewrite dev_write_regs by (rewrite repeat_length; vm_compute; discriminate).
  rewrite Hbank. reflexivity.
Qed.

(** ** fill, write_frame and pixel on the register file *)

Lemma performs_fill (color : option Z) (blink : option bool) (frame : option Z) s :
  let f := default (_frame s) frame in
  0 <= f <= 255 ->
  (forall c, color = Some c -> 0 <= c <= 255) ->
  performs (fill color blink frame) s tt
           (Device f (fill_regs f color blink (dev_regs (dev s)))).
Proof.
  intros f Hf Hc. unfold fill.
  eapply (performs_bind _ _ s f (dev s)).
  { exists s. split; [| auto]. subst f. destruct frame; reflexivity. }
  intros s1 Hf1 Hd1.
  eapply performs_bind; [apply performs_bank; exact Hf |].
  intros s2 Hf2 Hd2. rewrite Hd1 in Hd2.
  eapply (performs_bind _ _ s2 tt
            (Device f (fill_regs f color None (dev_regs (dev s))))).
  { destruct color as [c |]; cbn [fill_regs].
    - rewrite (in_range_true 0 c 255 (Hc c eq_refl)). cbn [negb].
      eapply performs_bind.
      + exists s2. rewrite bytearray_repeat_ok by (apply Hc; reflexivity). auto.
      + intros s3 Hf3 Hd3.
        pose proof (performs_fill_rows f c s3) as Hrows.
        rewrite Hd3, Hd2 in Hrows. apply Hrows. reflexivity.
    - exists s2. split; [reflexivity |]. split; [reflexivity | exact Hd2]. }
  intros s3 Hf3 Hd3.
  destruct blink as [b |].
  - pose proof (performs_register_loop f _BLINK_OFFSET (Z.b2z b * 0xff) 18 Hf
                  ltac:(destruct b; simpl; lia) 0%nat s3
                  ltac:(vm_compute; discriminate)
                  ltac:(rewrite Hd3; reflexivity)) as Hloop.
    rewrite Hd3 in Hloop. cbn [dev_regs] in Hloop.
    replace (_BLINK_OFFSET + Z.of_nat 0) with _BLINK_OFFSET in Hloop by reflexivity.
    destruct color; exact Hloop.
  - exists s3. split; [reflexivity |]. split; [reflexivity |].
    rewrite Hd3. destruct color; reflexivity.
Qed.

(** [fill] overwrites whole planes of one frame and nothing else: after
    [fill(color, blink, frame)] every one of the 144 intensity registers of
    the frame holds [color] (when given), every one of the 18 blink registers
    holds 0xff or 0 (when [blink] is given), and the enable registers of the
    frame and all registers of the other banks are as before. *)
Theorem fill_planes (color : option Z) (blink : option bool) (frame : option Z)
        (st : state) :
  let f := default (_frame st) frame in
  0 <= f <= 255 ->
  (forall c, color = Some c -> 0 <= c <= 255) ->
  exists st',
    fill color blink frame st = (Ok tt, st') /\
    _frame st' = _frame st /\
    (forall c i, color = Some c -> 0 <= i < 144 ->
       dev_regs (dev st') !! (f, _COLOR_OFFSET + i) = Some c) /\
    (forall b col, blink = Some b -> 0 <= col < 18 ->
       dev_regs (dev st') !! (f, _BLINK_OFFSET + col) = Some (Z.b2z b * 0xff)) /\
    (forall b r, b <> f \/ r < _BLINK_OFFSET \/ _COLOR_OFFSET + 144 <= r ->
       dev_regs (dev st') !! (b, r) = dev_regs (dev st) !! (b, r)).
Proof.
  intros f Hf Hc.
  destruct (performs_fill color blink frame st Hf Hc) as (st' & Hrun & Hfr & Hd).
  exists st'. split; [exact Hrun |]. split; [exact Hfr |].
  rewrite Hd. cbn [dev_regs]. unfold fill_regs, _BLINK_OFFSET, _COLOR_OFFSET.
  split; [| split].
  - intros c i -> Hi. destruct blink as [b |].
    + rewrite regs_set_lookup_out by (rewrite repeat_length; lia).
      apply regs_set_repeat_lookup. lia.
    + apply regs_set_repeat_lookup. lia.
  - intros b col -> Hcol. apply regs_set_repeat_lookup. lia.
  - intros b r Hout.
    destruct blink as [bl |], color as [c |];
      rewrite ?regs_set_lookup_out by (rewrite repeat_length; lia); reflexivity.
Qed.

Lemma fill_planes_witness :
  (0 <= default (_frame st0) (Some 3) <= 255 /\
   (forall c, Some 200 = Some c -> 0 <= c <= 255)) /\
  exists st',
    fill (Some 200) (Some true) (Some 3) st0 = (Ok tt, st') /\
    _frame st' = _frame st0 /\
    (forall c i, Some 200 = Some c -> 0 <= i < 144 ->
       dev_regs (dev st') !! (default (_frame st0) (Some 3), _COLOR_OFFSET + i)
       = Some c) /\
    (forall b col, Some true = Some b -> 0 <= col < 18 ->
       dev_regs (dev st') !! (default (_frame st0) (Some 3), _BLINK_OFFSET + col)
       = Some (Z.b2z b * 0xff)) /\
    (forall b r, b <> default (_frame st0) (Some 3) \/ r < _BLINK_OFFSET
                 \/ _COLOR_OFFSET + 144 <= r ->
       dev_regs (dev st') !! (b, r) = dev_regs (dev st0) !! (b, r)).
Proof.
  assert (Hf : 0 <= default (_frame st0) (Some 3) <= 255) by (simpl; lia).
  assert (Hc : forall c, Some 200 = Some c -> 0 <= c <= 255).
  { intros c E. injection E as <-. lia. }
  split; [split; assumption |].
  exact (fill_planes (Some 200) (Some true) (Some 3) st0 Hf Hc).
Defined.

Lemma bank_run (f : Z) st :
  0 <= f <= 255 ->
  _bank (Some f) st
  = (Ok None, State (_frame st) (Device f (dev_regs (dev st)))
                    (trace st ++ [BusWrite _BANK_ADDRESS [f]])).
Proof.
  intros Hf. unfold _bank.
  rewrite (bind_ok _ _ _ _ _ (bytearray1_ok f st Hf)).
  cbn [bind writeto_mem ret dev_write]. unfold bind, writeto_mem, ret.
  cbn [dev_write]. rewrite Z.eqb_refl. reflexivity.
Qed.

(** [write_frame] with at most 144 bytes: one bank select and one bulk
    write, after which intensity register [i] of the frame holds byte [i] of
    the payload; the registers below the intensity plane, those past the
    payload and the other banks are as before. *)
Theorem write_frame_read_back (data : list Z) (frame : option Z) (st : state) :
  let f := default (_frame st) frame in
  0 <= f <= 255 ->
  Z.of_nat (length data) <= 144 ->
  exists st',
    write_frame data frame st = (Ok tt, st') /\
    trace st' = trace st ++
      [BusWrite _BANK_ADDRESS [f]; BusWrite _COLOR_OFFSET data] /\
    (forall (i : nat) v, data !! i = Some v ->
       dev_regs (dev st') !! (f, _COLOR_OFFSET + Z.of_nat i) = Some v) /\
    (forall b r, b <> f \/ r < _COLOR_OFFSET
                 \/ _COLOR_OFFSET + Z.of_nat (length data) <= r ->
       dev_regs (dev st') !! (b, r) = dev_regs (dev st) !! (b, r)).
Proof.
  intros f Hf Hlen. unfold write_frame.
  destruct (Z.gtb_spec (Z.of_nat (length data)) 144) as [Hgt | _]; [lia |].
  assert (Hframe : (match frame with None => get_frame | Some f0 => ret f0 end) st
                   = (Ok f, st)).
  { subst f. destruct frame; reflexivity. }
  rewrite (bind_ok _ _ _ _ _ Hframe).
  rewrite (bind_ok _ _ _ _ _ (bank_run f st Hf)).
  eexists. split; [reflexivity |].
  cbn [trace dev].
  rewrite dev_write_regs by (cbn [dev_bank]; unfold _COLOR_OFFSET, _BANK_ADDRESS; lia).
  cbn [dev_bank dev_regs].
  split; [rewrite <- app_assoc; reflexivity |].
  split.
  - intros i v Hi. apply regs_set_lookup_in. exact Hi.
  - intros b r Hout. apply regs_set_lookup_out. exact Hout.
Qed.

Lemma write_frame_read_back_witness :
  (0 <= default (_frame st0) (Some 2) <= 255 /\
   Z.of_nat (length [9; 8; 7]) <= 144) /\
  exists st',
    write_frame [9; 8; 7] (Some 2) st0 = (Ok tt, st') /\
    trace st' = trace st0 ++
      [BusWrite _BANK_ADDRESS [default (_frame st0) (Some 2)];
       BusWrite _COLOR_OFFSET [9; 8; 7]] /\
    (forall (i : nat) v, [9; 8; 7] !! i = Some v ->
       dev_regs (dev st') !! (default (_frame st0) (Some 2), _COLOR_OFFSET + Z.of_nat i)
       = Some v) /\
    (forall b r, b <> default (_frame st0) (Some 2) \/ r < _COLOR_OFFSET
                 \/ _COLOR_OFFSET + Z.of_nat (length [9; 8; 7]) <= r ->
       dev_regs (dev st') !! (b, r) = dev_regs (dev st0) !! (b, r)).
Proof.
  assert (Hf : 0 <= default (_frame st0) (Some 2) <= 255) by (simpl; lia).
  assert (Hlen : Z.of_nat (length [9; 8; 7]) <= 144) by (simpl; lia).
  split; [split; assumption |].
  exact (write_frame_read_back [9; 8; 7] (Some 2) st0 Hf Hlen).
Defined.

Lemma write_frame_rejected_no_write_witness :
  144 < Z.of_nat (length (repeat 0 145)) /\
  write_frame (repeat 0 145) None st0
  = (Raise (ValueError "Bytearray too large for frame"), st0).
Proof.
  assert (Hlen : 144 < Z.of_nat (length (repeat 0 145))) by (vm_compute; reflexivity).
  split; [exact Hlen |].
  exact (write_frame_rejected_no_write (repeat 0 145) None st0 Hlen).
Defined.

Lemma _pixel_addr_distinct (x1 y1 x2 y2 : Z) :
  valid_coord x1 y1 -> valid_coord x2 y2 -> (x1, y1) <> (x2, y2) ->
  _pixel_addr x1 y1 <> _pixel_addr x2 y2.
Proof.
  intros H1 H2 Hne Heq. apply Hne.
  pose proof (_pixel_addr_divmod x1 y1 H1) as D1.
  pose proof (_pixel_addr_divmod x2 y2 H2) as D2.
  rewrite Heq in D1.
  destruct H1 as [Hx1 Hy1], H2 as [Hx2 Hy2].
  assert (x1 = x2 /\ y1 = y2) as [-> ->]; [| reflexivity].
  destruct D1 as [(? & ? & ?) | (? & ? & ?)], D2 as [(? & ? & ?) | (? & ? & ?)]; lia.
Qed.

(** [pixel] at a coordinate of the matrix sets exactly one register: the
    intensity register of that pixel reads back the colour, the registers of
    all other pixels of the matrix, and every other register, keep their
    value.  The [blink] argument makes no difference. *)
Theorem pixel_sets_one_cell (x y c : Z) (blink : option bool) (frame : option Z)
        (st : state) :
  let f := default (_frame st) frame in
  valid_coord x y -> 0 <= c <= 255 -> 0 <= f <= 255 ->
  exists st',
    pixel x y (Some c) blink frame st = (Ok tt, st') /\
    _frame st' = _frame st /\
    dev_regs (dev st') !! (f, _COLOR_OFFSET + _pixel_addr x y) = Some c /\
    (forall x' y', valid_coord x' y' -> (x', y') <> (x, y) ->
       dev_regs (dev st') !! (f, _COLOR_OFFSET + _pixel_addr x' y')
       = dev_regs (dev st) !! (f, _COLOR_OFFSET + _pixel_addr x' y')) /\
    (forall b r, (b, r) <> (f, _COLOR_OFFSET + _pixel_addr x y) ->
       dev_regs (dev st') !! (b, r) = dev_regs (dev st) !! (b, r)).
Proof.
  intros f Hv Hc Hf.
  assert (Hx : 0 <= x <= width) by (destruct Hv; unfold width; lia).
  assert (Hy : 0 <= y <= height) by (destruct Hv; unfold height; lia).
  assert (Haddr : 0 <= _pixel_addr x y < 144).
  { destruct Hv as [Hx' Hy'].
    destruct (Z_le_gt_dec x 8) as [Hle | Hgt].
    - rewrite _pixel_addr_right by exact Hle. lia.
    - rewrite _pixel_addr_left by lia. lia. }
  unfold pixel.
  rewrite (in_range_true 0 x width Hx), (in_range_true 0 y height Hy).
  cbn [negb].
  assert (Hframe : (match frame with None => get_frame | Some f0 => ret f0 end) st
                   = (Ok f, st)).
  { subst f. destruct frame; reflexivity. }
  rewrite (bind_ok _ _ _ _ _ Hframe).
  rewrite (in_range_true 0 c 255 Hc). cbn [negb].
  rewrite (bind_ok _ _ _ _ _
             (register_write_run f (_COLOR_OFFSET + _pixel_addr x y) c st Hf Hc
                ltac:(unfold _COLOR_OFFSET, _BANK_ADDRESS; lia))).
  eexists. split; [reflexivity |]. cbn [_frame dev dev_regs].
  split; [reflexivity |]. split; [apply lookup_insert_eq |]. split.
  - intros x' y' Hv' Hne. apply lookup_insert_ne.
    intros E. injection E as E.
    apply (_pixel_addr_distinct x y x' y' Hv Hv'); [congruence | lia].
  - intros b r Hne. apply lookup_insert_ne. congruence.
Qed.

Lemma pixel_sets_one_cell_witness :
  (valid_coord 16 6 /\ 0 <= 255 <= 255 /\ 0 <= default (_frame st0) None <= 255) /\
  exists st',
    pixel 16 6 (Some 255) (Some true) None st0 = (Ok tt, st') /\
    _frame st' = _frame st0 /\
    dev_regs (dev st') !! (default (_frame st0) None, _COLOR_OFFSET + _pixel_addr 16 6)
      = Some 255 /\
    (forall x' y', valid_coord x' y' -> (x', y') <> (16, 6) ->
       dev_regs (dev st') !! (default (_frame st0) None, _COLOR_OFFSET + _pixel_addr x' y')
       = dev_regs (dev st0) !! (default (_frame st0) None, _COLOR_OFFSET + _pixel_addr x' y')) /\
    (forall b r, (b, r) <> (default (_frame st0) None, _COLOR_OFFSET + _pixel_addr 16 6) ->
       dev_regs (dev st') !! (b, r) = dev_regs (dev st0) !! (b, r)).
Proof.
  assert (Hv : valid_coord 16 6) by (unfold valid_coord; lia).
  assert (Hc : 0 <= 255 <= 255) by lia.
  assert (Hf : 0 <= default (_frame st0) None <= 255) by (simpl; lia).
  split; [tauto |].
  exact (pixel_sets_one_cell 16 6 255 (Some true) None st0 Hv Hc Hf).
Defined.

(** ** frame, reset, init and the constructor *)

(** [frame(f)] with 0 <= f <= 8 stores the index, and the query [frame()]
    returns it without bus traffic; with [show=False] nothing is sent to the
    device, otherwise the frame register receives [f]. *)
Theorem frame_set_then_get (f : Z) (show : bool) (st : state) :
  0 <= f <= 8 ->
  exists st1,
    frame (Some f) show st = (Ok None, st1) /\
    frame None show st1 = (Ok (Some f), st1) /\
    trace st1 = trace st ++
      (if show
       then [BusWrite _BANK_ADDRESS [_CONFIG_BANK]; BusWrite _FRAME_REGISTER [f]]
       else []) /\
    (if show
     then dev_regs (dev st1) !! (_CONFIG_BANK, _FRAME_REGISTER) = Some f
     else dev st1 = dev st).
Proof.
  intros Hf. unfold frame at 1.
  rewrite (in_range_true 0 f 8 Hf). cbn [negb].
  rewrite (bind_ok _ _ _ _ _
             (eq_refl : set_frame f st = (Ok tt, State f (dev st) (trace st)))).
  destruct show.
  - rewrite (bind_ok _ _ _ _ _
               (register_write_run _CONFIG_BANK _FRAME_REGISTER f _
                  ltac:(unfold _CONFIG_BANK; lia) ltac:(lia) ltac:(discriminate))).
    eexists. split; [reflexivity |].
    split; [reflexivity |]. split; [reflexivity |].
    cbn [dev dev_regs]. apply lookup_insert_eq.
  - eexists. split; [reflexivity |].
    split; [reflexivity |]. split; [cbn [trace]; rewrite app_nil_r; reflexivity |].
    reflexivity.
Qed.

Lemma frame_set_then_get_witness :
  0 <= 7 <= 8 /\
  exists st1,
    frame (Some 7) true st0 = (Ok None, st1) /\
    frame None true st1 = (Ok (Some 7), st1) /\
    trace st1 = trace st0 ++
      [BusWrite _BANK_ADDRESS [_CONFIG_BANK]; BusWrite _FRAME_REGISTER [7]] /\
    dev_regs (dev st1) !! (_CONFIG_BANK, _FRAME_REGISTER) = Some 7.
Proof.
  assert (Hf : 0 <= 7 <= 8) by lia.
  split; [exact Hf | exact (frame_set_then_get 7 true st0 Hf)].
Defined.

Lemma frame_rejected_witness :
  (-1 < 0 \/ 8 < -1) /\
  frame (Some (-1)) true st0 = (Raise (ValueError "Frame out of range"), st0).
Proof.
  assert (Hf : -1 < 0 \/ 8 < -1) by (left; lia).
  split; [exact Hf | exact (frame_rejected (-1) true st0 Hf)].
Defined.

Lemma sleep_run (value : bool) st :
  sleep value st
  = (Ok None,
     State (_frame st)
           (Device _CONFIG_BANK
              (<[(_CONFIG_BANK, _SHUTDOWN_REGISTER) := Z.b2z (negb value)]>
                 (dev_regs (dev st))))
           (trace st ++ [BusWrite _BANK_ADDRESS [_CONFIG_BANK];
                         BusWrite _SHUTDOWN_REGISTER [Z.b2z (negb value)]])).
Proof.
  unfold sleep. apply register_write_run.
  - unfold _CONFIG_BANK. lia.
  - destruct value; simpl; lia.
  - discriminate.
Qed.

(** [reset] puts the device to sleep, waits 10 microseconds and wakes it
    again: the shutdown register ends at 1 whatever it held, and no other
    register changes. *)
Lemma reset_run_awake (st : state) :
  exists st',
    reset st = (Ok tt, st') /\
    _frame st' = _frame st /\
    trace st' = trace st ++
      [BusWrite _BANK_ADDRESS [_CONFIG_BANK]; BusWrite _SHUTDOWN_REGISTER [0];
       Sleep 10;
       BusWrite _BANK_ADDRESS [_CONFIG_BANK]; BusWrite _SHUTDOWN_REGISTER [1]] /\
    dev_regs (dev st') !! (_CONFIG_BANK, _SHUTDOWN_REGISTER) = Some 1 /\
    (forall b r, (b, r) <> (_CONFIG_BANK, _SHUTDOWN_REGISTER) ->
       dev_regs (dev st') !! (b, r) = dev_regs (dev st) !! (b, r)).
Proof.
  unfold reset.
  rewrite (bind_ok _ _ _ _ _ (sleep_run true st)).
  unfold sleep_us, log. unfold bind at 1. cbn [_frame dev trace].
  rewrite (bind_ok _ _ _ _ _ (sleep_run false _)).
  eexists. split; [reflexivity |]. cbn [_frame dev dev_regs trace].
  split; [reflexivity |].
  split; [rewrite <- !app_assoc; reflexivity |].
  split; [apply lookup_insert_eq |].
  intros b r Hne. rewrite !lookup_insert_ne by congruence. reflexivity.
Qed.

Lemma init_frame_regs_lookup_other (m : gmap (Z * Z) Z) (f b r : Z) :
  b <> f -> init_frame_regs m f !! (b, r) = m !! (b, r).
Proof.
  intros Hb. unfold init_frame_regs, fill_regs.
  rewrite !regs_set_lookup_out by (left; exact Hb). reflexivity.
Qed.

Lemma init_frame_regs_lookup (m : gmap (Z * Z) Z) (f r : Z) :
  0 <= r < _COLOR_OFFSET + 144 ->
  init_frame_regs m f !! (f, r) = Some (if r <? _BLINK_OFFSET then 0xff else 0).
Proof.
  unfold init_frame_regs, fill_regs, _COLOR_OFFSET, _BLINK_OFFSET, _ENABLE_OFFSET.
  intros Hr. destruct (Z.ltb_spec r 0x12) as [Hlt | Hge].
  - apply regs_set_repeat_lookup. lia.
  - rewrite regs_set_lookup_out by (rewrite repeat_length; lia).
    destruct (Z_lt_le_dec r 0x24) as [Hb | Hc].
    + apply regs_set_repeat_lookup. lia.
    + rewrite regs_set_lookup_out by (rewrite repeat_length; lia).
      apply regs_set_repeat_lookup. lia.
Qed.

Lemma fold_init_frames_lookup_out (fs : list Z) (m : gmap (Z * Z) Z) (b r : Z) :
  ~ In b fs -> fold_left init_frame_regs fs m !! (b, r) = m !! (b, r).
Proof.
  revert m. induction fs as [| f fs IH]; intros m Hb; simpl.
  - reflexivity.
  - rewrite IH by (intros H; apply Hb; right; exact H).
    apply init_frame_regs_lookup_other. intros ->. apply Hb. left. reflexivity.
Qed.

Lemma fold_init_frames_lookup_in (fs : list Z) (m : gmap (Z * Z) Z) (f r : Z) :
  In f fs -> 0 <= r < _COLOR_OFFSET + 144 ->
  fold_left init_frame_regs fs m !! (f, r)
  = Some (if r <? _BLINK_OFFSET then 0xff else 0).
Proof.
  revert m. induction fs as [| g fs IH]; intros m Hin Hr; simpl.
  - destruct Hin.
  - destruct (in_dec Z.eq_dec f fs) as [Hlater | Hnot].
    + apply IH; assumption.
    + destruct Hin as [-> | Hin]; [| contradiction].
      rewrite fold_init_frames_lookup_out by exact Hnot.
      apply init_frame_regs_lookup. exact Hr.
Qed.

Lemma frame_show_run (f : Z) st :
  0 <= f <= 8 ->
  frame (Some f) true st
  = (Ok None,
     State f
           (Device _CONFIG_BANK
              (<[(_CONFIG_BANK, _FRAME_REGISTER) := f]> (dev_regs (dev st))))
           (trace st ++ [BusWrite _BANK_ADDRESS [_CONFIG_BANK];
                         BusWrite _FRAME_REGISTER [f]])).
Proof.
  intros Hf. unfold frame.
  rewrite (in_range_true 0 f 8 Hf). cbn [negb].
  rewrite (bind_ok _ _ _ _ _
             (eq_refl : set_frame f st = (Ok tt, State f (dev st) (trace st)))).
  rewrite (bind_ok _ _ _ _ _
             (register_write_run _CONFIG_BANK _FRAME_REGISTER f _
                ltac:(unfold _CONFIG_BANK; lia) ltac:(lia) ltac:(discriminate))).
  reflexivity.
Qed.

(** The loop of [init] over the frames. *)
Lemma performs_init_frames (fs : list Z) :
  (forall f, In f fs -> 0 <= f <= 255) ->
  forall s, exists d,
    performs (for_ fs (fun frame =>
                fill (Some 0) (Some false) (Some frame) ;;
                for_ (range 18) (fun col =>
                  _register frame (_ENABLE_OFFSET + col) (Some 0xff) ;; ret tt)))
             s tt d /\
    dev_regs d = fold_left init_frame_regs fs (dev_regs (dev s)).
Proof.
  induction fs as [| f fs IH]; intros Hfs s.
  - exists (dev s). split; [apply performs_ret | reflexivity].
  - assert (Hf : 0 <= f <= 255) by (apply Hfs; left; reflexivity).
    assert (Hstep : performs
              (fill (Some 0) (Some false) (Some f) ;;
               for_ (range 18) (fun col =>
                 _register f (_ENABLE_OFFSET + col) (Some 0xff) ;; ret tt))
              s tt (Device f (init_frame_regs (dev_regs (dev s)) f))).
    { eapply performs_bind.
      - apply (performs_fill (Some 0) (Some false) (Some f) s Hf).
        intros c E. injection E as <-. lia.
      - intros s1 Hf1 Hd1.
        pose proof (performs_register_loop f _ENABLE_OFFSET 0xff 18 Hf
                      ltac:(lia) 0%nat s1 ltac:(vm_compute; discriminate)
                      ltac:(rewrite Hd1; reflexivity)) as Hloop.
        rewrite Hd1 in Hloop. exact Hloop. }
    destruct Hstep as (s1 & Hrun1 & Hf1 & Hd1).
    destruct (IH (fun g Hg => Hfs g (or_intror Hg)) s1) as (d & (s2 & Hrun2 & Hf2 & Hd2) & Hregs).
    exists d. split.
    + exists s2. cbn [for_]. rewrite (bind_ok _ _ _ _ _ Hrun1).
      split; [exact Hrun2 |]. split; [congruence | exact Hd2].
    + rewrite Hregs, Hd1. reflexivity.
Qed.

(** [init] returns normally from every state and establishes the initial
    condition; registers of the configuration bank other than the mode, frame
    and audio-sync registers keep their value. *)
Lemma init_run_initialised (st : state) :
  exists st',
    init st = (Ok tt, st') /\
    initialised st' /\
    (forall r, r <> _MODE_REGISTER -> r <> _FRAME_REGISTER ->
               r <> _AUDIOSYNC_REGISTER ->
       dev_regs (dev st') !! (_CONFIG_BANK, r)
       = dev_regs (dev st) !! (_CONFIG_BANK, r)).
Proof.
  assert (Hcfg : 0 <= _CONFIG_BANK <= 255) by (unfold _CONFIG_BANK; lia).
  unfold init, _mode.
  rewrite (bind_ok _ _ _ _ _
             (register_write_run _CONFIG_BANK _MODE_REGISTER _PICTURE_MODE st
                Hcfg ltac:(unfold _PICTURE_MODE; lia) ltac:(discriminate))).
  rewrite (bind_ok _ _ _ _ _ (frame_show_run 0 _ ltac:(lia))).
  cbn [_frame dev trace dev_regs].
  match goal with
  | |- exists st', bind _ _ ?s = _ /\ _ =>
      destruct (performs_init_frames (range 8)
                  ltac:(intros f Hf; apply (elem_of_range 8) in Hf; lia) s)
        as (d & (s1 & Hrun & Hf1 & Hd1) & Hregs);
      rewrite (bind_ok _ _ _ _ _ Hrun)
  end.
  cbn [_frame dev dev_regs] in Hf1, Hregs.
  unfold audio_sync. cbn [option_map Z.b2z].
  rewrite (bind_ok _ _ _ _ _
             (register_write_run _CONFIG_BANK _AUDIOSYNC_REGISTER 0 s1
                Hcfg ltac:(lia) ltac:(discriminate))).
  eexists. split; [reflexivity |].
  assert (Hnot : ~ In _CONFIG_BANK (range 8)).
  { intros H. apply (elem_of_range 8) in H. unfold _CONFIG_BANK in H. lia. }
  unfold initialised. cbn [_frame dev dev_regs]. rewrite Hd1, Hregs.
  split; [split; [exact Hf1 | split; [| split; [| split]]] |].
  - rewrite lookup_insert_ne by discriminate.
    rewrite fold_init_frames_lookup_out by exact Hnot.
    rewrite lookup_insert_ne by discriminate. apply lookup_insert_eq.
  - rewrite lookup_insert_ne by discriminate.
    rewrite fold_init_frames_lookup_out by exact Hnot.
    apply lookup_insert_eq.
  - apply lookup_insert_eq.
  - intros f r Hf Hr.
    rewrite lookup_insert_ne by (unfold _CONFIG_BANK; intros E; injection E as E; lia).
    apply fold_init_frames_lookup_in; [| exact Hr].
    change (range 8) with [0; 1; 2; 3; 4; 5; 6; 7]. simpl. lia.
  - intros r Hm Hfr Ha.
    rewrite lookup_insert_ne by congruence.
    rewrite fold_init_frames_lookup_out by exact Hnot.
    rewrite !lookup_insert_ne by congruence. reflexivity.
Qed.

(** [init] returns normally from every state and establishes the initial
    condition of the driver and of the eight frames; the registers of the
    configuration bank other than mode, frame and audio sync keep their
    value. *)
Theorem init_establishes (st : state) :
  exists st',
    init st = (Ok tt, st') /\
    initialised st' /\
    (forall r, r <> _MODE_REGISTER -> r <> _FRAME_REGISTER ->
               r <> _AUDIOSYNC_REGISTER ->
       dev_regs (dev st') !! (_CONFIG_BANK, r)
       = dev_regs (dev st) !! (_CONFIG_BANK, r)).
Proof. exact (init_run_initialised st). Qed.

Lemma show_known_ok (strlist : string) s :
  frame_ok s -> known strlist = true ->
  exists s', show strlist s = (Ok tt, s') /\ _frame s' = _frame s.
Proof.
  intros Hs Hk.
  destruct (Z_lt_le_dec (Z.of_nat (String.length strlist)) 4) as [Hlt | Hge].
  - pose proof (steps_bind (fill (Some 0) None None) (fun _ => show_static strlist)
                  0 0 steps_fill_0 (fun _ => steps_show_static strlist Hk)) as Hsteps.
    destruct (Hsteps s Hs) as ([] & t & (s' & Hrun & Hf & _) & _).
    exists s'. rewrite show_short by exact Hlt. auto.
  - pose proof (steps_bind (fill (Some 0) None None) (fun _ => show_scroll strlist)
                  0 _ steps_fill_0 (fun _ => steps_show_scroll strlist Hk)) as Hsteps.
    destruct (Hsteps s Hs) as ([] & t & (s' & Hrun & Hf & _) & _).
    exists s'. rewrite show_long by exact Hge. auto.
Qed.

(** The constructor returns normally from every state of the device, leaves
    the driver initialised with the device awake (shutdown register 1), and
    the driver it leaves can [show] every string over the glyph table
    without an error. *)
Theorem constructor_establishes (st : state) :
  exists st',
    Matrix__init__ st = (Ok tt, st') /\
    initialised st' /\
    dev_regs (dev st') !! (_CONFIG_BANK, _SHUTDOWN_REGISTER) = Some 1 /\
    forall strlist, known strlist = true ->
      exists st'', show strlist st' = (Ok tt, st'') /\ _frame st'' = 0.
Proof.
  destruct (reset_run_awake st) as (s1 & Hreset & _ & _ & Hawake & _).
  destruct (init_run_initialised s1) as (s2 & Hinit & Hini & Hkeep).
  exists s2. unfold Matrix__init__. rewrite (bind_ok _ _ _ _ _ Hreset).
  split; [exact Hinit |]. split; [exact Hini |]. split.
  - rewrite Hkeep by discriminate. exact Hawake.
  - intros strlist Hk. destruct Hini as (Hf0 & _).
    destruct (show_known_ok strlist s2) as (s3 & Hshow & Hf3).
    + unfold frame_ok. rewrite Hf0. lia.
    + exact Hk.
    + exists s3. split; [exact Hshow | congruence].
Qed.

(** ** The glyph table and the static rendering *)

Lemma glyph_cells_bounds (key : string) (cells : list (Z * Z)) (dx dy : Z) :
  wordStock !! key = Some cells -> In (dx, dy) cells ->
  0 <= dx < 5 /\ 0 <= dy < 7.
Proof.
  intros Hkey Hin.
  assert (Hall : map_Forall (fun _ cells => glyph_ok cells = true) wordStock).
  { apply (bool_decide_unpack _). vm_compute. exact I. }
  pose proof (map_Forall_lookup_1 _ _ _ _ Hall Hkey) as Hok.
  unfold glyph_ok in Hok. rewrite forallb_forall in Hok.
  specialize (Hok (dx, dy) Hin). cbn [fst snd] in Hok.
  unfold in_range in Hok.
  apply andb_true_iff in Hok as [Hx Hy].
  apply andb_true_iff in Hx as [Hx0 Hx1], Hy as [Hy0 Hy1]. lia.
Qed.

(** Every glyph of the table lies within columns 0..4 and rows 0..6. *)
Theorem wordStock_glyphs_fit (key : string) (cells : list (Z * Z)) (dx dy : Z) :
  wordStock !! key = Some cells -> In (dx, dy) cells ->
  0 <= dx < 5 /\ 0 <= dy < 7.
Proof. exact (glyph_cells_bounds key cells dx dy). Qed.

Lemma wordStock_glyphs_fit_witness :
  (wordStock !! "A" = Some (default [] (wordStock !! "A")) /\
   In (4, 6) (default [] (wordStock !! "A"))) /\
  (0 <= 4 < 5 /\ 0 <= 6 < 7).
Proof.
  assert (Hkey : wordStock !! "A" = Some (default [] (wordStock !! "A")))
    by reflexivity.
  assert (Hin : In (4, 6) (default [] (wordStock !! "A"))).
  { vm_compute. repeat (try (left; reflexivity); right). }
  split; [split; assumption |].
  exact (wordStock_glyphs_fit "A" _ 4 6 Hkey Hin).
Defined.

Lemma bind_ext {A B} (m1 m2 : M A) (k1 k2 : A -> M B) s :
  (forall s, m1 s = m2 s) -> (forall a s, k1 a s = k2 a s) ->
  bind m1 k1 s = bind m2 k2 s.
Proof.
  intros Hm Hk. unfold bind. rewrite Hm.
  destruct (m2 s) as [[a | e] s1]; [apply Hk | reflexivity].
Qed.

Lemma for_ext {A} (xs : list A) (f g : A -> M unit) s :
  (forall x s, In x xs -> f x s = g x s) -> for_ xs f s = for_ xs g s.
Proof.
  revert s. induction xs as [| x xs IH]; intros s H; simpl.
  - reflexivity.
  - apply bind_ext.
    + intros s1. apply H. left. reflexivity.
    + intros _ s1. apply IH. intros y s2 Hy. apply H. right. exact Hy.
Qed.

Lemma for_map {A B} (h : A -> B) (xs : list A) (f : B -> M unit) s :
  for_ (map h xs) f s = for_ xs (fun x => f (h x)) s.
Proof.
  revert s. induction xs as [| x xs IH]; intros s; simpl.
  - reflexivity.
  - apply bind_ext; [reflexivity | intros _ s1; apply IH].
Qed.

(** A loop over the indices of a list that only uses the element at each
    index is a loop over the elements. *)
Lemma for_range_lookup {A} (l : list A) (g : Z -> M unit) (f : A -> M unit) :
  (forall (a : nat) x s, l !! a = Some x -> g (Z.of_nat a) s = f x s) ->
  forall s, for_ (range (Z.of_nat (length l))) g s = for_ l f s.
Proof.
  induction l as [| x l IH] using rev_ind; intros H s.
  - reflexivity.
  - rewrite length_app. cbn [length].
    replace (length l + 1)%nat with (S (length l)) by lia.
    rewrite range_S, !for_app.
    apply bind_ext.
    + intros s1. apply IH. intros a y s2 Hy. apply H.
      rewrite lookup_app_l; [exact Hy |].
      apply lookup_lt_Some in Hy. exact Hy.
    + intros _ s1. cbn [for_]. apply bind_ext; [| reflexivity].
      intros s2. apply H.
      rewrite lookup_app_r by lia. rewrite Nat.sub_diag. reflexivity.
Qed.

Lemma glyph_cell_lookup (strlist : string) (i a : nat) (c : ascii) cells cell st :
  String.get i strlist = Some c ->
  wordStock !! String c EmptyString = Some cells ->
  cells !! a = Some cell ->
  glyph_cell strlist (Z.of_nat i) (Z.of_nat a) st = (Ok cell, st).
Proof.
  intros Hg Hc Ha. unfold glyph_cell.
  rewrite (bind_ok _ _ _ _ _ (str_getitem_ok strlist i c st Hg)).
  unfold dict_getitem at 1. rewrite Hc. rewrite bind_ret_l.
  unfold list_getitem.
  assert (E : (Z.of_nat a <? 0) = false) by (apply Z.ltb_ge; lia).
  rewrite E. cbv beta zeta iota. rewrite E, Nat2Z.id, Ha. reflexivity.
Qed.

(** The static path of [show] is a sequence of [pixel] calls, one per lit
    cell, in the order of [lit_cells]. *)
Lemma show_static_suffix (strlist : string) (rest : string) (i : nat) s :
  known rest = true ->
  (forall j c, String.get j rest = Some c -> String.get (i + j) strlist = Some c) ->
  for_ (map Z.of_nat (seq i (String.length rest)))
       (fun strcount =>
          let* n := glyph_len strlist strcount in
          for_ (range n) (fun a =>
            let* cell := glyph_cell strlist strcount a in
            pixel (fst cell + strcount * 6) (snd cell) (Some 10) None None)) s
  = for_ (lit_cells_from (Z.of_nat i) rest) paint_10 s.
Proof.
  revert i s. induction rest as [| c rest IH]; intros i s Hk Hget.
  - reflexivity.
  - cbn [known] in Hk.
    destruct (wordStock !! String c EmptyString) as [cells |] eqn:Hc; [| discriminate].
    assert (Hgi : String.get i strlist = Some c).
    { rewrite <- (Nat.add_0_r i). apply Hget. reflexivity. }
    cbn [String.length seq map for_ lit_cells_from].
    rewrite Hc. cbn [default]. unfold id. rewrite for_app.
    apply bind_ext.
    + intros s1.
      rewrite (bind_ok _ _ _ _ _ (glyph_len_ok strlist i c cells s1 Hgi Hc)).
      rewrite for_map.
      apply for_range_lookup.
      intros a cell s2 Ha.
      rewrite (bind_ok _ _ _ _ _
                 (glyph_cell_lookup strlist i a c cells cell s2 Hgi Hc Ha)).
      reflexivity.
    + intros _ s1.
      replace (Z.of_nat i + 1) with (Z.of_nat (S i)) by lia.
      apply IH; [exact Hk |].
      intros j c' Hj. replace (S i + j)%nat with (i + S j)%nat by lia.
      apply Hget. exact Hj.
Qed.

Lemma show_static_lit (strlist : string) s :
  known strlist = true ->
  show_static strlist s = for_ (lit_cells strlist) paint_10 s.
Proof.
  intros Hk. unfold show_static, lit_cells.
  rewrite range_nat.
  apply (show_static_suffix strlist strlist 0 s Hk).
  intros j c Hj. exact Hj.
Qed.

Lemma _pixel_addr_range (x y : Z) : valid_coord x y -> 0 <= _pixel_addr x y < 144.
Proof.
  intros [Hx Hy]. destruct (Z_le_gt_dec x 8) as [Hle | Hgt].
  - rewrite _pixel_addr_right by exact Hle. lia.
  - rewrite _pixel_addr_left by lia. lia.
Qed.

Lemma lit_cells_from_bounds (rest : string) (i x y : Z) :
  0 <= i -> In (x, y) (lit_cells_from i rest) ->
  i * 6 <= x < (i + Z.of_nat (String.length rest)) * 6 - 1 /\ 0 <= y < 7.
Proof.
  revert i. induction rest as [| c rest IH]; intros i Hi Hin.
  - destruct Hin.
  - cbn [lit_cells_from String.length] in *.
    apply in_app_or in Hin as [Hin | Hin].
    + apply in_map_iff in Hin as ([dx dy] & E & Hcell).
      cbn [fst snd] in E. injection E as <- <-.
      destruct (wordStock !! String c EmptyString) as [cells |] eqn:Hc;
        [| destruct Hcell].
      cbn [default] in Hcell. unfold id in Hcell.
      pose proof (glyph_cells_bounds _ cells dx dy Hc Hcell). lia.
    + apply IH in Hin; lia.
Qed.

Lemma lit_cells_valid (strlist : string) (x y : Z) :
  Z.of_nat (String.length strlist) < 4 ->
  In (x, y) (lit_cells strlist) -> valid_coord x y.
Proof.
  intros Hlen Hin. apply lit_cells_from_bounds in Hin; [| lia].
  unfold valid_coord. lia.
Qed.

Lemma performs_pixel (x y c : Z) s :
  valid_coord x y -> 0 <= c <= 255 -> frame_ok s ->
  performs (pixel x y (Some c) None None) s tt
           (Device (_frame s)
              (<[(_frame s, _COLOR_OFFSET + _pixel_addr x y) := c]> (dev_regs (dev s)))).
Proof.
  intros Hv Hc Hs.
  pose proof (_pixel_addr_range x y Hv) as Haddr.
  destruct Hv as [Hx Hy]. unfold pixel.
  rewrite (in_range_true 0 x width ltac:(unfold width; lia)),
          (in_range_true 0 y height ltac:(unfold height; lia)).
  cbn [negb]. cbv beta iota. unfold performs.
  rewrite (bind_ok _ _ _ _ _ (eq_refl : get_frame s = (Ok (_frame s), s))).
  rewrite (in_range_true 0 c 255 Hc). cbn [negb].
  rewrite (bind_ok _ _ _ _ _
             (register_write_run (_frame s) (_COLOR_OFFSET + _pixel_addr x y) c s Hs Hc
                ltac:(unfold _COLOR_OFFSET, _BANK_ADDRESS; lia))).
  eexists. split; [reflexivity |]. auto.
Qed.

Lemma performs_paint_cells (cells : list (Z * Z)) :
  (forall x y, In (x, y) cells -> valid_coord x y) ->
  forall s, frame_ok s ->
  exists d,
    performs (for_ cells paint_10) s tt d /\
    dev_regs d = paint_regs (_frame s) 10 cells (dev_regs (dev s)).
Proof.
  induction cells as [| [x y] cells IH]; intros Hvalid s Hs.
  - exists (dev s). split; [apply performs_ret | reflexivity].
  - destruct (performs_pixel x y 10 s (Hvalid x y (or_introl eq_refl)) ltac:(lia) Hs)
      as (s1 & Hrun1 & Hf1 & Hd1).
    assert (Hs1 : frame_ok s1) by (unfold frame_ok in *; rewrite Hf1; exact Hs).
    destruct (IH (fun x' y' H => Hvalid x' y' (or_intror H)) s1 Hs1)
      as (d & (s2 & Hrun2 & Hf2 & Hd2) & Hregs).
    exists d. split.
    + exists s2. cbn [for_]. unfold paint_10 at 1. cbn [fst snd].
      rewrite (bind_ok _ _ _ _ _ Hrun1).
      split; [exact Hrun2 |]. split; [congruence | exact Hd2].
    + rewrite Hregs, Hd1, Hf1. reflexivity.
Qed.

Lemma paint_regs_lookup_out (f color : Z) (cells : list (Z * Z))
      (m : gmap (Z * Z) Z) (x y : Z) :
  valid_coord x y ->
  (forall x' y', In (x', y') cells -> valid_coord x' y') ->
  ~ In (x, y) cells ->
  paint_regs f color cells m !! (f, _COLOR_OFFSET + _pixel_addr x y)
  = m !! (f, _COLOR_OFFSET + _pixel_addr x y).
Proof.
  intros Hv. revert m. induction cells as [| [x' y'] cells IH]; intros m Hvalid Hnot.
  - reflexivity.
  - unfold paint_regs in *. cbn [fold_left fst snd].
    rewrite IH.
    + apply lookup_insert_ne. intros E. injection E as E.
      apply (_pixel_addr_distinct x' y' x y); [| exact Hv | | lia].
      * apply Hvalid. left. reflexivity.
      * intros E'. apply Hnot. left. exact E'.
    + intros x'' y'' H. apply Hvalid. right. exact H.
    + intros H. apply Hnot. right. exact H.
Qed.

Lemma paint_regs_lookup_in (f color : Z) (cells : list (Z * Z))
      (m : gmap (Z * Z) Z) (x y : Z) :
  (forall x' y', In (x', y') cells -> valid_coord x' y') ->
  In (x, y) cells ->
  paint_regs f color cells m !! (f, _COLOR_OFFSET + _pixel_addr x y) = Some color.
Proof.
  revert m. induction cells as [| [x' y'] cells IH]; intros m Hvalid Hin.
  - destruct Hin.
  - destruct (in_dec (fun a b : Z * Z => decide (a = b)) (x, y) cells) as [Hlater | Hnot].
    + unfold paint_regs in *. cbn [fold_left]. apply IH; [| exact Hlater].
      intros x'' y'' H. apply Hvalid. right. exact H.
    + destruct Hin as [E | Hin]; [| contradiction].
      injection E as -> ->.
      change (paint_regs f color ((x, y) :: cells) m)
        with (paint_regs f color cells
                (<[(f, _COLOR_OFFSET + _pixel_addr x y) := color]> m)).
      rewrite paint_regs_lookup_out.
      * apply lookup_insert_eq.
      * apply Hvalid. left. reflexivity.
      * intros x'' y'' H. apply Hvalid. right. exact H.
      * exact Hnot.
Qed.

(** What a short string looks like on the display: after [show] of a string
    of fewer than 4 characters over the glyph table, a pixel of the matrix
    holds 10 when some glyph cell [(dx, dy)] of character number [i] lands on
    it ([x = dx + 6 * i], [y = dy]) and 0 otherwise. *)
Theorem show_static_display (strlist : string) (st : state) :
  frame_ok st -> known strlist = true ->
  Z.of_nat (String.length strlist) < 4 ->
  exists st',
    show strlist st = (Ok tt, st') /\
    _frame st' = _frame st /\
    forall x y, valid_coord x y ->
      (In (x, y) (lit_cells strlist) ->
       dev_regs (dev st') !! (_frame st, _COLOR_OFFSET + _pixel_addr x y) = Some 10) /\
      (~ In (x, y) (lit_cells strlist) ->
       dev_regs (dev st') !! (_frame st, _COLOR_OFFSET + _pixel_addr x y) = Some 0).
Proof.
  intros Hs Hk Hlen.
  destruct (performs_fill (Some 0) None None st Hs
              ltac:(intros c E; injection E as <-; lia))
    as (s1 & Hfill & Hf1 & Hd1).
  cbn [default] in Hd1. unfold fill_regs in Hd1.
  assert (Hs1 : frame_ok s1) by (unfold frame_ok in *; rewrite Hf1; exact Hs).
  pose proof (lit_cells_valid strlist) as Hvalid.
  destruct (performs_paint_cells (lit_cells strlist)
              (fun x y H => Hvalid x y Hlen H) s1 Hs1)
    as (d & (s2 & Hpaint & Hf2 & Hd2) & Hregs).
  exists s2. rewrite show_short by exact Hlen.
  rewrite (bind_ok _ _ _ _ _ Hfill), show_static_lit by exact Hk.
  split; [exact Hpaint |]. split; [congruence |].
  intros x y Hv. rewrite Hd2, Hregs, Hf1, Hd1. cbn [dev_regs]. split.
  - intros Hin. apply paint_regs_lookup_in; [| exact Hin].
    intros x' y' H. apply (Hvalid x' y' Hlen H).
  - intros Hnot. rewrite paint_regs_lookup_out; [| exact Hv | | exact Hnot].
    + apply regs_set_repeat_lookup.
      pose proof (_pixel_addr_range x y Hv). lia.
    + intros x' y' H. apply (Hvalid x' y' Hlen H).
Qed.

Lemma show_static_display_witness :
  (frame_ok st0 /\ known "Hi" = true /\ Z.of_nat (String.length "Hi") < 4) /\
  exists st',
    show "Hi" st0 = (Ok tt, st') /\
    _frame st' = _frame st0 /\
    forall x y, valid_coord x y ->
      (In (x, y) (lit_cells "Hi") ->
       dev_regs (dev st') !! (_frame st0, _COLOR_OFFSET + _pixel_addr x y) = Some 10) /\
      (~ In (x, y) (lit_cells "Hi") ->
       dev_regs (dev st') !! (_frame st0, _COLOR_OFFSET + _pixel_addr x y) = Some 0).
Proof.
  assert (Hk : known "Hi" = true) by reflexivity.
  assert (Hlen : Z.of_nat (String.length "Hi") < 4) by (simpl; lia).
  split; [split; [exact frame_ok_st0 | split; assumption] |].
  exact (show_static_display "Hi" st0 frame_ok_st0 Hk Hlen).
Defined.

(** The lit cells of "Hi": the 17 cells of "H" in columns 0..4 and the 9
    cells of "i" in columns 7..9. *)
Example lit_cells_Hi :
  length (lit_cells "Hi") = 26%nat /\
  In (0, 0) (lit_cells "Hi") /\ In (8, 0) (lit_cells "Hi") /\
  ~ In (1, 0) (lit_cells "Hi").
Proof.
  split; [reflexivity |]. split; [vm_compute; tauto |].
  split; [vm_compute; tauto |].
  vm_compute. intros H.
  repeat (destruct H as [H | H]; [discriminate H |]). exact H.
Qed.

(** ** The end of a scroll *)

Lemma steps_scroll_pass (strlist : string) (offset : Z) :
  known strlist = true ->
  steps 1 (show_paint strlist offset ;; time_sleep_50ms ;; fill (Some 0) None None).
Proof.
  intros Hk.
  apply (steps_bind _ _ 0 1); [apply steps_show_paint; exact Hk |].
  intros _. apply (steps_bind _ _ 1 0); [apply steps_time_sleep |].
  intros _. apply steps_fill_0.
Qed.

(** When the scroll of a string of 4 or more characters over the glyph table
    has run, the last thing on the bus is a [fill(0)] and all 144 intensity
    registers of the active frame hold 0: the display is left blank. *)
Theorem show_scroll_ends_blank (strlist : string) (st : state) :
  frame_ok st -> known strlist = true ->
  4 <= Z.of_nat (String.length strlist) ->
  exists st',
    show strlist st = (Ok tt, st') /\
    _frame st' = _frame st /\
    (exists t, trace st' = t ++ fill_events (_frame st) 0) /\
    forall i, 0 <= i < 144 ->
      dev_regs (dev st') !! (_frame st, _COLOR_OFFSET + i) = Some 0.
Proof.
  intros Hs Hk Hlen.
  destruct (steps_fill_0 st Hs) as ([] & t0 & (s1 & Hfill & Hf1 & _) & _).
  assert (Hs1 : frame_ok s1) by (unfold frame_ok in *; rewrite Hf1; exact Hs).
  assert (Hsplit : exists pre last, scroll_offsets strlist = pre ++ [last]).
  { rewrite scroll_offsets_eq.
    destruct (6 * String.length strlist)%nat as [| k] eqn:Ek; [lia |].
    rewrite seq_S, map_app. eexists; eexists. reflexivity. }
  destruct Hsplit as (pre & last & Hoff).
  pose proof (steps_for pre
                (fun offset => show_paint strlist offset ;; time_sleep_50ms ;;
                               fill (Some 0) None None) 1
                (fun offset _ => steps_scroll_pass strlist offset Hk)) as Hpre.
  destruct (Hpre s1 Hs1) as ([] & t1 & (s2 & Hrun2 & Hf2 & _) & _).
  assert (Hs2 : frame_ok s2) by (unfold frame_ok in *; rewrite Hf2; exact Hs1).
  destruct (steps_show_paint strlist last Hk s2 Hs2)
    as ([] & t2 & (s3 & Hrun3 & Hf3 & _) & _).
  destruct (yields_time_sleep s3) as (s4 & Hrun4 & Hf4 & _).
  assert (Hs4 : frame_ok s4).
  { unfold frame_ok in *. rewrite Hf4, Hf3. exact Hs2. }
  destruct (yields_fill 0 s4 Hs4 ltac:(lia)) as (s5 & Hrun5 & Hf5 & Ht5).
  destruct (performs_fill (Some 0) None None s4 Hs4
              ltac:(intros c E; injection E as <-; lia))
    as (s5' & Hrun5' & _ & Hd5).
  assert (s5' = s5) as -> by congruence.
  assert (Hframe : _frame s4 = _frame st) by congruence.
  exists s5. rewrite show_long by exact Hlen.
  rewrite (bind_ok _ _ _ _ _ Hfill).
  unfold show_scroll. rewrite Hoff, for_app.
  rewrite (bind_ok _ _ _ _ _ Hrun2). cbn [for_].
  assert (Hpass : (show_paint strlist last ;; time_sleep_50ms ;;
                   fill (Some 0) None None) s2 = (Ok tt, s5)).
  { rewrite (bind_ok _ _ _ _ _ Hrun3), (bind_ok _ _ _ _ _ Hrun4). exact Hrun5. }
  rewrite (bind_ok _ _ _ _ _ Hpass).
  split; [reflexivity |]. split; [congruence |]. split.
  - exists (trace s4). rewrite Ht5, Hframe. reflexivity.
  - intros i Hi. rewrite Hd5. cbn [default dev_regs]. unfold fill_regs.
    rewrite Hframe. apply regs_set_repeat_lookup. lia.
Qed.

Lemma show_scroll_ends_blank_witness :
  (frame_ok st0 /\ known "HELLO" = true /\ 4 <= Z.of_nat (String.length "HELLO")) /\
  exists st',
    show "HELLO" st0 = (Ok tt, st') /\
    _frame st' = _frame st0 /\
    (exists t, trace st' = t ++ fill_events (_frame st0) 0) /\
    forall i, 0 <= i < 144 ->
      dev_regs (dev st') !! (_frame st0, _COLOR_OFFSET + i) = Some 0.
Proof.
  assert (Hk : known "HELLO" = true) by reflexivity.
  assert (Hlen : 4 <= Z.of_nat (String.length "HELLO")) by (simpl; lia).
  split; [split; [exact frame_ok_st0 | split; assumption] |].
  exact (show_scroll_ends_blank "HELLO" st0 frame_ok_st0 Hk Hlen).
Defined.

(** ** Music.phonate *)

Lemma slept_ms_app (t1 t2 : list pwm_event) :
  slept_ms (t1 ++ t2) = slept_ms t1 + slept_ms t2.
Proof.
  induction t1 as [| e t1 IH]; [reflexivity |].
  destruct e; cbn [app slept_ms]; rewrite IH; lia.
Qed.

Lemma note_events_facts (freq : Z) :
  slept_ms (note_events freq) = 500 /\
  length (List.filter is_freq (note_events freq))
    = (if (freq =? 0)%Z then 0 else 1)%nat /\
  List.filter is_deinit (note_events freq) = [].
Proof. unfold note_events. destruct (freq =? 0); auto. Qed.

Lemma phonate_loop_known (melody : string) :
  tones_known melody = true ->
  exists t,
    phonate_loop melody = (Ok tt, t) /\
    slept_ms t = 500 * Z.of_nat (String.length melody) /\
    length (List.filter is_freq t) = sounded melody /\
    List.filter is_deinit t = [].
Proof.
  induction melody as [| tone rest IH]; intros Hk.
  - exists []. auto.
  - cbn [tones_known phonate_loop sounded String.length] in *.
    destruct (tones !! String tone EmptyString) as [freq |]; [| discriminate].
    destruct (IH Hk) as (t & Hrun & Hms & Hfreq & Hde).
    destruct (note_events_facts freq) as (Nms & Nfreq & Nde).
    exists (note_events freq ++ t). rewrite Hrun.
    split; [reflexivity |].
    rewrite slept_ms_app, !List.filter_app, length_app, Nms, Hms, Nfreq, Hfreq, Nde, Hde.
    split; [lia |]. split; reflexivity.
Qed.

(** A melody over the tone table plays to its end: [phonate] returns
    normally after sleeping 500 ms per character, has set a frequency once
    for every note that is not a rest, and releases the PWM channel exactly
    once, as its last action.  The empty melody only releases the channel. *)
Theorem phonate_plays_melody (melody : string) :
  tones_known melody = true ->
  exists t,
    phonate melody = (Ok tt, t ++ [Deinit]) /\
    slept_ms t = 500 * Z.of_nat (String.length melody) /\
    length (List.filter is_freq t) = sounded melody /\
    List.filter is_deinit t = [].
Proof.
  intros Hk. destruct (phonate_loop_known melody Hk) as (t & Hrun & Hrest).
  exists t. unfold phonate. rewrite Hrun. split; [reflexivity | exact Hrest].
Qed.

Lemma phonate_plays_melody_witness :
  tones_known "1-35" = true /\
  exists t,
    phonate "1-35" = (Ok tt, t ++ [Deinit]) /\
    slept_ms t = 500 * Z.of_nat (String.length "1-35") /\
    length (List.filter is_freq t) = sounded "1-35" /\
    List.filter is_deinit t = [].
Proof.
  assert (Hk : tones_known "1-35" = true) by reflexivity.
  split; [exact Hk | exact (phonate_plays_melody "1-35" Hk)].
Defined.

Lemma phonate_loop_unknown (pre : string) (tone : ascii) (suf : string) :
  tones_known pre = true ->
  tones !! String tone EmptyString = None ->
  exists t,
    phonate_loop (pre ++ String tone suf)
      = (Raise (KeyError (String tone EmptyString)), t) /\
    slept_ms t = 500 * Z.of_nat (String.length pre) /\
    List.filter is_deinit t = [].
Proof.
  intros Hk Hn. induction pre as [| c pre IH].
  - exists []. change (phonate_loop (String tone suf) = (Raise (KeyError (String tone EmptyString)), [])
              /\ slept_ms [] = 500 * Z.of_nat 0 /\ List.filter is_deinit [] = []).
    cbn [phonate_loop]. rewrite Hn. auto.
  - change (String c pre ++ String tone suf)%string
      with (String c (pre ++ String tone suf))%string.
    cbn [tones_known phonate_loop String.length] in *.
    destruct (tones !! String c EmptyString) as [freq |]; [| discriminate].
    destruct (IH Hk) as (t & Hrun & Hms & Hde).
    destruct (note_events_facts freq) as (Nms & _ & Nde).
    exists (note_events freq ++ t). rewrite Hrun.
    split; [reflexivity |].
    rewrite slept_ms_app, List.filter_app, Nms, Hms, Nde, Hde.
    split; [lia | reflexivity].
Qed.

(** A character that is not a tone stops the melody: the notes before it
    have been played in full, [phonate] raises [KeyError] for it, and the PWM
    channel is not released. *)
Theorem phonate_unknown_tone (pre : string) (tone : ascii) (suf : string) :
  tones_known pre = true ->
  tones !! String tone EmptyString = None ->
  exists t,
    phonate (pre ++ String tone suf)
      = (Raise (KeyError (String tone EmptyString)), t) /\
    slept_ms t = 500 * Z.of_nat (String.length pre) /\
    List.filter is_deinit t = [].
Proof.
  intros Hk Hn.
  destruct (phonate_loop_unknown pre tone suf Hk Hn) as (t & Hrun & Hrest).
  exists t. unfold phonate. rewrite Hrun. split; [reflexivity | exact Hrest].
Qed.

Lemma phonate_unknown_tone_witness :
  (tones_known "12" = true /\ tones !! String "8" EmptyString = None) /\
  exists t,
    phonate ("12" ++ String "8" "3")
      = (Raise (KeyError (String "8" EmptyString)), t) /\
    slept_ms t = 500 * Z.of_nat (String.length "12") /\
    List.filter is_deinit t = [].
Proof.
  assert (Hk : tones_known "12" = true) by reflexivity.
  assert (Hn : tones !! String "8" EmptyString = None) by reflexivity.
  split; [split; assumption |].
  exact (phonate_unknown_tone "12" "8" "3" Hk Hn).
Defined.

(** ** The active frame index *)

Lemma frame_stable_ret {A} (a : A) : frame_stable (ret a).
Proof. intros s. reflexivity. Qed.

Lemma frame_stable_raise {A} (e : exn) : frame_stable (@raise A e).
Proof. intros s. reflexivity. Qed.

Lemma frame_stable_bind {A B} (m : M A) (k : A -> M B) :
  frame_stable m -> (forall a, frame_stable (k a)) -> frame_stable (bind m k).
Proof.
  intros Hm Hk s. specialize (Hm s). unfold bind.
  destruct (m s) as [[a | e] s1]; simpl in *.
  - rewrite Hk. exact Hm.
  - exact Hm.
Qed.

Lemma frame_stable_for {A} (xs : list A) (body : A -> M unit) :
  (forall x, frame_stable (body x)) -> frame_stable (for_ xs body).
Proof.
  intros Hbody. induction xs as [| x xs IH]; simpl.
  - apply frame_stable_ret.
  - apply frame_stable_bind; [apply Hbody | intros _; exact IH].
Qed.

Lemma frame_stable_if {A} (b : bool) (m1 m2 : M A) :
  frame_stable m1 -> frame_stable m2 -> frame_stable (if b then m1 else m2).
Proof. destruct b; auto. Qed.

Lemma frame_stable_writeto_mem memaddr data : frame_stable (writeto_mem memaddr data).
Proof. intros s. reflexivity. Qed.

Lemma frame_stable_readfrom_mem memaddr : frame_stable (readfrom_mem memaddr).
Proof. intros s. reflexivity. Qed.

Lemma frame_stable_bytearray l : frame_stable (bytearray l).
Proof.
  unfold bytearray. apply frame_stable_if; [apply frame_stable_ret | apply frame_stable_raise].
Qed.

Lemma frame_stable_bank b : frame_stable (_bank b).
Proof.
  unfold _bank. destruct b as [b |].
  - apply frame_stable_bind; [apply frame_stable_bytearray |].
    intros data. apply frame_stable_bind; [apply frame_stable_writeto_mem |].
    intros _. apply frame_stable_ret.
  - apply frame_stable_bind; [apply frame_stable_readfrom_mem |].
    intros v. apply frame_stable_ret.
Qed.

Lemma frame_stable_register b register v : frame_stable (_register b register v).
Proof.
  unfold _register. apply frame_stable_bind; [apply frame_stable_bank |].
  intros _. destruct v as [v |].
  - apply frame_stable_bind; [apply frame_stable_bytearray |].
    intros data. apply frame_stable_bind; [apply frame_stable_writeto_mem |].
    intros _. apply frame_stable_ret.
  - apply frame_stable_bind; [apply frame_stable_readfrom_mem |].
    intros x. apply frame_stable_ret.
Qed.

Lemma frame_stable_frame_or_default (frame : option Z) :
  frame_stable (match frame with None => get_frame | Some f => ret f end).
Proof. destruct frame; intros s; reflexivity. Qed.

Lemma frame_stable_fill color blink frame : frame_stable (fill color blink frame).
Proof.
  unfold fill. apply frame_stable_bind; [apply frame_stable_frame_or_default |].
  intros f. apply frame_stable_bind; [apply frame_stable_bank |].
  intros _. apply frame_stable_bind.
  - destruct color as [c |]; [| apply frame_stable_ret].
    apply frame_stable_if; [apply frame_stable_raise |].
    apply frame_stable_bind; [apply frame_stable_bytearray |].
    intros data. apply frame_stable_for. intros row. apply frame_stable_writeto_mem.
  - intros _. destruct blink as [b |]; [| apply frame_stable_ret].
    apply frame_stable_for. intros col.
    apply frame_stable_bind; [apply frame_stable_register | intros _; apply frame_stable_ret].
Qed.

Lemma frame_stable_pixel x y color blink frame :
  frame_stable (pixel x y color blink frame).
Proof.
  unfold pixel. apply frame_stable_if; [apply frame_stable_ret |].
  apply frame_stable_if; [apply frame_stable_ret |].
  apply frame_stable_bind; [apply frame_stable_frame_or_default |].
  intros f. destruct color as [c |]; [| apply frame_stable_ret].
  apply frame_stable_if; [apply frame_stable_raise |].
  apply frame_stable_bind; [apply frame_stable_register | intros _; apply frame_stable_ret].
Qed.

Lemma frame_stable_pure {A} (m : M A) :
  (forall s, snd (m s) = s) -> frame_stable m.
Proof. intros H s. rewrite H. reflexivity. Qed.

Lemma str_getitem_pure s i st : snd (str_getitem s i st) = st.
Proof.
  unfold str_getitem. cbv zeta.
  destruct (_ <? 0); [reflexivity |]. destruct (String.get _ s); reflexivity.
Qed.

Lemma dict_getitem_pure {V} (d : gmap string V) key st :
  snd (dict_getitem d key st) = st.
Proof. unfold dict_getitem. destruct (d !! key); reflexivity. Qed.

Lemma list_getitem_pure {A} (l : list A) i st : snd (list_getitem l i st) = st.
Proof.
  unfold list_getitem. cbv zeta.
  destruct (_ <? 0); [reflexivity |]. destruct (l !! _); reflexivity.
Qed.

Lemma frame_stable_glyph_len strlist strcount :
  frame_stable (glyph_len strlist strcount).
Proof.
  unfold glyph_len.
  apply frame_stable_bind; [apply frame_stable_pure; intros; apply str_getitem_pure |].
  intros key.
  apply frame_stable_bind; [apply frame_stable_pure; intros; apply dict_getitem_pure |].
  intros cells. apply frame_stable_ret.
Qed.

Lemma frame_stable_glyph_cell strlist strcount a :
  frame_stable (glyph_cell strlist strcount a).
Proof.
  unfold glyph_cell.
  apply frame_stable_bind; [apply frame_stable_pure; intros; apply str_getitem_pure |].
  intros key.
  apply frame_stable_bind; [apply frame_stable_pure; intros; apply dict_getitem_pure |].
  intros cells. apply frame_stable_pure. intros. apply list_getitem_pure.
Qed.

Lemma frame_stable_show strlist : frame_stable (show strlist).
Proof.
  unfold show. apply frame_stable_bind; [apply frame_stable_fill |].
  intros _. apply frame_stable_bind.
  - apply frame_stable_if; [| apply frame_stable_ret].
    unfold show_static. apply frame_stable_for. intros strcount.
    apply frame_stable_bind; [apply frame_stable_glyph_len |].
    intros n. apply frame_stable_for. intros a.
    apply frame_stable_bind; [apply frame_stable_glyph_cell |].
    intros cell. apply frame_stable_pixel.
  - intros _. apply frame_stable_if; [| apply frame_stable_ret].
    unfold show_scroll. apply frame_stable_for. intros offset.
    apply frame_stable_bind.
    + unfold show_paint. apply frame_stable_for. intros strcount. cbv zeta.
      apply frame_stable_bind; [apply frame_stable_glyph_len |].
      intros n. apply frame_stable_for. intros a.
      apply frame_stable_bind; [apply frame_stable_glyph_cell |].
      intros cell. apply frame_stable_if; [apply frame_stable_pixel | apply frame_stable_ret].
    + intros _. apply frame_stable_bind; [intros s; reflexivity |].
      intros _. apply frame_stable_fill.
Qed.

Lemma frame_stable_autoplay delay loops frames :
  frame_stable (autoplay delay loops frames).
Proof.
  unfold autoplay, _mode. apply frame_stable_if.
  - apply frame_stable_bind; [apply frame_stable_register | intros _; apply frame_stable_ret].
  - cbv zeta. repeat (apply frame_stable_if; [apply frame_stable_raise |]).
    apply frame_stable_bind; [apply frame_stable_register |]. intros _.
    apply frame_stable_bind; [apply frame_stable_register |]. intros _.
    apply frame_stable_bind; [intros s; reflexivity |]. intros f.
    apply frame_stable_bind; [apply frame_stable_register | intros _; apply frame_stable_ret].
Qed.

Lemma frame_stable_audio_play sample_rate audio_gain agc_enable agc_fast :
  frame_stable (audio_play sample_rate audio_gain agc_enable agc_fast).
Proof.
  unfold audio_play, _mode. apply frame_stable_if.
  - apply frame_stable_bind; [apply frame_stable_register | intros _; apply frame_stable_ret].
  - cbv zeta. apply frame_stable_if; [apply frame_stable_raise |].
    apply frame_stable_bind; [apply frame_stable_register |]. intros _.
    apply frame_stable_if; [apply frame_stable_raise |].
    apply frame_stable_bind; [apply frame_stable_register |]. intros _.
    apply frame_stable_bind; [apply frame_stable_register | intros _; apply frame_stable_ret].
Qed.

Lemma frame_stable_blink rate : frame_stable (blink rate).
Proof.
  unfold blink. destruct rate as [rate |].
  - apply frame_stable_if; cbv zeta;
      (apply frame_stable_bind; [apply frame_stable_register | intros _; apply frame_stable_ret]).
  - apply frame_stable_bind; [apply frame_stable_register |].
    intros [v |]; [apply frame_stable_ret | apply frame_stable_raise].
Qed.

Lemma frame_stable_write_frame data frame : frame_stable (write_frame data frame).
Proof.
  unfold write_frame. apply frame_stable_if; [apply frame_stable_raise |].
  apply frame_stable_bind; [apply frame_stable_frame_or_default |]. intros f.
  apply frame_stable_bind; [apply frame_stable_bank |]. intros _.
  apply frame_stable_writeto_mem.
Qed.

(** The active frame index is changed by [frame] only, and [frame] keeps it
    within 0..8: whatever [fill], [pixel], [write_frame], [autoplay],
    [audio_play], [blink], [sleep], [audio_sync] or [show] are called with,
    and whether they return or raise, [self._frame] is as before. *)
Theorem active_frame_invariant (st : state) :
  0 <= _frame st <= 8 ->
  (forall f show, 0 <= _frame (snd (frame f show st)) <= 8) /\
  (forall color blink fr, _frame (snd (fill color blink fr st)) = _frame st) /\
  (forall x y color blink fr, _frame (snd (pixel x y color blink fr st)) = _frame st) /\
  (forall data fr, _frame (snd (write_frame data fr st)) = _frame st) /\
  (forall delay loops frames, _frame (snd (autoplay delay loops frames st)) = _frame st) /\
  (forall rate gain en fast, _frame (snd (audio_play rate gain en fast st)) = _frame st) /\
  (forall rate, _frame (snd (blink rate st)) = _frame st) /\
  (forall value, _frame (snd (sleep value st)) = _frame st) /\
  (forall value, _frame (snd (audio_sync value st)) = _frame st) /\
  (forall strlist, _frame (snd (show strlist st)) = _frame st).
Proof.
  intros Hs.
  split; [intros f show; apply frame_keeps_byte; exact Hs |].
  split; [intros; apply frame_stable_fill |].
  split; [intros; apply frame_stable_pixel |].
  split; [intros; apply frame_stable_write_frame |].
  split; [intros; apply frame_stable_autoplay |].
  split; [intros; apply frame_stable_audio_play |].
  split; [intros; apply frame_stable_blink |].
  split; [intros; apply (frame_stable_register _CONFIG_BANK _SHUTDOWN_REGISTER) |].
  split; [intros; apply (frame_stable_register _CONFIG_BANK _AUDIOSYNC_REGISTER) |].
  intros; apply frame_stable_show.
Qed.

Lemma active_frame_invariant_witness :
  0 <= _frame st0 <= 8 /\
  (forall f show, 0 <= _frame (snd (frame f show st0)) <= 8) /\
  (forall strlist, _frame (snd (show strlist st0)) = _frame st0).
Proof.
  assert (Hs : 0 <= _frame st0 <= 8) by (simpl; lia).
  pose proof (active_frame_invariant st0 Hs) as H.
  split; [exact Hs |]. split; [apply H | apply H].
Defined.

(** [sleep] is idempotent: a second call with the same value leaves the
    device as the first did, with the shutdown register at 0 after
    [sleep(True)] and 1 after [sleep(False)], and the mode register is not
    touched. *)
Theorem sleep_idempotent (value : bool) (st : state) :
  exists st1 st2,
    sleep value st = (Ok None, st1) /\
    sleep value st1 = (Ok None, st2) /\
    dev st2 = dev st1 /\
    dev_regs (dev st1) !! (_CONFIG_BANK, _SHUTDOWN_REGISTER)
      = Some (if value then 0 else 1) /\
    dev_regs (dev st1) !! (_CONFIG_BANK, _MODE_REGISTER)
      = dev_regs (dev st) !! (_CONFIG_BANK, _MODE_REGISTER).
Proof.
  eexists; eexists.
  split; [apply sleep_run |]. split; [apply sleep_run |].
  cbn [dev dev_regs]. split; [| split].
  - rewrite insert_insert_eq. reflexivity.
  - rewrite lookup_insert_eq. destruct value; reflexivity.
  - apply lookup_insert_ne. discriminate.
Qed.

Lemma pixel_off_matrix_no_op_witness :
  (20 < 0 \/ 17 < 20 \/ 0 < 0 \/ 7 < 0) /\
  pixel 20 0 (Some 300) None None st0 = (Ok tt, st0).
Proof.
  assert (H : 20 < 0 \/ 17 < 20 \/ 0 < 0 \/ 7 < 0) by lia.
  split; [exact H | exact (pixel_off_matrix_no_op 20 0 (Some 300) None None st0 H)].
Defined.

Lemma pixel_color_rejected_no_write_witness :
  (0 <= 3 <= 17 /\ 0 <= 2 <= 7 /\ (256 < 0 \/ 255 < 256)) /\
  pixel 3 2 (Some 256) None None st0
  = (Raise (ValueError "Color out of range"), st0).
Proof.
  assert (Hx : 0 <= 3 <= 17) by lia.
  assert (Hy : 0 <= 2 <= 7) by lia.
  assert (Hc : 256 < 0 \/ 255 < 256) by lia.
  split; [tauto |].
  exact (pixel_color_rejected_no_write 3 2 256 None None st0 Hx Hy Hc).
Defined.

Lemma fill_color_rejected_after_bank_witness :
  (frame_ok st0 /\ (-1 < 0 \/ 255 < -1)) /\
  exists st',
    fill (Some (-1)) None None st0
    = (Raise (ValueError "Color out of range"), st') /\
    trace st' = trace st0 ++ [BusWrite _BANK_ADDRESS [_frame st0]].
Proof.
  assert (Hc : -1 < 0 \/ 255 < -1) by lia.
  split; [split; [exact frame_ok_st0 | exact Hc] |].
  exact (fill_color_rejected_after_bank (-1) None st0 frame_ok_st0 Hc).
Defined.

Lemma audio_play_gain_rejected_witness :
  (1 <= 46 / 46 <= 256 /\ (24 / 3 < 0 \/ 7 < 24 / 3)) /\
  exists st',
    audio_play 46 24 false false st0
    = (Raise (ValueError "Audio gain out of range"), st') /\
    trace st' = trace st0 ++
      [BusWrite _BANK_ADDRESS [_CONFIG_BANK];
       BusWrite _ADC_REGISTER [(46 / 46) mod 256]].
Proof.
  assert (Hr : 1 <= 46 / 46 <= 256) by (vm_compute; split; discriminate).
  assert (Hg : 24 / 3 < 0 \/ 7 < 24 / 3) by (right; reflexivity).
  split; [split; assumption |].
  exact (audio_play_gain_rejected 46 24 false false st0 Hr Hg).
Defined.

(** ** The bus traffic of show *)

Lemma yields_for_flat {A} (xs : list A) (body : A -> M unit)
      (ev : A -> list event) (f : Z) :
  (forall x s, In x xs -> _frame s = f -> yields (body x) s (Ok tt) (ev x)) ->
  forall s, _frame s = f -> yields (for_ xs body) s (Ok tt) (flat_map ev xs).
Proof.
  induction xs as [| x xs IH]; intros Hbody s Hs.
  - apply yields_ret.
  - cbn [for_ flat_map].
    eapply yields_bind.
    + apply Hbody; [left; reflexivity | exact Hs].
    + intros s1 Hf1 _. apply IH.
      * intros y s2 Hy. apply Hbody. right. exact Hy.
      * congruence.
Qed.

Lemma yields_pixel_events (x y color : Z) s :
  frame_ok s -> 0 <= color <= 255 ->
  yields (pixel x y (Some color) None None) s (Ok tt)
         (pixel_events (_frame s) x y color).
Proof.
  intros Hs Hc. unfold pixel_events.
  destruct (in_range 0 x width) eqn:Ex; [destruct (in_range 0 y height) eqn:Ey |].
  - unfold in_range in Ex, Ey.
    apply andb_true_iff in Ex as [Ex0 Ex1], Ey as [Ey0 Ey1].
    apply yields_pixel; [exact Hs | exact Hc | lia | lia].
  - exists s. unfold pixel. rewrite Ex, Ey. cbn [negb andb].
    rewrite app_nil_r. auto.
  - exists s. unfold pixel. rewrite Ex. cbn [negb andb].
    rewrite app_nil_r. auto.
Qed.

(** The paint loops of [show], with a per-cell action [draw] that only looks
    at the shifted cell, run the action over the lit cells of the text. *)
Lemma paint_loop_suffix (strlist : string) (draw : Z -> Z * Z -> M unit)
      (act : Z * Z -> M unit) :
  (forall i cell s, draw i cell s = act (fst cell + i * 6, snd cell) s) ->
  forall (rest : string) (i : nat) s,
    known rest = true ->
    (forall j c, String.get j rest = Some c -> String.get (i + j) strlist = Some c) ->
    for_ (map Z.of_nat (seq i (String.length rest)))
         (fun strcount =>
            let* n := glyph_len strlist strcount in
            for_ (range n) (fun a =>
              let* cell := glyph_cell strlist strcount a in draw strcount cell)) s
    = for_ (lit_cells_from (Z.of_nat i) rest) act s.
Proof.
  intros Hdraw rest. induction rest as [| c rest IH]; intros i s Hk Hget.
  - reflexivity.
  - cbn [known] in Hk.
    destruct (wordStock !! String c EmptyString) as [cells |] eqn:Hc; [| discriminate].
    assert (Hgi : String.get i strlist = Some c).
    { rewrite <- (Nat.add_0_r i). apply Hget. reflexivity. }
    cbn [String.length seq map for_ lit_cells_from].
    rewrite Hc. cbn [default]. unfold id. rewrite for_app.
    apply bind_ext.
    + intros s1.
      rewrite (bind_ok _ _ _ _ _ (glyph_len_ok strlist i c cells s1 Hgi Hc)).
      rewrite for_map.
      apply for_range_lookup.
      intros a cell s2 Ha.
      rewrite (bind_ok _ _ _ _ _
                 (glyph_cell_lookup strlist i a c cells cell s2 Hgi Hc Ha)).
      apply Hdraw.
    + intros _ s1.
      replace (Z.of_nat i + 1) with (Z.of_nat (S i)) by lia.
      apply IH; [exact Hk |].
      intros j c' Hj. replace (S i + j)%nat with (i + S j)%nat by lia.
      apply Hget. exact Hj.
Qed.

Lemma show_paint_lit (strlist : string) (offset : Z) s :
  known strlist = true ->
  show_paint strlist offset s = for_ (lit_cells strlist) (paint_20 offset) s.
Proof.
  intros Hk. unfold show_paint, lit_cells. rewrite range_nat.
  apply (paint_loop_suffix strlist
           (fun strcount cell =>
              if fst cell + (strcount * 6 + offset) >=? 0
              then pixel (fst cell + (strcount * 6 + offset)) (snd cell)
                         (Some 20) None None
              else ret tt)
           (paint_20 offset)).
  - intros i cell s1. unfold paint_20. cbn [fst snd].
    rewrite Z.add_assoc. reflexivity.
  - exact Hk.
  - intros j c Hj. exact Hj.
Qed.

Lemma yields_show_static (strlist : string) s :
  frame_ok s -> known strlist = true ->
  yields (show_static strlist) s (Ok tt) (static_events (_frame s) strlist).
Proof.
  intros Hs Hk.
  assert (Hloop : yields (for_ (lit_cells strlist) paint_10) s (Ok tt)
                         (static_events (_frame s) strlist)).
  { apply (yields_for_flat (lit_cells strlist) paint_10
             (fun cell => pixel_events (_frame s) (fst cell) (snd cell) 10)
             (_frame s)); [| reflexivity].
    intros cell s1 _ Hf1. rewrite <- Hf1. unfold paint_10.
    apply yields_pixel_events; [| lia].
    unfold frame_ok in *. rewrite Hf1. exact Hs. }
  destruct Hloop as (s' & Hrun & Hrest).
  exists s'. rewrite show_static_lit by exact Hk. auto.
Qed.

Lemma yields_show_paint (strlist : string) (offset : Z) s :
  frame_ok s -> known strlist = true ->
  yields (show_paint strlist offset) s (Ok tt)
         (flat_map (fun cell => pixel_events (_frame s) (fst cell + offset) (snd cell) 20)
                   (lit_cells strlist)).
Proof.
  intros Hs Hk.
  assert (Hloop : yields (for_ (lit_cells strlist) (paint_20 offset)) s (Ok tt)
            (flat_map (fun cell => pixel_events (_frame s) (fst cell + offset) (snd cell) 20)
                      (lit_cells strlist))).
  { apply (yields_for_flat (lit_cells strlist) (paint_20 offset)
             (fun cell => pixel_events (_frame s) (fst cell + offset) (snd cell) 20)
             (_frame s)); [| reflexivity].
    intros cell s1 _ Hf1. rewrite <- Hf1. unfold paint_20.
    destruct (Z.geb_spec (fst cell + offset) 0) as [Hge | Hlt].
    - apply yields_pixel_events; [| lia].
      unfold frame_ok in *. rewrite Hf1. exact Hs.
    - unfold pixel_events.
      rewrite (in_range_false 0 (fst cell + offset) width) by (left; lia).
      cbn [andb]. apply yields_ret. }
  destruct Hloop as (s' & Hrun & Hrest).
  exists s'. rewrite show_paint_lit by exact Hk. auto.
Qed.

Lemma yields_scroll_pass (strlist : string) (offset : Z) s :
  frame_ok s -> known strlist = true ->
  yields (show_paint strlist offset ;; time_sleep_50ms ;; fill (Some 0) None None)
         s (Ok tt) (pass_events (_frame s) strlist offset).
Proof.
  intros Hs Hk. unfold pass_events.
  eapply yields_bind; [apply yields_show_paint; assumption |].
  intros s1 Hf1 _.
  eapply yields_bind; [apply yields_time_sleep |].
  intros s2 Hf2 _.
  replace (_frame s) with (_frame s2) by congruence.
  apply yields_fill; [| lia].
  unfold frame_ok in *. rewrite Hf2, Hf1. exact Hs.
Qed.

Lemma yields_show_scroll (strlist : string) s :
  frame_ok s -> known strlist = true ->
  yields (show_scroll strlist) s (Ok tt)
         (flat_map (pass_events (_frame s) strlist) (scroll_offsets strlist)).
Proof.
  intros Hs Hk. unfold show_scroll.
  apply (yields_for_flat (scroll_offsets strlist) _
           (pass_events (_frame s) strlist) (_frame s)); [| reflexivity].
  intros offset s1 _ Hf1. rewrite <- Hf1.
  apply yields_scroll_pass; [| exact Hk].
  unfold frame_ok in *. rewrite Hf1. exact Hs.
Qed.

(** The whole log of a scroll: [fill(0)], then one pass per offset. *)
Lemma show_long_trace (strlist : string) s :
  frame_ok s -> known strlist = true ->
  4 <= Z.of_nat (String.length strlist) ->
  exists s',
    show strlist s = (Ok tt, s') /\
    trace s' = trace s ++ fill_events (_frame s) 0
               ++ flat_map (pass_events (_frame s) strlist) (scroll_offsets strlist).
Proof.
  intros Hs Hk Hn.
  assert (Hy : yields (fill (Some 0) None None ;; show_scroll strlist) s (Ok tt)
                 (fill_events (_frame s) 0
                  ++ flat_map (pass_events (_frame s) strlist) (scroll_offsets strlist))).
  { eapply yields_bind; [apply yields_fill; [exact Hs | lia] |].
    intros s1 Hf1 _. rewrite <- Hf1.
    apply yields_show_scroll; [| exact Hk].
    unfold frame_ok in *. rewrite Hf1. exact Hs. }
  destruct Hy as (s' & Hrun & _ & Ht).
  exists s'. rewrite show_long by exact Hn. auto.
Qed.

(** The whole log of a static rendering: [fill(0)], then the one paint. *)
Lemma show_short_trace (strlist : string) s :
  frame_ok s -> known strlist = true ->
  Z.of_nat (String.length strlist) < 4 ->
  exists s',
    show strlist s = (Ok tt, s') /\
    trace s' = trace s ++ fill_events (_frame s) 0 ++ static_events (_frame s) strlist.
Proof.
  intros Hs Hk Hn.
  assert (Hy : yields (fill (Some 0) None None ;; show_static strlist) s (Ok tt)
                 (fill_events (_frame s) 0 ++ static_events (_frame s) strlist)).
  { eapply yields_bind; [apply yields_fill; [exact Hs | lia] |].
    intros s1 Hf1 _. rewrite <- Hf1.
    apply yields_show_static; [| exact Hk].
    unfold frame_ok in *. rewrite Hf1. exact Hs. }
  destruct Hy as (s' & Hrun & _ & Ht).
  exists s'. rewrite show_short by exact Hn. auto.
Qed.

(** C5 (as amended): for a string of length n >= 4 whose characters all have
    a glyph, the scroll renderer performs one frame-paint step for each shift
    value from 0 down to -(6*n - 1) inclusive, step -1, in that order:
    exactly 6*n paint steps, the stop value -(6*n) not being painted.  The
    step at shift [s] paints every lit cell of the text [s] columns to the
    right of its place (so to the left, [s] being negative) at intensity 20,
    sleeps once and clears the frame; the log of [show] is the initial
    [fill(0)] followed by these steps and nothing else. *)
Theorem show_scroll_paint_steps (strlist : string) (st : state) :
  frame_ok st -> known strlist = true ->
  4 <= Z.of_nat (String.length strlist) ->
  scroll_offsets strlist
    = map (fun i => - Z.of_nat i) (seq 0 (6 * String.length strlist)) /\
  (forall offset, In offset (scroll_offsets strlist) <->
                  - (6 * Z.of_nat (String.length strlist) - 1) <= offset <= 0) /\
  exists st', show strlist st = (Ok tt, st') /\
              trace st'
              = trace st ++ fill_events (_frame st) 0
                ++ flat_map (pass_events (_frame st) strlist)
                     (map (fun i => - Z.of_nat i)
                          (seq 0 (6 * String.length strlist))) /\
              sleeps (trace st')
              = (sleeps (trace st) + 6 * String.length strlist)%nat.
Proof.
  intros Hs Hk Hn. split; [apply scroll_offsets_eq |].
  split; [apply scroll_offsets_bounds |].
  destruct (show_long_trace strlist st Hs Hk Hn) as (st' & Hrun & Ht).
  destruct (show_long_steps strlist st Hs Hk Hn) as (st'' & Hrun' & Hq).
  assert (st'' = st') as -> by congruence.
  exists st'. split; [exact Hrun |]. split; [| exact Hq].
  rewrite Ht, scroll_offsets_eq. reflexivity.
Qed.

Lemma show_scroll_paint_steps_witness :
  frame_ok st0 /\ known "HELLO" = true /\
  4 <= Z.of_nat (String.length "HELLO") /\
  exists st', show "HELLO" st0 = (Ok tt, st') /\
              trace st'
              = trace st0 ++ fill_events (_frame st0) 0
                ++ flat_map (pass_events (_frame st0) "HELLO")
                     (map (fun i => - Z.of_nat i) (seq 0 (6 * 5))) /\
              sleeps (trace st') = (sleeps (trace st0) + 6 * 5)%nat.
Proof.
  assert (Hk : known "HELLO" = true) by reflexivity.
  assert (Hn : 4 <= Z.of_nat (String.length "HELLO")) by (simpl; lia).
  split; [exact frame_ok_st0 | split; [exact Hk | split; [exact Hn |]]].
  exact (proj2 (proj2 (show_scroll_paint_steps "HELLO" st0 frame_ok_st0 Hk Hn))).
Defined.

(** C8: [show] takes the static path exactly when the string is shorter than
    4 characters, and the animated scrolling path exactly when its length is
    4 or more.  On the static path the program never sleeps, and for a
    string over the glyph table the log is [fill(0)] followed by a single
    paint of the text at intensity 10; on the animated path the log is
    [fill(0)] followed by 6 * len timed steps (paint the shifted text at
    intensity 20, sleep, clear), one per shift 0, -1, ..., -(6 * len - 1). *)
Theorem show_path_boundary (strlist : string) (st : state) :
  (Z.of_nat (String.length strlist) < 4 ->
     show strlist st = (fill (Some 0) None None ;; show_static strlist) st /\
     sleeps (trace (snd (show strlist st))) = sleeps (trace st) /\
     (frame_ok st -> known strlist = true ->
      fst (show strlist st) = Ok tt /\
      trace (snd (show strlist st))
      = trace st ++ fill_events (_frame st) 0
        ++ static_events (_frame st) strlist)) /\
  (4 <= Z.of_nat (String.length strlist) ->
     show strlist st = (fill (Some 0) None None ;; show_scroll strlist) st /\
     (frame_ok st -> known strlist = true ->
      fst (show strlist st) = Ok tt /\
      trace (snd (show strlist st))
      = trace st ++ fill_events (_frame st) 0
        ++ flat_map (pass_events (_frame st) strlist)
             (map (fun i => - Z.of_nat i) (seq 0 (6 * String.length strlist))) /\
      sleeps (trace (snd (show strlist st)))
      = (sleeps (trace st) + 6 * String.length strlist)%nat)).
Proof.
  split; intros Hn.
  - split; [apply show_short; exact Hn |]. split.
    + rewrite show_short by exact Hn.
      apply (silent_bind (fill (Some 0) None None) (fun _ => show_static strlist)).
      * apply silent_fill.
      * intros _. apply silent_show_static.
    + intros Hs Hk.
      destruct (show_short_trace strlist st Hs Hk Hn) as (s' & Hrun & Ht).
      rewrite Hrun. split; [reflexivity | exact Ht].
  - split; [apply show_long; exact Hn |].
    intros Hs Hk.
    destruct (show_long_trace strlist st Hs Hk Hn) as (s' & Hrun & Ht).
    destruct (show_long_steps strlist st Hs Hk Hn) as (s'' & Hrun' & Hq).
    assert (s'' = s') as -> by congruence.
    rewrite Hrun. cbn [fst snd]. split; [reflexivity |]. split; [| exact Hq].
    rewrite Ht, scroll_offsets_eq. reflexivity.
Qed.

Lemma show_path_boundary_witness :
  (Z.of_nat (String.length "abc") < 4 /\ frame_ok st0 /\ known "abc" = true /\
   show "abc" st0 = (fill (Some 0) None None ;; show_static "abc") st0 /\
   sleeps (trace (snd (show "abc" st0))) = sleeps (trace st0) /\
   fst (show "abc" st0) = Ok tt /\
   trace (snd (show "abc" st0))
   = trace st0 ++ fill_events (_frame st0) 0 ++ static_events (_frame st0) "abc") /\
  (4 <= Z.of_nat (String.length "abcd") /\ frame_ok st0 /\ known "abcd" = true /\
   show "abcd" st0 = (fill (Some 0) None None ;; show_scroll "abcd") st0 /\
   fst (show "abcd" st0) = Ok tt /\
   trace (snd (show "abcd" st0))
   = trace st0 ++ fill_events (_frame st0) 0
     ++ flat_map (pass_events (_frame st0) "abcd")
          (map (fun i => - Z.of_nat i) (seq 0 (6 * 4))) /\
   sleeps (trace (snd (show "abcd" st0))) = (sleeps (trace st0) + 6 * 4)%nat).
Proof.
  assert (H3 : Z.of_nat (String.length "abc") < 4) by (simpl; lia).
  assert (H4 : 4 <= Z.of_nat (String.length "abcd")) by (simpl; lia).
  assert (Hk3 : known "abc" = true) by reflexivity.
  assert (Hk4 : known "abcd" = true) by reflexivity.
  split.
  - destruct (proj1 (show_path_boundary "abc" st0) H3) as (Hpath & Hsilent & Hlog).
    destruct (Hlog frame_ok_st0 Hk3) as (Hok & Ht).
    split; [exact H3 | split; [exact frame_ok_st0 | split; [exact Hk3 |]]].
    split; [exact Hpath | split; [exact Hsilent | split; [exact Hok | exact Ht]]].
  - destruct (proj2 (show_path_boundary "abcd" st0) H4) as (Hpath & Hlog).
    destruct (Hlog frame_ok_st0 Hk4) as (Hok & Ht & Hq).
    split; [exact H4 | split; [exact frame_ok_st0 | split; [exact Hk4 |]]].
    split; [exact Hpath | split; [exact Hok | split; [exact Ht | exact Hq]]].
Defined.

(** The static paint and the first scroll steps are not empty: "abc" is
    painted with 14 + 16 + 10 pixel writes, and the step at shift -1 of
    "abcd" differs from the step at shift 0. *)
Example show_paint_is_visible :
  writes (static_events 0 "abc") = (2 * (14 + 16 + 10))%nat /\
  pass_events 0 "abcd" 0 <> pass_events 0 "abcd" (-1).
Proof.
  split; [vm_compute; reflexivity |].
  vm_compute. discriminate.
Qed.
